(** * Payment-message interpretation and plan selection

    A shallow embedding of the three utility classes of the dashboard
    ([MpesaVerifier], [PlanUpgradeService], [MessageProcessor]) and the
    properties of their documented behaviour.

    Conventions of the embedding.
    - A JavaScript string is a Rocq [string].  The model is exact on 7-bit
      text, which is what M-Pesa confirmation messages are made of; a
      character with the high bit set is an opaque symbol (no case, not
      a digit, not white space).
    - A JavaScript number is a [number]: [NaN], the two infinities, or an
      exact rational.  Comparison, subtraction and rounding follow
      IEEE-754 on those values; rounding of a decimal literal to binary64
      is not modelled.
    - [String.prototype.match] with a non-global pattern is the
      backtracking matcher of ECMA-262, written with continuations as the
      standard writes it. *)

From Stdlib Require Import String Ascii List Bool Arith ZArith QArith Qround Lia Lqa.
From Stdlib Require Import Permutation Sorted DecimalString.
From ExtLib Require Import Structures.Monad Structures.MonadExc.
From ExtLib Require Import Data.Monads.IdentityMonad Data.Monads.EitherMonad.
Import ListNotations.

Local Close Scope Q_scope.
Local Open Scope string_scope.

(** ** Characters and strings of the host language *)

Module JS.

Definition code (c : ascii) : nat := nat_of_ascii c.

Definition in_range (lo hi c : ascii) : bool :=
  (code lo <=? code c)%nat && (code c <=? code hi)%nat.

Definition is_lower (c : ascii) : bool := in_range "a" "z" c.
Definition is_upper (c : ascii) : bool := in_range "A" "Z" c.
Definition is_digit (c : ascii) : bool := in_range "0" "9" c.

(** White space of [trim] and of the pattern class [\s]: TAB, LF, VT, FF,
    CR and SPACE. *)
Definition is_space (c : ascii) : bool :=
  ((9 <=? code c)%nat && (code c <=? 13)%nat) || (code c =? 32)%nat.

Definition upper_char (c : ascii) : ascii :=
  if is_lower c then ascii_of_nat (code c - 32) else c.

Definition lower_char (c : ascii) : ascii :=
  if is_upper c then ascii_of_nat (code c + 32) else c.

(** [s.toUpperCase()] *)
Fixpoint toUpperCase (s : string) : string :=
  match s with
  | EmptyString => EmptyString
  | String c s' => String (upper_char c) (toUpperCase s')
  end.

Fixpoint trimStart (s : string) : string :=
  match s with
  | EmptyString => EmptyString
  | String c s' => if is_space c then trimStart s' else s
  end.

Fixpoint trimEnd (s : string) : string :=
  match s with
  | EmptyString => EmptyString
  | String c s' =>
      match trimEnd s' with
      | EmptyString => if is_space c then EmptyString else String c EmptyString
      | t => String c t
      end
  end.

(** [s.trim()] *)
Definition trim (s : string) : string := trimEnd (trimStart s).

(** [s.includes(sub)] *)
Fixpoint includes (s sub : string) : bool :=
  prefix sub s ||
  match s with
  | EmptyString => false
  | String _ s' => includes s' sub
  end.

(** A text whose first character is not white space. *)
Definition starts_solid (m : string) : bool :=
  match m with
  | String c _ => negb (JS.is_space c)
  | EmptyString => false
  end.

(** A text whose last character is not white space. *)
Fixpoint ends_solid (m : string) : bool :=
  match m with
  | EmptyString => false
  | String c EmptyString => negb (JS.is_space c)
  | String _ m' => ends_solid m'
  end.

(** Truthiness of a string: [!s] holds of the empty string only. *)
Definition truthy (s : string) : bool :=
  match s with EmptyString => false | _ => true end.

End JS.

(** ** Regular expressions

    The fragment of the pattern language the three classes use: literal
    characters and classes, quantifiers on a class ([*], [+], [?],
    [{n}], [{n,m}], lazy [+?]), grouping with and without capture,
    alternation, option and the end anchor. *)

Module Regex.

Inductive cclass : Type :=
  | CChar (c : ascii)                (* a literal character *)
  | CRange (lo hi : ascii)           (* [lo-hi] *)
  | CDigit                           (* \d *)
  | CSpace                           (* \s *)
  | CUnion (a b : cclass).           (* [ab] *)

Inductive regex : Type :=
  | Eps
  | Cls (p : cclass)
  | Rep (greedy : bool) (p : cclass) (lo : nat) (hi : option nat)
  | Seq (r1 r2 : regex)
  | Alt (r1 r2 : regex)
  | Opt (r : regex)                  (* greedy r? *)
  | Grp (n : nat) (r : regex)        (* capture group number n *)
  | Eos.                             (* $ *)

(** Membership of a character in a class, without the [i] flag. *)
Fixpoint cmem (p : cclass) (c : ascii) : bool :=
  match p with
  | CChar d => Ascii.eqb d c
  | CRange lo hi => JS.in_range lo hi c
  | CDigit => JS.is_digit c
  | CSpace => JS.is_space c
  | CUnion a b => cmem a c || cmem b c
  end.

(** With the [i] flag a character belongs to a class when one of its
    case variants does. *)
Definition cmatch (icase : bool) (p : cclass) (c : ascii) : bool :=
  if icase then cmem p c || cmem p (JS.upper_char c) || cmem p (JS.lower_char c)
  else cmem p c.

(** Captures: group number to captured text. *)
Definition caps : Type := list (nat * string).

Fixpoint cap (n : nat) (c : caps) : option string :=
  match c with
  | [] => None
  | (m, s) :: c' => if (m =? n)%nat then Some s else cap n c'
  end.

Definition dec_hi (hi : option nat) : option nat :=
  match hi with None => None | Some h => Some (pred h) end.

Definition hi_open (hi : option nat) : bool :=
  match hi with None => true | Some h => negb (h =? 0)%nat end.

Section Matcher.

Variable icase : bool.
Variable msg : string.

(** A continuation receives the rest of the input, the position reached
    and the captures so far. *)
Definition cont : Type := string -> nat -> caps -> option caps.

(** Greedy repetition of a class: take one more character first, give
    it back when the rest fails. *)
Fixpoint rep_greedy (p : cclass) (lo : nat) (hi : option nat)
         (s : string) (pos : nat) (c : caps) (k : cont) : option caps :=
  let stop := if (lo =? 0)%nat then k s pos c else None in
  match s with
  | EmptyString => stop
  | String ch s' =>
      if hi_open hi && cmatch icase p ch then
        match rep_greedy p (pred lo) (dec_hi hi) s' (S pos) c k with
        | Some r => Some r
        | None => stop
        end
      else stop
  end.

(** Lazy repetition: stop as soon as allowed, take one more character
    when the rest fails. *)
Fixpoint rep_lazy (p : cclass) (lo : nat) (hi : option nat)
         (s : string) (pos : nat) (c : caps) (k : cont) : option caps :=
  let more :=
    match s with
    | EmptyString => None
    | String ch s' =>
        if hi_open hi && cmatch icase p ch
        then rep_lazy p (pred lo) (dec_hi hi) s' (S pos) c k
        else None
    end in
  if (lo =? 0)%nat then
    match k s pos c with
    | Some r => Some r
    | None => more
    end
  else more.

Fixpoint run (r : regex) (s : string) (pos : nat) (c : caps) (k : cont)
  : option caps :=
  match r with
  | Eps => k s pos c
  | Cls p =>
      match s with
      | String ch s' => if cmatch icase p ch then k s' (S pos) c else None
      | EmptyString => None
      end
  | Rep true p lo hi => rep_greedy p lo hi s pos c k
  | Rep false p lo hi => rep_lazy p lo hi s pos c k
  | Seq r1 r2 => run r1 s pos c (fun s' pos' c' => run r2 s' pos' c' k)
  | Alt r1 r2 =>
      match run r1 s pos c k with
      | Some res => Some res
      | None => run r2 s pos c k
      end
  | Opt r1 =>
      match run r1 s pos c k with
      | Some res => Some res
      | None => k s pos c
      end
  | Grp n r1 =>
      run r1 s pos c
          (fun s' pos' c' => k s' pos' ((n, substring pos (pos' - pos) msg) :: c'))
  | Eos => match s with EmptyString => k s pos c | _ => None end
  end.

(** One attempt at a fixed start position; group 0 is the whole match. *)
Definition attempt (r : regex) (s : string) (pos : nat) : option caps :=
  run r s pos []
      (fun _ pos' c' => Some ((0, substring pos (pos' - pos) msg) :: c')).

(** Start positions are tried from left to right, the end of the input
    included. *)
Fixpoint scan (r : regex) (s : string) (pos : nat) : option caps :=
  match attempt r s pos with
  | Some res => Some res
  | None =>
      match s with
      | EmptyString => None
      | String _ s' => scan r s' (S pos)
      end
  end.

End Matcher.

(** [msg.match(/r/)] and [msg.match(/r/i)]: the captures of the leftmost
    match, or [None]. *)
Definition exec (icase : bool) (r : regex) (msg : string) : option caps :=
  scan icase msg r msg 0.

(** Helpers to write patterns. *)
Fixpoint lit (s : string) : regex :=
  match s with
  | EmptyString => Eps
  | String c EmptyString => Cls (CChar c)
  | String c s' => Seq (Cls (CChar c)) (lit s')
  end.

Definition star (p : cclass) : regex := Rep true p 0 None.
Definition plus (p : cclass) : regex := Rep true p 1 None.
Definition lazy_plus (p : cclass) : regex := Rep false p 1 None.
Definition times (p : cclass) (lo hi : nat) : regex := Rep true p lo (Some hi).

Fixpoint seqs (rs : list regex) : regex :=
  match rs with
  | [] => Eps
  | [r] => r
  | r :: rs' => Seq r (seqs rs')
  end.

End Regex.

(** ** Numbers of the host language *)

Module Num.

Inductive number : Type :=
  | NaN
  | NegInf
  | Fin (q : Q)
  | PosInf.

Definition zero : number := Fin 0.
Definition of_Z (z : Z) : number := Fin (inject_Z z).

(** A number proper, infinities included. *)
Definition is_num (a : number) : bool :=
  match a with NaN => false | _ => true end.

(** [a < b]; false as soon as one side is [NaN]. *)
Definition lt (a b : number) : bool :=
  match a, b with
  | NaN, _ | _, NaN => false
  | _, NegInf => false
  | NegInf, _ => true
  | PosInf, _ => false
  | Fin _, PosInf => true
  | Fin x, Fin y => negb (Qle_bool y x)
  end.

(** [a > b] *)
Definition gt (a b : number) : bool := lt b a.

(** [a === b] on numbers. *)
Definition eq (a b : number) : bool :=
  match a, b with
  | NegInf, NegInf | PosInf, PosInf => true
  | Fin x, Fin y => Qeq_bool x y
  | _, _ => false
  end.

(** [a >= b] *)
Definition ge (a b : number) : bool :=
  match a, b with
  | NaN, _ | _, NaN => false
  | _, NegInf => true
  | NegInf, _ => false
  | PosInf, _ => true
  | Fin _, PosInf => false
  | Fin x, Fin y => Qle_bool y x
  end.

(** [a <= b] *)
Definition le (a b : number) : bool := ge b a.

(** [a - b] *)
Definition sub (a b : number) : number :=
  match a, b with
  | NaN, _ | _, NaN => NaN
  | PosInf, PosInf | NegInf, NegInf => NaN
  | PosInf, _ => PosInf
  | NegInf, _ => NegInf
  | Fin _, PosInf => NegInf
  | Fin _, NegInf => PosInf
  | Fin x, Fin y => Fin (x - y)
  end.

(** [Math.round]: the nearest integer, a tie going up. *)
Definition round (a : number) : number :=
  match a with
  | Fin x => Fin (inject_Z (Qfloor (x + (1 # 2))))
  | _ => a
  end.

(** *** [parseFloat] *)

Definition digit_val (c : ascii) : Z := Z.of_nat (JS.code c - 48).

(** The longest run of decimal digits at the head of [s], its value
    accumulated on [acc], the number of digits read, and the rest. *)
Fixpoint digits (s : string) (acc : Z) (n : nat) : Z * nat * string :=
  match s with
  | String c s' =>
      if JS.is_digit c then digits s' (10 * acc + digit_val c)%Z (S n)
      else (acc, n, s)
  | EmptyString => (acc, n, s)
  end.

Definition sign (s : string) : bool * string :=
  match s with
  | String "-" s' => (true, s')
  | String "+" s' => (false, s')
  | _ => (false, s)
  end.

(** The exponent part [e[+-]ddd], 0 when there is none. *)
Definition exponent (s : string) : Z :=
  match s with
  | String c s' =>
      if Ascii.eqb c "e" || Ascii.eqb c "E" then
        let '(neg, s'') := sign s' in
        let '(v, n, _) := digits s'' 0%Z 0 in
        if (n =? 0)%nat then 0%Z else if neg then (- v)%Z else v
      else 0%Z
  | EmptyString => 0%Z
  end.

(** [parseFloat(s)]: leading white space is skipped and the longest
    prefix that is a decimal literal is read; [NaN] when there is none. *)
Definition parseFloat (input : string) : number :=
  let '(neg, s1) := sign (JS.trimStart input) in
  if prefix "Infinity" s1 then (if neg then NegInf else PosInf)
  else
    let '(ip, ni, s2) := digits s1 0%Z 0 in
    let '(m, nf, s3) :=
      match s2 with
      | String "." t => let '(m, n, r) := digits t ip 0 in (m, n, r)
      | _ => (ip, 0, s2)
      end in
    if ((ni =? 0) && (nf =? 0))%nat then NaN
    else
      let e := (exponent s3 - Z.of_nat nf)%Z in
      let v := (inject_Z m * Qpower 10 e)%Q in
      Fin (Qred (if neg then - v else v)%Q).

End Num.

(** ** Arrays of the host language *)

Module JSArray.

Section Sort.

Context {A : Type}.
Variable comparefn : A -> A -> Num.number.

(** An element that comes earlier in the array stays before every
    element it does not compare greater than. *)
Fixpoint insert (x : A) (l : list A) : list A :=
  match l with
  | [] => [x]
  | y :: l' =>
      if Num.gt (comparefn x y) Num.zero then y :: insert x l' else x :: l
  end.

(** [l.sort(comparefn)]: the stable sort the standard requires, by
    insertion.  A comparator result that is [NaN] counts as 0. *)
Fixpoint sort (l : list A) : list A :=
  match l with
  | [] => []
  | x :: l' => insert x (sort l')
  end.

End Sort.

(** [l[l.length - 1]] *)
Definition last_elt {A : Type} (l : list A) : option A :=
  nth_error l (length l - 1).

End JSArray.

(** ** [MpesaVerifier]: verification of a pasted confirmation message *)

Module MpesaVerifier.

Import Regex.

Definition REQUIRED_MERCHANT_TEXT : string := "VEDACOM 4 SOLUTIONS".

(** The [details] object; an optional property that was never assigned
    is [None]. *)
Record Details : Type := mkDetails {
  containsRequiredText : bool;
  merchantName : option string;
  amount : option string;
  transactionId : option string;
  timestamp : option string
}.

Record MpesaVerificationResult : Type := mkResult {
  isValid : bool;
  message : string;
  details : Details
}.

(** The amount pattern: KSH \s* ( [\d,]+ \.? \d* ) with flag i. *)
Definition amount_re : regex :=
  seqs [lit "KSH"; star CSpace;
        Grp 1 (seqs [plus (CUnion CDigit (CChar ","));
                     Rep true (CChar ".") 0 (Some 1);
                     star CDigit])].

(** The transaction pattern:
    (?: TXN \s* ID | TRANSACTION \s* ID ) [:\s]* ( [A-Z0-9]+ ) with flag i. *)
Definition txn_re : regex :=
  seqs [Alt (seqs [lit "TXN"; star CSpace; lit "ID"])
            (seqs [lit "TRANSACTION"; star CSpace; lit "ID"]);
        star (CUnion (CChar ":") CSpace);
        Grp 1 (plus (CUnion (CRange "A" "Z") (CRange "0" "9")))].

(** The time pattern:
    ( \d{1,2} / \d{1,2} / \d{2,4} \s+ \d{1,2} : \d{2} \s* (?: AM | PM )? )
    with flag i. *)
Definition time_re : regex :=
  Grp 1 (seqs [times CDigit 1 2; lit "/"; times CDigit 1 2; lit "/";
               times CDigit 2 4; plus CSpace; times CDigit 1 2; lit ":";
               times CDigit 2 2; star CSpace;
               Opt (Alt (lit "AM") (lit "PM"))]).

(** The merchant pattern:
    (?: TO | PAID \s* TO ) [:\s]* ( [A-Z\s]+? ) (?: \s* ON | \s* \d | $ )
    with flag i. *)
Definition merchant_re : regex :=
  seqs [Alt (lit "TO") (seqs [lit "PAID"; star CSpace; lit "TO"]);
        star (CUnion (CChar ":") CSpace);
        Grp 1 (lazy_plus (CUnion (CRange "A" "Z") CSpace));
        Alt (Seq (star CSpace) (lit "ON"))
            (Alt (Seq (star CSpace) (Cls CDigit)) Eos)].

(** [m[1]] of a match result, when there is a match. *)
Definition group1 (m : option caps) : option string :=
  match m with
  | Some c => cap 1 c
  | None => None
  end.

Definition extractMessageDetails (message : string) : Details :=
  let amountMatch := exec true amount_re message in
  let txnMatch := exec true txn_re message in
  let timeMatch := exec true time_re message in
  let merchantMatch := exec true merchant_re message in
  {| containsRequiredText := true;
     merchantName := option_map JS.trim (group1 merchantMatch);
     amount := group1 amountMatch;
     transactionId := group1 txnMatch;
     timestamp := group1 timeMatch |}.

Definition no_details : Details :=
  {| containsRequiredText := false;
     merchantName := None;
     amount := None;
     transactionId := None;
     timestamp := None |}.

(** The object [{ containsRequiredText: b, ...d }]: the properties of [d]
    are written last, and [d] always carries the flag. *)
Definition spread (b : bool) (d : Details) : Details :=
  {| containsRequiredText := d.(containsRequiredText);
     merchantName := d.(merchantName);
     amount := d.(amount);
     transactionId := d.(transactionId);
     timestamp := d.(timestamp) |}.

Definition verifyMessage (message : string) : MpesaVerificationResult :=
  if negb (JS.truthy message) then
    {| isValid := false;
       message := "Invalid message format";
       details := no_details |}
  else
    let normalizedMessage := JS.trim (JS.toUpperCase message) in
    let requiredText := JS.toUpperCase REQUIRED_MERCHANT_TEXT in
    let containsRequiredText := JS.includes normalizedMessage requiredText in
    if negb containsRequiredText then
      {| isValid := false;
         message := "Invalid payment message - merchant verification failed";
         details := no_details |}
    else
      let details := extractMessageDetails message in
      {| isValid := true;
         message := "Payment message verified successfully";
         details := spread true details |}.

End MpesaVerifier.

(** ** [PlanUpgradeService]: from a paid amount to a plan *)

Module PlanUpgradeService.

Import MonadNotation.
Local Open Scope monad_scope.

Record SurveyPlan : Type := mkPlan {
  planName : string;
  dailySurvey : Num.number;
  monthlyIncome : Num.number;
  dailyIncome : Num.number;
  earningPerSurvey : string;
  minimumWithdrawal : Num.number;
  price : string;
  description : option string;
  features : option (list string)
}.

Record PlanUpgradeResult : Type := mkUpgrade {
  success : bool;
  message : string;
  newPlan : option SurveyPlan;
  oldPlan : option string
}.

Module Validation.
Record t : Type := mk { isValid : bool; message : string }.
End Validation.

(** What is handed to the console. *)
Inductive logarg : Type :=
  | LStr (s : string)
  | LNum (n : Num.number)
  | LPlans (l : list (string * string)).

(** The comparator of the sort: [priceA - priceB]. *)
Definition by_price (a b : SurveyPlan) : Num.number :=
  let priceA := Num.parseFloat a.(price) in
  let priceB := Num.parseFloat b.(price) in
  Num.sub priceA priceB.

Definition is_paid (plan : SurveyPlan) : bool :=
  Num.gt (Num.parseFloat plan.(price)) Num.zero.

Section Console.

Context {m : Type -> Type} {Monad_m : Monad m}.

(** The console of the host; the code only ever writes to it. *)
Variable console_log : list logarg -> m unit.

Definition getPlanByAmountM (amount : Num.number)
           (availablePlans : list SurveyPlan) : m (option SurveyPlan) :=
  let paidPlans := JSArray.sort by_price (filter is_paid availablePlans) in
  console_log [LStr "Available paid plans:";
               LPlans (map (fun p => (p.(planName), p.(price))) paidPlans)] ;;
  console_log [LStr "Looking for plan with amount:"; LNum amount] ;;
  match find (fun plan => Num.eq (Num.parseFloat plan.(price)) amount) paidPlans with
  | Some exactMatch =>
      console_log [LStr "Found exact match:"; LStr exactMatch.(planName)] ;;
      ret (Some exactMatch)
  | None =>
      match find (fun plan => Num.ge (Num.parseFloat plan.(price)) amount) paidPlans with
      | Some higherPlan =>
          console_log [LStr "Found higher plan:"; LStr higherPlan.(planName)] ;;
          ret (Some higherPlan)
      | None =>
          if (0 <? length paidPlans)%nat then
            match JSArray.last_elt paidPlans with
            | Some highestPlan =>
                console_log [LStr "Returning highest plan:";
                             LStr highestPlan.(planName)] ;;
                ret (Some highestPlan)
            | None => ret None
            end
          else
            console_log [LStr "No suitable plan found for amount:"; LNum amount] ;;
            ret None
      end
  end.

End Console.

(** The value [getPlanByAmount] returns, its console output left aside. *)
Definition getPlanByAmount (amount : Num.number)
           (availablePlans : list SurveyPlan) : option SurveyPlan :=
  unIdent (getPlanByAmountM (fun _ => ret tt) amount availablePlans).

Definition validateUpgrade (currentPlanName targetPlanName : string)
           (availablePlans : list SurveyPlan) : Validation.t :=
  let currentPlan :=
    find (fun p => String.eqb p.(planName) currentPlanName) availablePlans in
  let targetPlan :=
    find (fun p => String.eqb p.(planName) targetPlanName) availablePlans in
  match currentPlan, targetPlan with
  | Some currentPlan, Some targetPlan =>
      let currentPrice := Num.parseFloat currentPlan.(price) in
      let targetPrice := Num.parseFloat targetPlan.(price) in
      if Num.gt currentPrice targetPrice then
        {| Validation.isValid := false;
           Validation.message := "Cannot downgrade to a lower plan" |}
      else
        {| Validation.isValid := true;
           Validation.message := "Upgrade validated successfully" |}
  | _, _ =>
      {| Validation.isValid := false;
         Validation.message := "Invalid plan selection" |}
  end.

(** A value thrown inside the [try] block. *)
Definition error : Type := string.

Definition failure (msg : string) : PlanUpgradeResult :=
  {| success := false; message := msg; newPlan := None; oldPlan := None |}.

Section Upgrade.

Variable console_log : list logarg -> sum error unit.

(** The body of the [try] block. *)
Definition upgrade_body (userId : string) (verifiedAmount : Num.number)
           (availablePlans : list SurveyPlan) : sum error PlanUpgradeResult :=
  targetPlan <- getPlanByAmountM console_log verifiedAmount availablePlans ;;
  match targetPlan with
  | None => ret (failure "No plan found for the verified amount")
  | Some targetPlan =>
      let currentPlanName := "Starter" in
      let validation :=
        validateUpgrade currentPlanName targetPlan.(planName) availablePlans in
      if negb validation.(Validation.isValid) then
        ret (failure validation.(Validation.message))
      else
        console_log [LStr ("Updating user " ++ userId ++ " plan to "
                           ++ targetPlan.(planName))] ;;
        ret {| success := true;
               message := "Plan successfully upgraded to " ++ targetPlan.(planName);
               newPlan := Some targetPlan;
               oldPlan := Some currentPlanName |}
  end.

(** The outcome of the promise: [inr] when it resolves, [inl] when it
    rejects. *)
Definition processPlanUpgrade (userId : string) (verifiedAmount : Num.number)
           (availablePlans : list SurveyPlan) : sum error PlanUpgradeResult :=
  catch (upgrade_body userId verifiedAmount availablePlans)
        (fun _ => ret (failure "Failed to process plan upgrade")).

End Upgrade.

End PlanUpgradeService.

(** ** [MessageProcessor]: payment details of a pasted message *)

Module MessageProcessor.

Import Regex.

Record MpesMessageInfo : Type := mkInfo {
  amount : Num.number;
  transactionId : string;
  phoneNumber : string;
  timestamp : N;
  isValid : bool
}.

(** What the host supplies on a call: the clock read by [Date.now()], the
    text of [Math.random().toString(36)] and the clock read by
    [new Date()]. *)
Record Env : Type := mkEnv {
  date_now : N;
  random_base36 : string;
  new_date : N
}.

(** Ksh ( \d+ (?: \. \d{2} )? ), the head shared by the four templates. *)
Definition ksh_amount : regex :=
  Seq (lit "Ksh")
      (Grp 1 (Seq (plus CDigit) (Opt (Seq (lit ".") (times CDigit 2 2))))).

Definition sp : regex := plus CSpace.
Definition till : regex := Grp 2 (plus CDigit).

(** Template 1: KshXXX.00 sent to Till Number XXXXXXXX *)
Definition pattern1 : regex :=
  seqs [ksh_amount; sp; lit "sent"; sp; lit "to"; sp; lit "Till"; sp;
        lit "Number"; sp; till].

(** Template 2: KshXXX.00 paid to XXXXXXXX *)
Definition pattern2 : regex :=
  seqs [ksh_amount; sp; lit "paid"; sp; lit "to"; sp; till].

(** Template 3: Confirmed. KshXXX.00 sent to XXXXXXXX *)
Definition pattern3 : regex :=
  seqs [lit "Confirmed."; star CSpace; ksh_amount; sp; lit "sent"; sp;
        lit "to"; sp; till].

(** Template 4: KshXXX.00 has been sent to XXXXXXXX *)
Definition pattern4 : regex :=
  seqs [ksh_amount; sp; lit "has"; sp; lit "been"; sp; lit "sent"; sp;
        lit "to"; sp; till].

Definition patterns : list regex := [pattern1; pattern2; pattern3; pattern4].

Definition correctTillNumber : string := "3566188".

(** (?: \+254 | 0 )? 7 \d{8}, case sensitive. *)
Definition phonePattern : regex :=
  seqs [Opt (Alt (lit "+254") (lit "0")); lit "7"; times CDigit 8 8].

Definition extractPhoneNumber (message : string) : string :=
  match exec false phonePattern message with
  | Some m => match cap 0 m with Some s => s | None => "Unknown" end
  | None => "Unknown"
  end.

Definition generateTransactionId (env : Env) : string :=
  "MP" ++ NilZero.string_of_uint (N.to_uint env.(date_now))
       ++ JS.toUpperCase (substring 2 5 env.(random_base36)).

Section Extract.

Variable env : Env.
Variable message : string.

(** The loop over the templates. *)
Fixpoint try_patterns (ps : list regex) : option MpesMessageInfo :=
  match ps with
  | [] => None
  | pattern :: rest =>
      match exec true pattern message with
      | Some m =>
          let amount :=
            match cap 1 m with
            | Some a => Num.parseFloat a
            | None => Num.NaN
            end in
          let tillNumber := cap 2 m in
          match tillNumber with
          | Some t =>
              if String.eqb t correctTillNumber then
                Some {| amount := Num.round amount;
                        transactionId := generateTransactionId env;
                        phoneNumber := extractPhoneNumber message;
                        timestamp := env.(new_date);
                        isValid := true |}
              else try_patterns rest
          | None => try_patterns rest
          end
      | None => try_patterns rest
      end
  end.

Definition extractPaymentInfo : option MpesMessageInfo :=
  if negb (JS.truthy message) then None
  else try_patterns patterns.

End Extract.

End MessageProcessor.

(** ** Vocabulary of the specification *)

(** Two texts are equal up to the case of their letters. *)
Fixpoint eq_ignore_case (a b : string) : Prop :=
  match a, b with
  | EmptyString, EmptyString => True
  | String x a', String y b' =>
      JS.lower_char x = JS.lower_char y /\ eq_ignore_case a' b'
  | _, _ => False
  end.

(** [s] contains [sub] case-insensitively: some stretch of [s] is [sub]
    up to case. *)
Definition contains_ignore_case (s sub : string) : Prop :=
  exists pre mid suf, s = pre ++ mid ++ suf /\ eq_ignore_case mid sub.

(** The numeric price of a tier, as the service reads it. *)
Definition priceOf (t : PlanUpgradeService.SurveyPlan) : Num.number :=
  Num.parseFloat t.(PlanUpgradeService.price).

(** A tier of [plans] with a price above zero. *)
Definition paid_in (plans : list PlanUpgradeService.SurveyPlan)
           (t : PlanUpgradeService.SurveyPlan) : Prop :=
  In t plans /\ Num.gt (priceOf t) Num.zero = true.

(** Prices never go down along the list. *)
Definition ascending (l : list PlanUpgradeService.SurveyPlan) : Prop :=
  StronglySorted (fun a b => Num.le (priceOf a) (priceOf b) = true) l.

(** The lookup of a tier by its name. *)
Definition plan_named (plans : list PlanUpgradeService.SurveyPlan)
           (name : string) : option PlanUpgradeService.SurveyPlan :=
  find (fun p => String.eqb p.(PlanUpgradeService.planName) name) plans.

(** The local [paidPlans] of [getPlanByAmount]: the paid tiers, sorted. *)
Definition paidPlans (plans : list PlanUpgradeService.SurveyPlan)
  : list PlanUpgradeService.SurveyPlan :=
  JSArray.sort PlanUpgradeService.by_price
               (filter PlanUpgradeService.is_paid plans).

(** *** Sample data: the four tiers of the configuration, by name and
    price. *)

Definition tier (name price : string) : PlanUpgradeService.SurveyPlan :=
  PlanUpgradeService.mkPlan name Num.zero Num.zero Num.zero "" Num.zero
                            price None None.

Definition starter : PlanUpgradeService.SurveyPlan := tier "Starter" "0".
Definition silver : PlanUpgradeService.SurveyPlan := tier "Silver" "250".
Definition gold : PlanUpgradeService.SurveyPlan := tier "Gold" "500".
Definition platinum : PlanUpgradeService.SurveyPlan := tier "Platinum" "1000".

Definition sample_tiers : list PlanUpgradeService.SurveyPlan :=
  [starter; silver; gold; platinum].

(** How the tier returned for an amount was chosen: it has that price;
    or no paid tier has, and it is a cheapest one among those that cost
    at least the amount; or no paid tier costs that much, and it is a
    dearest one. *)
Inductive chosen (amount : Num.number) (plans : list PlanUpgradeService.SurveyPlan)
          (t : PlanUpgradeService.SurveyPlan)
  : Prop :=
  | Exact :
      Num.eq (priceOf t) amount = true -> chosen amount plans t
  | Higher :
      (forall u, paid_in plans u -> Num.eq (priceOf u) amount = false) ->
      Num.ge (priceOf t) amount = true ->
      (forall u, paid_in plans u -> Num.ge (priceOf u) amount = true ->
                 Num.le (priceOf t) (priceOf u) = true) ->
      chosen amount plans t
  | Highest :
      (forall u, paid_in plans u -> Num.ge (priceOf u) amount = false) ->
      (forall u, paid_in plans u -> Num.le (priceOf u) (priceOf t) = true) ->
      chosen amount plans t.

(** The three verdicts of [validateUpgrade]. *)
Definition downgrade_refused : PlanUpgradeService.Validation.t :=
  PlanUpgradeService.Validation.mk false "Cannot downgrade to a lower plan".

Definition upgrade_accepted : PlanUpgradeService.Validation.t :=
  PlanUpgradeService.Validation.mk true "Upgrade validated successfully".

Definition unknown_plan : PlanUpgradeService.Validation.t :=
  PlanUpgradeService.Validation.mk false "Invalid plan selection".

(** Template [p] matches in [msg] and the till number it captures is
    [till]. *)
Definition captures_till (p : Regex.regex) (msg till : string) : Prop :=
  exists m, Regex.exec true p msg = Some m /\ Regex.cap 2 m = Some till.

(** The first template of [ps], in order, that matches [msg] textually,
    with its captures. *)
Fixpoint first_match (msg : string) (ps : list Regex.regex)
  : option (Regex.regex * Regex.caps) :=
  match ps with
  | [] => None
  | p :: ps' =>
      match Regex.exec true p msg with
      | Some m => Some (p, m)
      | None => first_match msg ps'
      end
  end.

(** The record built from the captures of the template that is used. *)
Definition info_of (env : MessageProcessor.Env) (msg : string)
           (m : Regex.caps) : MessageProcessor.MpesMessageInfo :=
  {| MessageProcessor.amount :=
       Num.round match Regex.cap 1 m with
                 | Some a => Num.parseFloat a
                 | None => Num.NaN
                 end;
     MessageProcessor.transactionId := MessageProcessor.generateTransactionId env;
     MessageProcessor.phoneNumber := MessageProcessor.extractPhoneNumber msg;
     MessageProcessor.timestamp := env.(MessageProcessor.new_date);
     MessageProcessor.isValid := true |}.

(** A message that holds two confirmations: one paid to another till,
    one sent to the expected till. *)
Definition two_confirmations : string :=
  "Ksh500 paid to 1234567. Ksh500 has been sent to 3566188".

Definition sample_env : MessageProcessor.Env :=
  {| MessageProcessor.date_now := 1700000000000%N;
     MessageProcessor.random_base36 := "0.4fzyo82mvyr";
     MessageProcessor.new_date := 1700000000001%N |}.

(** The confirmation of the scenario, before the text that follows it. *)
Definition scenario_head : string :=
  "Confirmed. Ksh250.00 sent to Till Number 3566188 on 1/1/24 ".

Definition scenario_message : string :=
  scenario_head ++ "... VEDACOM 4 SOLUTIONS".

(** * Further code: status and format of a message, the handlers, the dashboard *)

From Stdlib Require Import NArith Qpower DecimalN DecimalPos.

(** ** Meaning of a pattern *)

Module RegexSem.

Import Regex.

Section Sem.

Variable icase : bool.

(** Every character of [w] belongs to the class. *)
Fixpoint all_in (p : cclass) (w : string) : Prop :=
  match w with
  | EmptyString => True
  | String ch w' => cmatch icase p ch = true /\ all_in p w'
  end.

Definition within (hi : option nat) (n : nat) : Prop :=
  match hi with
  | None => True
  | Some h => n <= h
  end.

(** [sem r w rest g]: the pattern [r] matches the word [w] when [rest]
    follows it, and the groups closed on the way hold [g], the last one
    closed first. *)
Fixpoint sem (r : regex) (w rest : string) (g : caps) : Prop :=
  match r with
  | Eps => w = EmptyString /\ g = []
  | Cls p => (exists ch, w = String ch EmptyString /\ cmatch icase p ch = true)
             /\ g = []
  | Rep _ p lo hi =>
      (all_in p w /\ lo <= String.length w /\ within hi (String.length w))
      /\ g = []
  | Seq r1 r2 =>
      exists w1 w2 g1 g2,
        w = w1 ++ w2 /\ sem r1 w1 (w2 ++ rest) g1 /\ sem r2 w2 rest g2
        /\ g = (g2 ++ g1)%list
  | Alt r1 r2 => sem r1 w rest g \/ sem r2 w rest g
  | Opt r1 => sem r1 w rest g \/ (w = EmptyString /\ g = [])
  | Grp n r1 => exists g1, sem r1 w rest g1 /\ g = (n, w) :: g1
  | Eos => (w = EmptyString /\ rest = EmptyString) /\ g = []
  end.

(** The pattern matches [w] before [rest]. *)
Definition matches (r : regex) (w rest : string) : Prop :=
  exists g, sem r w rest g.

(** The pattern matches somewhere in [msg]. *)
Definition found (r : regex) (msg : string) : Prop :=
  exists pre w suf, msg = pre ++ w ++ suf /\ matches r w suf.

End Sem.

(** The bodies of the groups numbered [n] in a pattern. *)
Fixpoint group_bodies (n : nat) (r : regex) : list regex :=
  match r with
  | Seq r1 r2 | Alt r1 r2 => (group_bodies n r1 ++ group_bodies n r2)%list
  | Opt r1 => group_bodies n r1
  | Grp m r1 =>
      if (m =? n)%nat then r1 :: group_bodies n r1 else group_bodies n r1
  | _ => []
  end.

(** The input from position [pos] on is [s]. *)
Definition at_pos (msg : string) (pos : nat) (s : string) : Prop :=
  exists pre, msg = pre ++ s /\ String.length pre = pos.

(** A continuation that accepts [rest] wherever it is reached. *)
Definition accepts (k : cont) (rest : string) : Prop :=
  forall pos c, k rest pos c <> None.

End RegexSem.

(** ** [MpesaVerifier]: status and format of a message *)

Module MpesaVerifierReport.

Import MpesaVerifier.



Module Format.
Record t : Type := mk { isValid : bool; errors : list string }.
End Format.

Definition validateMessageFormat (message : string) : Format.t :=
  let errors := [] in
  let errors :=
    if negb (JS.truthy message) || (String.length (JS.trim message) =? 0)%nat
    then (errors ++ ["Message cannot be empty"])%list else errors in
  let errors :=
    if JS.truthy message && (String.length message <? 10)%nat
    then (errors ++ ["Message appears to be too short"])%list else errors in
  let errors :=
    if JS.truthy message && negb (JS.includes (JS.toUpperCase message) "KSH")
    then (errors ++ ["Message should contain payment amount (KSH)"])%list
    else errors in
  {| Format.isValid := (length errors =? 0)%nat; Format.errors := errors |}.

End MpesaVerifierReport.

(** ** [MessageProcessor]: the validity test *)

Module MessageProcessorCheck.

Import MessageProcessor.

Definition isValidMpesMessage (env : Env) (message : string) : bool :=
  match extractPaymentInfo env message with
  | Some _ => true
  | None => false
  end.

End MessageProcessorCheck.

(** ** Patterns with a starred group

    The pattern of the verification form that repeats a group,
    (?: , \d{3} )*, needs a star on a pattern.  An iteration that consumes
    nothing is refused, as the standard says, so the input left bounds the
    number of iterations. *)

Module RegexStar.

Import Regex.

Inductive xregex : Type :=
  | XBase (r : regex)
  | XSeq (a b : xregex)
  | XStar (a : xregex)               (* greedy a* *)
  | XGrp (n : nat) (a : xregex).

Section XMatcher.

Variable icase : bool.
Variable msg : string.

(** Greedy iteration of [step], at most [fuel] times. *)
Fixpoint star_loop (step : string -> nat -> caps -> cont -> option caps)
         (fuel : nat) (s : string) (pos : nat) (c : caps) (k : cont)
  : option caps :=
  match fuel with
  | 0 => k s pos c
  | S fuel' =>
      match step s pos c
                 (fun s' pos' c' =>
                    if (String.length s' <? String.length s)%nat
                    then star_loop step fuel' s' pos' c' k
                    else None) with
      | Some r => Some r
      | None => k s pos c
      end
  end.

Fixpoint xrun (x : xregex) (s : string) (pos : nat) (c : caps) (k : cont)
  : option caps :=
  match x with
  | XBase r => run icase msg r s pos c k
  | XSeq a b => xrun a s pos c (fun s' pos' c' => xrun b s' pos' c' k)
  | XStar a => star_loop (xrun a) (String.length s) s pos c k
  | XGrp n a =>
      xrun a s pos c
           (fun s' pos' c' => k s' pos' ((n, substring pos (pos' - pos) msg) :: c'))
  end.

Definition xattempt (x : xregex) (s : string) (pos : nat) : option caps :=
  xrun x s pos []
       (fun _ pos' c' => Some ((0, substring pos (pos' - pos) msg) :: c')).

Fixpoint xscan (x : xregex) (s : string) (pos : nat) : option caps :=
  match xattempt x s pos with
  | Some res => Some res
  | None =>
      match s with
      | EmptyString => None
      | String _ s' => xscan x s' (S pos)
      end
  end.

End XMatcher.

Definition xexec (icase : bool) (x : xregex) (msg : string) : option caps :=
  xscan icase msg x msg 0.

End RegexStar.

(** ** Numbers: [parseInt], [Math.max] *)

Module NumLib.

Import Num.

(** The value of a digit in radix 16, when it is one. *)
Definition hex_val (c : ascii) : option Z :=
  if JS.is_digit c then Some (Z.of_nat (JS.code c - 48))
  else if JS.in_range "a" "f" c then Some (Z.of_nat (JS.code c - 87))
  else if JS.in_range "A" "F" c then Some (Z.of_nat (JS.code c - 55))
  else None.

Definition radix_val (radix : Z) (c : ascii) : option Z :=
  match hex_val c with
  | Some v => if (v <? radix)%Z then Some v else None
  | None => None
  end.

(** The longest run of digits of the radix at the head of [s]: its value
    and the number of digits read. *)
Fixpoint int_digits (radix : Z) (s : string) (acc : Z) (n : nat) : Z * nat :=
  match s with
  | String c s' =>
      match radix_val radix c with
      | Some v => int_digits radix s' (radix * acc + v)%Z (S n)
      | None => (acc, n)
      end
  | EmptyString => (acc, n)
  end.

(** [parseInt(s)], no radix given: white space and a sign are skipped, a
    prefix 0x or 0X selects radix 16, and the longest run of digits is
    read; [NaN] when there is none. *)
Definition parseInt (input : string) : number :=
  let '(neg, s1) := sign (JS.trimStart input) in
  let '(radix, s2) :=
    match s1 with
    | String "0" (String "x" t) => (16%Z, t)
    | String "0" (String "X" t) => (16%Z, t)
    | _ => (10%Z, s1)
    end in
  let '(v, n) := int_digits radix s2 0%Z 0 in
  if (n =? 0)%nat then NaN
  else Fin (inject_Z (if neg then - v else v)).

(** [Math.max(a, b)] *)
Definition max (a b : number) : number :=
  match a, b with
  | NaN, _ | _, NaN => NaN
  | _, _ => if lt a b then b else a
  end.

Definition is_finite (a : number) : bool :=
  match a with Fin _ => true | _ => false end.

(** Truthiness of a number: 0 and [NaN] are falsy. *)
Definition truthy (a : number) : bool :=
  match a with
  | NaN => false
  | Fin q => negb (Qeq_bool q 0)
  | _ => true
  end.


End NumLib.

(** ** The limit dialog: what is left of the day *)

Module SurveyLimitModal.

Definition remainingSurveys (dailyLimit surveysCompletedToday : Num.number)
  : Num.number :=
  NumLib.max Num.zero (Num.sub dailyLimit surveysCompletedToday).

Definition isLimitReached (dailyLimit surveysCompletedToday : Num.number) : bool :=
  Num.ge surveysCompletedToday dailyLimit.

(** The line under the title: the count left, or the invitation to
    upgrade. *)
Inductive headline : Type :=
  | UpgradeForUnlimited
  | LeftToday (n : Num.number).

Definition subtitle (dailyLimit surveysCompletedToday : Num.number) : headline :=
  if isLimitReached dailyLimit surveysCompletedToday then UpgradeForUnlimited
  else LeftToday (remainingSurveys dailyLimit surveysCompletedToday).

End SurveyLimitModal.

(** ** The verification form: [handleVerify] *)

Module MpesaVerification.

Import Regex RegexStar.

(** The plan document, as far as the handlers read it. *)
Record PlanData : Type := mkPlanData {
  surveyPlans : list PlanUpgradeService.SurveyPlan
}.

(** (?: KSH | KES | Ksh | kes ) *)
Definition currency : regex :=
  Alt (lit "KSH") (Alt (lit "KES") (Alt (lit "Ksh") (lit "kes"))).

(** [\d,]+ \.? \d* *)
Definition amount_token : regex :=
  seqs [plus (CUnion CDigit (CChar ","));
        Rep true (CChar ".") 0 (Some 1);
        star CDigit].

(** Pattern 1, KSH 250.00: (?: KSH | KES | Ksh | kes ) \s* ( [\d,]+ \.? \d* ),
    flag i. *)
Definition pattern1 : regex :=
  seqs [currency; star CSpace; Grp 1 amount_token].

(** Pattern 2, 250.00 KSH: ( [\d,]+ \.? \d* ) \s* (?: KSH | KES | Ksh | kes ),
    flag i. *)
Definition pattern2 : regex :=
  seqs [Grp 1 amount_token; star CSpace; currency].

(** Pattern 3, KES250:
    (?: KSH | KES | Ksh | kes ) ( \d+ (?: , \d{3} )* (?: \. \d{2} )? ),
    flag i. *)
Definition pattern3 : xregex :=
  XSeq (XBase currency)
       (XGrp 1 (XSeq (XBase (plus CDigit))
                     (XSeq (XStar (XBase (Seq (lit ",") (times CDigit 3 3))))
                           (XBase (Opt (Seq (lit ".") (times CDigit 2 2))))))).

(** [t.replace(/,/g, '')] *)
Fixpoint remove_commas (t : string) : string :=
  match t with
  | EmptyString => EmptyString
  | String c t' =>
      if Ascii.eqb c "," then remove_commas t' else String c (remove_commas t')
  end.

(** [parseFloat(m[1].replace(/,/g, ''))] *)
Definition amount_of (m : caps) : Num.number :=
  match cap 1 m with
  | Some t => Num.parseFloat (remove_commas t)
  | None => Num.NaN
  end.

(** The amount the form reads in the message. *)
Definition verifiedAmount (message : string) : Num.number :=
  let verifiedAmount := Num.zero in
  let pattern1 := exec true pattern1 message in
  let verifiedAmount :=
    match pattern1 with
    | Some m => amount_of m
    | None => verifiedAmount
    end in
  let pattern2 := exec true pattern2 message in
  let verifiedAmount :=
    match pattern1, pattern2 with
    | None, Some m => amount_of m
    | _, _ => verifiedAmount
    end in
  let pattern3 := xexec true pattern3 message in
  let verifiedAmount :=
    match pattern1, pattern2, pattern3 with
    | None, None, Some m => amount_of m
    | _, _, _ => verifiedAmount
    end in
  verifiedAmount.

(** [upgradePlan] is [async]: a call returns a promise at once.  A promise
    is an object, and an object is truthy whatever it resolves to. *)
Inductive promise (A : Type) : Type :=
  | Resolves (a : A).

Arguments Resolves {A} a.

Definition truthy_promise {A : Type} (p : promise A) : bool := true.

Inductive toast : Type :=
  | PasteYourMessage                 (* "Error" *)
  | PlanUpgradedSuccessfully (plan : PlanUpgradeService.SurveyPlan)
  | UpgradeFailed
  | NoPlanFound (amount : Num.number)
  | InvalidPayment
  | VerificationFailed (reason : string)
  | VerificationError.

(** What [handleVerify] does that can be seen from outside, in order. *)
Inductive effect : Type :=
  | Toast (t : toast)
  | SetIsVerifying (b : bool)
  | SetIsUpgrading (b : bool)
  | CallUpgradePlan (name : string)
  | SetVerificationResult (r : MpesaVerifier.MpesaVerificationResult)
                          (upgradedPlan : option PlanUpgradeService.SurveyPlan)
  | OnVerificationComplete (verified : bool) (message : string)
                           (details : MpesaVerifier.Details)
                           (upgrade : option (PlanUpgradeService.SurveyPlan
                                              * Num.number)).

Section Handler.

Local Open Scope list_scope.

Variable upgradePlan : string -> promise bool.
Variable planData : option PlanData.

Definition handleVerify (message : string) : list effect :=
  if negb (JS.truthy (JS.trim message)) then [Toast PasteYourMessage]
  else
    let result := MpesaVerifier.verifyMessage message in
    let body :=
      (if result.(MpesaVerifier.isValid) then
         let verifiedAmount := verifiedAmount message in
         match Num.gt verifiedAmount Num.zero, planData with
         | true, Some planData =>
             match PlanUpgradeService.getPlanByAmount
                     verifiedAmount planData.(surveyPlans) with
             | Some targetPlan =>
                 let upgradeSuccess :=
                   upgradePlan targetPlan.(PlanUpgradeService.planName) in
                 [SetIsUpgrading true;
                  CallUpgradePlan targetPlan.(PlanUpgradeService.planName)]
                   ++ (if truthy_promise upgradeSuccess then
                       [Toast (PlanUpgradedSuccessfully targetPlan);
                        SetVerificationResult result (Some targetPlan);
                        OnVerificationComplete
                          true message result.(MpesaVerifier.details)
                          (Some (targetPlan, verifiedAmount))]
                     else [Toast UpgradeFailed])
                 ++ [SetIsUpgrading false]
             | None => [Toast (NoPlanFound verifiedAmount)]
             end
         | _, _ => [Toast InvalidPayment]
         end
       else [Toast (VerificationFailed result.(MpesaVerifier.message))])
      ++ [SetVerificationResult result None;
          OnVerificationComplete result.(MpesaVerifier.isValid) message
                                 result.(MpesaVerifier.details) None] in
    [SetIsVerifying true] ++ body
    ++ [SetIsVerifying false; SetIsUpgrading false].

End Handler.

End MpesaVerification.

(** ** The paste listener: [handlePaste] *)

Module AutoUpgradeHandler.

Import MpesaVerification.

Inductive toast : Type :=
  | ProcessingPayment (amount : Num.number) (plan : PlanUpgradeService.SurveyPlan)
  | PlanUpgraded (plan : PlanUpgradeService.SurveyPlan)
  | UpgradeFailed
  | NoMatchingPlan (amount : Num.number).

Inductive effect : Type :=
  | Toast (t : toast)
  | CallUpgradePlan (name : string).

(** The test made before the message is looked at; it is case
    sensitive. *)
Definition looks_like_mpesa (text : string) : bool :=
  JS.includes text "M-Pesa" || JS.includes text "Ksh" || JS.includes text "Till".

(** [planData?.surveyPlans.find(plan => parseInt(plan.price) === amount)] *)
Definition plan_for (planData : option PlanData) (amount : Num.number)
  : option PlanUpgradeService.SurveyPlan :=
  match planData with
  | Some pd =>
      find (fun plan =>
              Num.eq (NumLib.parseInt plan.(PlanUpgradeService.price)) amount)
           pd.(surveyPlans)
  | None => None
  end.

Section Handler.

Variable env : MessageProcessor.Env.
(** What the awaited [upgradePlan] resolves to. *)
Variable upgradePlan : string -> bool.
Variable planData : option PlanData.

Definition handlePaste (text : string) : list effect :=
  if negb (JS.truthy text) then []
  else if looks_like_mpesa text then
    match MessageProcessor.extractPaymentInfo env text with
    | Some paymentInfo =>
        if paymentInfo.(MessageProcessor.isValid) then
          let amount := paymentInfo.(MessageProcessor.amount) in
          match plan_for planData amount with
          | Some targetPlan =>
              let upgradeSuccess :=
                upgradePlan targetPlan.(PlanUpgradeService.planName) in
              [Toast (ProcessingPayment amount targetPlan);
               CallUpgradePlan targetPlan.(PlanUpgradeService.planName);
               Toast (if upgradeSuccess then PlanUpgraded targetPlan
                      else UpgradeFailed)]
          | None => [Toast (NoMatchingPlan amount)]
          end
        else []
    | None => []
    end
  else [].

End Handler.

End AutoUpgradeHandler.

(** ** Vocabulary for the shape of extracted texts *)

Module Shape.

Import Regex.

(** Every character of [s] passes the test. *)
Fixpoint all_chars (P : ascii -> bool) (s : string) : bool :=
  match s with
  | EmptyString => true
  | String c s' => P c && all_chars P s'
  end.

(** [t] is a stretch of [s]. *)
Definition factor (t s : string) : Prop :=
  exists a b, s = a ++ t ++ b.

Definition is_comma (c : ascii) : bool := Ascii.eqb c ",".
Definition is_letter (c : ascii) : bool := JS.is_upper c || JS.is_lower c.
Definition is_alnum (c : ascii) : bool := is_letter c || JS.is_digit c.
Definition digit_or_comma (c : ascii) : bool := JS.is_digit c || is_comma c.
Definition letter_or_space (c : ascii) : bool := is_letter c || JS.is_space c.
Definition not_lower (c : ascii) : bool := negb (JS.is_lower c).

(** A run of digits and commas that is not empty, then nothing, or a dot
    and digits. *)
Definition amount_shaped (t : string) : Prop :=
  exists int dot frac,
    t = int ++ dot ++ frac
    /\ int <> EmptyString /\ all_chars digit_or_comma int = true
    /\ (dot = EmptyString \/ dot = ".")
    /\ all_chars JS.is_digit frac = true.


(** Nothing, 0 or +254, then 7 and eight digits. *)
Definition phone_shaped (t : string) : Prop :=
  exists px d,
    t = px ++ "7" ++ d
    /\ (px = EmptyString \/ px = "+254" \/ px = "0")
    /\ String.length d = 8 /\ all_chars JS.is_digit d = true.

(** The word of a literal: character by character, up to case under the
    [i] flag. *)
Fixpoint lit_word (icase : bool) (t w : string) : Prop :=
  match t, w with
  | EmptyString, EmptyString => True
  | String c t', String ch w' =>
      cmatch icase (CChar c) ch = true /\ lit_word icase t' w'
  | _, _ => False
  end.

(** The least length of a word of a pattern. *)
Fixpoint min_len (r : regex) : nat :=
  match r with
  | Eps | Eos => 0
  | Cls _ => 1
  | Rep _ _ lo _ => lo
  | Seq r1 r2 => min_len r1 + min_len r2
  | Alt r1 r2 => Nat.min (min_len r1) (min_len r2)
  | Opt _ => 0
  | Grp _ r1 => min_len r1
  end.

(** The groups every match of a pattern closes. *)
Fixpoint sure_groups (r : regex) : list nat :=
  match r with
  | Seq r1 r2 => (sure_groups r1 ++ sure_groups r2)%list
  | Grp n r1 => n :: sure_groups r1
  | _ => []
  end.

(** The decimal digits of the clock in a transaction id. *)
Definition clock_digits (env : MessageProcessor.Env) : string :=
  NilZero.string_of_uint (N.to_uint env.(MessageProcessor.date_now)).

(** The five characters drawn at random in a transaction id. *)
Definition random_suffix (env : MessageProcessor.Env) : string :=
  JS.toUpperCase (substring 2 5 env.(MessageProcessor.random_base36)).

End Shape.

Module RegexStarSem.

Import Regex RegexSem RegexStar.

(** [xsem x w rest]: the pattern [x] matches the word [w] when [rest]
    follows it; a star is a run of words of its body, none empty. *)
Inductive xsem (icase : bool) : xregex -> string -> string -> Prop :=
  | XS_base (r : regex) (w rest : string) :
      matches icase r w rest -> xsem icase (XBase r) w rest
  | XS_seq (a b : xregex) (w1 w2 rest : string) :
      xsem icase a w1 (w2 ++ rest) -> xsem icase b w2 rest ->
      xsem icase (XSeq a b) (w1 ++ w2) rest
  | XS_nil (a : xregex) (rest : string) :
      xsem icase (XStar a) EmptyString rest
  | XS_more (a : xregex) (w1 w2 rest : string) :
      w1 <> EmptyString ->
      xsem icase a w1 (w2 ++ rest) -> xsem icase (XStar a) w2 rest ->
      xsem icase (XStar a) (w1 ++ w2) rest
  | XS_grp (n : nat) (a : xregex) (w rest : string) :
      xsem icase a w rest -> xsem icase (XGrp n a) w rest.

(** What a step of a loop is asked to satisfy. *)
Definition step_sound (icase : bool) (msg : string) (x : xregex)
           (step : string -> nat -> caps -> cont -> option caps) : Prop :=
  forall s pos c k res,
    at_pos msg pos s ->
    step s pos c k = Some res ->
    exists w s' c',
      s = w ++ s' /\ xsem icase x w s'
      /\ k s' (pos + String.length w) c' = Some res.

End RegexStarSem.

Module Samples.

(** A second call of the host: another clock for [new Date()], another
    draw that starts with the same five characters. *)
Definition second_env : MessageProcessor.Env :=
  {| MessageProcessor.date_now := 1700000000000%N;
     MessageProcessor.random_base36 := "0.4fzyoq7";
     MessageProcessor.new_date := 1700000000005%N |}.

(** Every price of the list is written with digits only. *)
Definition plain_prices (plans : list PlanUpgradeService.SurveyPlan) : Prop :=
  forall p, In p plans ->
    p.(PlanUpgradeService.price) <> EmptyString
    /\ Shape.all_chars JS.is_digit p.(PlanUpgradeService.price) = true.

End Samples.

(** ** The state of the verification form *)

Module FormState.

Import MpesaVerification.

(** The three pieces of state [handleVerify] writes. *)
Record t : Type := mk {
  isVerifying : bool;
  isUpgrading : bool;
  verificationResult :
    option (MpesaVerifier.MpesaVerificationResult
            * option PlanUpgradeService.SurveyPlan)
}.

(** A setter replaces its piece of state; the other effects leave the
    state alone. *)
Definition set_state (s : t) (e : effect) : t :=
  match e with
  | SetIsVerifying b =>
      {| isVerifying := b; isUpgrading := s.(isUpgrading);
         verificationResult := s.(verificationResult) |}
  | SetIsUpgrading b =>
      {| isVerifying := s.(isVerifying); isUpgrading := b;
         verificationResult := s.(verificationResult) |}
  | SetVerificationResult r upgradedPlan =>
      {| isVerifying := s.(isVerifying); isUpgrading := s.(isUpgrading);
         verificationResult := Some (r, upgradedPlan) |}
  | _ => s
  end.

(** The state once every setter of a run has been applied. *)
Definition after (s : t) (effects : list effect) : t :=
  fold_left set_state effects s.

End FormState.

(** ** The dashboard: starting a survey, asking for a withdrawal *)

Module Dashboard.

Import PlanUpgradeService.

Module Question.
Record t : Type := mk {
  id : string;
  question : string;
  type : string;
  options : list string;
  correctAnswer : option string
}.
End Question.

(** A survey, as far as the dashboard reads it. *)
Record Survey : Type := mkSurvey {
  id : string;
  title : string;
  reward : Num.number;
  questions : option (list Question.t)
}.

(** [n || 0] on a number that may be missing. *)
Definition or_zero (n : option Num.number) : Num.number :=
  match n with
  | Some n => if NumLib.truthy n then n else Num.zero
  | None => Num.zero
  end.

(** [currentPlan?.dailySurvey || 0], the limit the dashboard shows and
    hands to the limit dialog. *)
Definition dailyLimit (currentPlan : option SurveyPlan) : Num.number :=
  or_zero (option_map dailySurvey currentPlan).

Inductive outcome : Type :=
  | NoPlanSelected
  | ShowLimitModal
  | SurveyNotAvailable
  | SurveyError
  | SetCurrentSurvey (survey : Survey).

Section Handlers.

Variable currentPlan : option SurveyPlan.
Variable surveysCompletedToday : Num.number.
Variable pendingEarnings : Num.number.
Variable surveys : list Survey.

Definition handleStartSurvey (surveyId : string) : outcome :=
  match currentPlan with
  | None => NoPlanSelected
  | Some currentPlan =>
      if Num.ge surveysCompletedToday currentPlan.(dailySurvey)
      then ShowLimitModal
      else
        match find (fun s => String.eqb s.(id) surveyId) surveys with
        | None => SurveyNotAvailable
        | Some survey =>
            match survey.(questions) with
            | None | Some [] => SurveyError
            | Some (_ :: _) => SetCurrentSurvey survey
            end
        end
  end.

(** The click on the button of a survey card. *)
Definition onClick (surveyId : string) : outcome :=
  if Num.ge surveysCompletedToday (dailyLimit currentPlan)
  then ShowLimitModal
  else handleStartSurvey surveyId.

Inductive withdrawal : Type :=
  | InsufficientBalance (missing : Num.number)
  | WithdrawalRequestSubmitted.

Definition handleWithdrawal : withdrawal :=
  let minimum := or_zero (option_map minimumWithdrawal currentPlan) in
  if Num.lt pendingEarnings minimum
  then InsufficientBalance (Num.sub minimum pendingEarnings)
  else WithdrawalRequestSubmitted.

End Handlers.

End Dashboard.

(** ** What a run of the form shows and reports *)

Module FormTrace.

Import MpesaVerification.

(** The toasts of a run, in order. *)
Definition toasts (effects : list effect) : list toast :=
  flat_map (fun e => match e with Toast t => [t] | _ => [] end) effects.



End FormTrace.

(** ** Facts on strings *)

Section StringFacts.

Lemma upper_lower_char (c : ascii) :
  JS.upper_char (JS.lower_char c) = JS.upper_char c.
Proof. destruct c as [[] [] [] [] [] [] [] []]; reflexivity. Qed.

Lemma lower_upper_char (c : ascii) :
  JS.lower_char (JS.upper_char c) = JS.lower_char c.
Proof. destruct c as [[] [] [] [] [] [] [] []]; reflexivity. Qed.

Lemma same_letter_iff (x y : ascii) :
  JS.lower_char x = JS.lower_char y <-> JS.upper_char x = JS.upper_char y.
Proof.
  split; intros H.
  - rewrite <- (upper_lower_char x), <- (upper_lower_char y), H. reflexivity.
  - rewrite <- (lower_upper_char x), <- (lower_upper_char y), H. reflexivity.
Qed.

Lemma eq_ignore_case_upper (a b : string) :
  eq_ignore_case a b <-> JS.toUpperCase a = JS.toUpperCase b.
Proof.
  revert b. induction a as [|x a IH]; intros [|y b]; simpl; try (split; [tauto | discriminate]).
  - tauto.
  - rewrite same_letter_iff, IH. split.
    + intros [-> ->]. reflexivity.
    + intros H. injection H. tauto.
Qed.

Lemma toUpperCase_app (a b : string) :
  JS.toUpperCase (a ++ b) = JS.toUpperCase a ++ JS.toUpperCase b.
Proof. induction a as [|x a IH]; simpl; [|rewrite IH]; reflexivity. Qed.

(** An upper-cased text splits where its image does. *)
Lemma toUpperCase_split (s a b : string) :
  JS.toUpperCase s = a ++ b ->
  exists x y, s = x ++ y /\ JS.toUpperCase x = a /\ JS.toUpperCase y = b.
Proof.
  revert s. induction a as [|c a IH]; intros s H.
  - exists EmptyString, s. auto.
  - destruct s as [|d s]; simpl in H; [discriminate|].
    injection H as Hc Hs. destruct (IH s Hs) as (x & y & -> & Hx & Hy).
    exists (String d x), y. simpl. rewrite Hc, Hx. auto.
Qed.

Lemma append_assoc (a b c : string) : (a ++ b) ++ c = a ++ (b ++ c).
Proof. induction a as [|x a IH]; simpl; [|rewrite IH]; reflexivity. Qed.

Lemma prefix_spec (a s : string) :
  prefix a s = true <-> exists suf, s = a ++ suf.
Proof.
  revert s. induction a as [|x a IH]; intros s.
  - destruct s; simpl; split; eauto.
  - destruct s as [|y s]; simpl.
    + split; [discriminate | intros [? ?]; discriminate].
    + destruct (ascii_dec x y) as [->|Hne].
      * rewrite IH. split; intros [suf H]; exists suf; congruence.
      * split; [discriminate | intros [suf H]; congruence].
Qed.

Lemma includes_spec (s sub : string) :
  JS.includes s sub = true <-> exists pre suf, s = pre ++ sub ++ suf.
Proof.
  induction s as [|c s IH]; cbn [JS.includes]; rewrite orb_true_iff, prefix_spec.
  - split.
    + intros [[suf H]|H]; [|discriminate]. exists EmptyString, suf. exact H.
    + intros ([|? ?] & suf & H); [left; eauto | discriminate].
  - rewrite IH. split.
    + intros [[suf H]|(pre & suf & H)].
      * exists EmptyString, suf. exact H.
      * exists (String c pre), suf. simpl. congruence.
    + intros ([|d pre] & suf & H); simpl in H.
      * left. eauto.
      * right. exists pre, suf. congruence.
Qed.

Lemma includes_trimStart (s m : string) :
  JS.starts_solid m = true -> JS.includes (JS.trimStart s) m = JS.includes s m.
Proof.
  intros Hm. induction s as [|c s IH]; [reflexivity|].
  cbn [JS.trimStart]. destruct (JS.is_space c) eqn:Hc; [|reflexivity].
  rewrite IH. cbn [JS.includes].
  destruct m as [|x m]; [discriminate|]. simpl in Hm. simpl.
  destruct (ascii_dec x c) as [->|_]; [|reflexivity].
  rewrite Hc in Hm. discriminate.
Qed.

Lemma prefix_trimEnd (m s : string) :
  JS.ends_solid m = true -> prefix m (JS.trimEnd s) = prefix m s.
Proof.
  revert m. induction s as [|c s IH]; intros m Hm; [reflexivity|].
  destruct m as [|x m]; [discriminate|].
  assert (Hnil : m = EmptyString -> JS.is_space x = false).
  { intros ->. simpl in Hm. destruct (JS.is_space x); [discriminate|reflexivity]. }
  assert (Hcons : m <> EmptyString -> prefix m (JS.trimEnd s) = prefix m s).
  { intros Hne. apply IH. destruct m; [congruence|exact Hm]. }
  cbn [JS.trimEnd]. destruct (JS.trimEnd s) as [|d t] eqn:Ht.
  - destruct (JS.is_space c) eqn:Hc.
    + simpl. destruct (ascii_dec x c) as [->|_]; [|reflexivity].
      destruct m as [|y m].
      * rewrite (Hnil eq_refl) in Hc. discriminate.
      * rewrite <- Hcons by discriminate. reflexivity.
    + simpl. destruct (ascii_dec x c) as [->|_]; [|reflexivity].
      destruct m as [|y m].
      * destruct s; reflexivity.
      * rewrite <- Hcons by discriminate. reflexivity.
  - simpl. destruct (ascii_dec x c) as [->|_]; [|reflexivity].
    destruct m as [|y m].
    + destruct s; reflexivity.
    + rewrite <- Hcons by discriminate. reflexivity.
Qed.

Lemma includes_trimEnd (s m : string) :
  JS.ends_solid m = true -> JS.includes (JS.trimEnd s) m = JS.includes s m.
Proof.
  intros Hm. induction s as [|c s IH]; [reflexivity|].
  change (JS.includes (String c s) m)
    with (prefix m (String c s) || JS.includes s m).
  rewrite <- (prefix_trimEnd m (String c s) Hm), <- IH.
  cbn [JS.trimEnd]. destruct (JS.trimEnd s) as [|d t] eqn:Ht.
  - destruct (JS.is_space c); cbn [JS.includes].
    + destruct m; [discriminate|]. reflexivity.
    + reflexivity.
  - reflexivity.
Qed.

Lemma includes_trim (s m : string) :
  JS.starts_solid m = true -> JS.ends_solid m = true ->
  JS.includes (JS.trim s) m = JS.includes s m.
Proof.
  intros Hs He. unfold JS.trim.
  rewrite includes_trimEnd, includes_trimStart by assumption. reflexivity.
Qed.

(** The test made by the verifier is containment up to case. *)
Lemma includes_upper_iff (s m : string) :
  JS.starts_solid (JS.toUpperCase m) = true ->
  JS.ends_solid (JS.toUpperCase m) = true ->
  JS.includes (JS.trim (JS.toUpperCase s)) (JS.toUpperCase m) = true
  <-> contains_ignore_case s m.
Proof.
  intros Hs He. rewrite includes_trim by assumption.
  rewrite includes_spec. unfold contains_ignore_case. split.
  - intros (pre & suf & H).
    destruct (toUpperCase_split _ _ _ H) as (x & y & -> & _ & Hy).
    destruct (toUpperCase_split _ _ _ Hy) as (mid & z & -> & Hmid & _).
    exists x, mid, z. split; [reflexivity|].
    apply eq_ignore_case_upper. exact Hmid.
  - intros (pre & mid & suf & -> & H).
    apply eq_ignore_case_upper in H.
    exists (JS.toUpperCase pre), (JS.toUpperCase suf).
    rewrite !toUpperCase_app, H. reflexivity.
Qed.

End StringFacts.

(** ** Facts on numbers *)

Module NumFacts.

Import Num.

(** Boolean tests on rationals, turned into propositions for [lra]. *)
Ltac qprop :=
  repeat match goal with
  | H : negb _ = true |- _ => apply negb_true_iff in H
  | H : negb _ = false |- _ => apply negb_false_iff in H
  | H : Qle_bool _ _ = true |- _ => apply Qle_bool_iff in H
  | H : Qle_bool _ _ = false |- _ =>
      apply not_true_iff_false in H; rewrite Qle_bool_iff in H
  | H : Qeq_bool _ _ = true |- _ => apply Qeq_bool_iff in H
  | H : Qeq_bool _ _ = false |- _ =>
      apply not_true_iff_false in H; rewrite Qeq_bool_iff in H
  | |- negb _ = true => apply negb_true_iff
  | |- negb _ = false => apply negb_false_iff
  | |- Qle_bool _ _ = true => apply Qle_bool_iff
  | |- Qle_bool _ _ = false => apply not_true_iff_false; rewrite Qle_bool_iff
  | |- Qeq_bool _ _ = true => apply Qeq_bool_iff
  | |- Qeq_bool _ _ = false => apply not_true_iff_false; rewrite Qeq_bool_iff
  end.

Ltac num_cases :=
  intros;
  repeat match goal with a : number |- _ => destruct a end;
  simpl in *; try reflexivity; try discriminate; try congruence;
  qprop; try lra.

(** The comparator [a - b] is positive exactly when [a > b]. *)
Lemma gt_sub (a b : number) : gt (sub a b) zero = gt a b.
Proof.
  destruct a, b; try reflexivity. simpl.
  apply eq_true_iff_eq. rewrite !negb_true_iff, <- !not_true_iff_false.
  rewrite !Qle_bool_iff. split; intros H; lra.
Qed.

Lemma gt_zero_is_num a : gt a zero = true -> is_num a = true.
Proof. num_cases. Qed.



Lemma lt_irrefl a : lt a a = false.
Proof. num_cases. Qed.

Lemma le_refl a : is_num a = true -> le a a = true.
Proof. unfold le. num_cases. Qed.

Lemma gt_false_le a b :
  is_num a = true -> is_num b = true -> gt a b = false -> le a b = true.
Proof. unfold gt, le. num_cases. Qed.

Lemma gt_true_le a b : gt a b = true -> le b a = true.
Proof. unfold gt, le. num_cases. Qed.

Lemma le_trans a b c : le a b = true -> le b c = true -> le a c = true.
Proof. unfold le. num_cases. Qed.

Lemma eq_ge a b : eq a b = true -> ge a b = true.
Proof. num_cases. Qed.


Lemma eq_gt_false a b c : eq a c = true -> eq b c = true -> gt a b = false.
Proof. unfold gt. num_cases. Qed.


Lemma lt_ge_false a b : lt a b = true -> ge a b = false.
Proof. num_cases. Qed.


Lemma lt_ge_trans a b c : lt a b = true -> ge c b = true -> ge c a = true.
Proof. num_cases. Qed.

Lemma lt_gt_flip a b : lt a b = true -> gt a b = false.
Proof. unfold gt. num_cases. Qed.

Lemma lt_eq_false a b : lt a b = true -> eq a b = false.
Proof. num_cases. Qed.

Lemma eq_lt_ge_le x y a b :
  eq x a = true -> lt a b = true -> ge y b = true -> le x y = true.
Proof. unfold le. num_cases. Qed.

Lemma eq_le_trans x a y : eq x a = true -> le a y = true -> le x y = true.
Proof. unfold le. num_cases. Qed.

Lemma eq_gt_zero a c : eq a c = true -> gt c zero = true -> gt a zero = true.
Proof. unfold gt. num_cases. Qed.

Lemma gt_zero_not_zero a : gt a zero = true -> eq a zero = false.
Proof. unfold gt. num_cases. Qed.

End NumFacts.

(** ** The verifier *)

Module VerifierFacts.

Import MpesaVerifier.

Lemma marker_solid :
  JS.starts_solid (JS.toUpperCase REQUIRED_MERCHANT_TEXT) = true
  /\ JS.ends_solid (JS.toUpperCase REQUIRED_MERCHANT_TEXT) = true.
Proof. split; reflexivity. Qed.

(** The test of [verifyMessage] decides containment of the marker up to
    case. *)
Lemma marker_test_iff (message : string) :
  JS.includes (JS.trim (JS.toUpperCase message))
              (JS.toUpperCase REQUIRED_MERCHANT_TEXT) = true
  <-> contains_ignore_case message REQUIRED_MERCHANT_TEXT.
Proof. apply includes_upper_iff; apply marker_solid. Qed.

Lemma empty_contains_nothing (m : string) :
  m <> EmptyString -> ~ contains_ignore_case EmptyString m.
Proof.
  intros Hm (pre & mid & suf & H & Hci).
  destruct pre; [|discriminate]. destruct mid; [|discriminate].
  destruct m; [congruence | exact Hci].
Qed.

(** The three return branches of [verifyMessage]. *)
Lemma verifyMessage_cases (message : string) :
  (contains_ignore_case message REQUIRED_MERCHANT_TEXT
   /\ verifyMessage message =
      {| isValid := true;
         message := "Payment message verified successfully";
         details := extractMessageDetails message |})
  \/ (~ contains_ignore_case message REQUIRED_MERCHANT_TEXT
      /\ isValid (verifyMessage message) = false
      /\ details (verifyMessage message) = no_details).
Proof.
  unfold verifyMessage. destruct message as [|c s].
  - right. split; [|split; reflexivity].
    apply empty_contains_nothing. discriminate.
  - cbn [JS.truthy negb].
    destruct (JS.includes _ _) eqn:Hinc; cbn [negb].
    + left. split; [apply marker_test_iff; exact Hinc | reflexivity].
    + right. split; [|split; reflexivity].
      intros H. apply marker_test_iff in H. congruence.
Qed.



(** C9. In the result of [verifyMessage] the validity flag and the
    marker flag of the details agree, whatever the message and whichever
    branch returned. *)
Theorem verifyMessage_flags_agree (message : string) :
  isValid (verifyMessage message)
  = containsRequiredText (details (verifyMessage message)).
Proof.
  unfold verifyMessage.
  destruct (negb (JS.truthy message)); [reflexivity|].
  destruct (negb (JS.includes _ _)); reflexivity.
Qed.

End VerifierFacts.

(** ** The sort *)

Module SortFacts.

Section ByKey.

Context {A : Type}.
Variable key : A -> Num.number.

Let cmp (a b : A) : Num.number := Num.sub (key a) (key b).
Let le_key (a b : A) : Prop := Num.le (key a) (key b) = true.
Let proper (a : A) : Prop := Num.is_num (key a) = true.

Lemma insert_perm (x : A) (l : list A) :
  Permutation (x :: l) (JSArray.insert cmp x l).
Proof.
  induction l as [|y l IH]; cbn [JSArray.insert]; [reflexivity|].
  destruct (Num.gt (cmp x y) Num.zero); [|reflexivity].
  rewrite perm_swap. constructor. exact IH.
Qed.

Lemma sort_perm (l : list A) : Permutation l (JSArray.sort cmp l).
Proof.
  induction l as [|x l IH]; cbn [JSArray.sort]; [constructor|].
  rewrite <- insert_perm. constructor. exact IH.
Qed.

Lemma insert_sorted (x : A) (l : list A) :
  proper x -> Forall proper l ->
  StronglySorted le_key l -> StronglySorted le_key (JSArray.insert cmp x l).
Proof.
  intros Hx Hl Hs. induction Hs as [|y l Hs IH Hy]; cbn [JSArray.insert].
  - repeat constructor.
  - inversion Hl as [|? ? Py Pl]; subst.
    unfold cmp at 1. rewrite NumFacts.gt_sub.
    destruct (Num.gt (key x) (key y)) eqn:Hgt.
    + constructor; [apply IH; exact Pl|].
      apply (Permutation_Forall (insert_perm x l)).
      constructor; [apply NumFacts.gt_true_le; exact Hgt | exact Hy].
    + assert (Hxy : le_key x y) by (apply NumFacts.gt_false_le; assumption).
      constructor; [constructor; assumption|].
      constructor; [exact Hxy|].
      eapply Forall_impl; [|exact Hy].
      intros z Hz. eapply NumFacts.le_trans; eassumption.
Qed.

Lemma sort_sorted (l : list A) :
  Forall proper l -> StronglySorted le_key (JSArray.sort cmp l).
Proof.
  induction l as [|x l IH]; intros Hl; cbn [JSArray.sort]; [constructor|].
  inversion Hl; subst. apply insert_sorted; auto.
  apply (Permutation_Forall (sort_perm l)). assumption.
Qed.

(** The sort is stable: among elements that do not compare greater than
    one another, the first of the array is still the first. *)
Lemma find_insert (P : A -> bool) (x : A) (l : list A) :
  (forall y, P x = true -> P y = true -> Num.gt (key x) (key y) = false) ->
  find P (JSArray.insert cmp x l) = find P (x :: l).
Proof.
  intros HP. induction l as [|y l IH]; [reflexivity|].
  cbn [JSArray.insert]. unfold cmp at 1. rewrite NumFacts.gt_sub.
  destruct (Num.gt (key x) (key y)) eqn:Hgt; [|reflexivity].
  cbn [find] in *. rewrite IH.
  destruct (P x) eqn:Px; [|reflexivity].
  destruct (P y) eqn:Py; [|reflexivity].
  rewrite (HP y eq_refl Py) in Hgt. discriminate.
Qed.

Lemma find_sort (P : A -> bool) (l : list A) :
  (forall x y, P x = true -> P y = true -> Num.gt (key x) (key y) = false) ->
  find P (JSArray.sort cmp l) = find P l.
Proof.
  intros HP. induction l as [|x l IH]; [reflexivity|].
  cbn [JSArray.sort]. rewrite find_insert by (intros; apply HP; assumption).
  cbn [find]. rewrite IH. reflexivity.
Qed.

End ByKey.

Section Ordered.

Context {A : Type}.
Variable R : A -> A -> Prop.

(** In a sorted list the first element that passes a test comes before
    every other one that passes it. *)
Lemma find_sorted (P : A -> bool) (l : list A) (t : A) :
  StronglySorted R l -> find P l = Some t ->
  forall u, In u l -> P u = true -> u = t \/ R t u.
Proof.
  intros Hs. induction Hs as [|x l Hs IH Hx]; intros Hf u Hu Pu; [contradiction|].
  cbn [find] in Hf. destruct (P x) eqn:Px.
  - injection Hf as <-. destruct Hu as [->|Hu]; [left; reflexivity|].
    right. rewrite Forall_forall in Hx. auto.
  - destruct Hu as [->|Hu]; [congruence|]. auto.
Qed.

Lemma last_elt_cons (x y : A) (l : list A) :
  JSArray.last_elt (x :: y :: l) = JSArray.last_elt (y :: l).
Proof. unfold JSArray.last_elt. simpl. rewrite Nat.sub_0_r. reflexivity. Qed.

Lemma last_elt_none (l : list A) : JSArray.last_elt l = None -> l = [].
Proof.
  induction l as [|x [|y l] IH]; [reflexivity|discriminate|].
  rewrite last_elt_cons. intros H. discriminate (IH H).
Qed.

(** The last element of a sorted list comes after every other one. *)
Lemma last_sorted (l : list A) (t : A) :
  StronglySorted R l -> JSArray.last_elt l = Some t ->
  In t l /\ forall u, In u l -> u = t \/ R u t.
Proof.
  intros Hs. induction Hs as [|x l Hs IH Hx]; [discriminate|].
  destruct l as [|y l].
  - intros H. injection H as <-. split; [left; reflexivity|].
    intros u [->|[]]. left. reflexivity.
  - rewrite last_elt_cons. intros H. destruct (IH H) as [Ht Hmax].
    split; [right; exact Ht|].
    intros u [->|Hu]; [|auto].
    right. rewrite Forall_forall in Hx. auto.
Qed.

End Ordered.

End SortFacts.

(** ** The plan service *)

Module PlanFacts.

Import PlanUpgradeService.

(** The value returned, with the console left out. *)
Lemma getPlanByAmount_eq (amount : Num.number) (plans : list SurveyPlan) :
  getPlanByAmount amount plans =
  match find (fun plan => Num.eq (priceOf plan) amount) (paidPlans plans) with
  | Some t => Some t
  | None =>
      match find (fun plan => Num.ge (priceOf plan) amount) (paidPlans plans) with
      | Some t => Some t
      | None => JSArray.last_elt (paidPlans plans)
      end
  end.
Proof.
  unfold getPlanByAmount, getPlanByAmountM. fold (paidPlans plans).
  cbn [bind ret Monad_ident unIdent]. unfold priceOf.
  destruct (find _ (paidPlans plans)); [reflexivity|].
  destruct (find _ (paidPlans plans)); [reflexivity|].
  destruct (paidPlans plans) as [|x l]; [reflexivity|].
  cbn [length Nat.ltb Nat.leb].
  destruct (JSArray.last_elt (x :: l)); reflexivity.
Qed.

Lemma paidPlans_in (plans : list SurveyPlan) (t : SurveyPlan) :
  In t (paidPlans plans) <-> paid_in plans t.
Proof.
  unfold paidPlans, paid_in. split; intros H.
  - apply (Permutation_in _ (Permutation_sym (SortFacts.sort_perm priceOf _))) in H.
    apply filter_In in H. exact H.
  - apply (Permutation_in _ (SortFacts.sort_perm priceOf _)).
    apply filter_In. exact H.
Qed.

Lemma paidPlans_ascending (plans : list SurveyPlan) : ascending (paidPlans plans).
Proof.
  apply (SortFacts.sort_sorted priceOf). apply Forall_forall.
  intros t Ht. apply filter_In in Ht.
  apply NumFacts.gt_zero_is_num. exact (proj2 Ht).
Qed.

Lemma paid_is_num (plans : list SurveyPlan) (t : SurveyPlan) :
  paid_in plans t -> Num.is_num (priceOf t) = true.
Proof. intros [_ H]. apply NumFacts.gt_zero_is_num. exact H. Qed.

Lemma getPlanByAmount_some (amount : Num.number) (plans : list SurveyPlan)
      (t : SurveyPlan) :
  getPlanByAmount amount plans = Some t ->
  paid_in plans t /\ chosen amount plans t.
Proof.
  rewrite getPlanByAmount_eq. pose proof (paidPlans_ascending plans) as Hs.
  destruct (find (fun plan => Num.eq _ _) _) as [e|] eqn:Hexact.
  - intros H. injection H as Het. subst t. apply find_some in Hexact.
    split; [apply paidPlans_in; tauto | apply Exact; tauto].
  - assert (Hne : forall u, paid_in plans u -> Num.eq (priceOf u) amount = false).
    { intros u Hu. apply paidPlans_in in Hu.
      exact (find_none _ _ Hexact u Hu). }
    destruct (find (fun plan => Num.ge _ _) _) as [h|] eqn:Hhigher.
    + intros H. injection H as Het. subst t.
      pose proof (find_some _ _ Hhigher) as [Hin Hge].
      apply paidPlans_in in Hin. split; [exact Hin|].
      apply Higher; [exact Hne | exact Hge |].
      intros u Hu Hu_ge.
      destruct (SortFacts.find_sorted _ _ _ _ Hs Hhigher u) as [->|Hle]; auto.
      * apply paidPlans_in. exact Hu.
      * apply NumFacts.le_refl. eapply paid_is_num. exact Hin.
    + intros Hlast.
      destruct (SortFacts.last_sorted _ _ _ Hs Hlast) as [Hin Hmax].
      apply paidPlans_in in Hin. split; [exact Hin|].
      apply Highest.
      * intros u Hu. apply paidPlans_in in Hu.
        exact (find_none _ _ Hhigher u Hu).
      * intros u Hu. destruct (Hmax u) as [->|Hle]; auto.
        -- apply paidPlans_in. exact Hu.
        -- apply NumFacts.le_refl. eapply paid_is_num. exact Hin.
Qed.

Lemma getPlanByAmount_none (amount : Num.number) (plans : list SurveyPlan) :
  getPlanByAmount amount plans = None <-> forall t, ~ paid_in plans t.
Proof.
  rewrite getPlanByAmount_eq. split.
  - destruct (find _ (paidPlans plans)); [discriminate|].
    destruct (find _ (paidPlans plans)); [discriminate|].
    intros H t Ht. apply SortFacts.last_elt_none in H.
    apply paidPlans_in in Ht. rewrite H in Ht. exact Ht.
  - intros H. destruct (paidPlans plans) as [|x l] eqn:Hp; [reflexivity|].
    exfalso. apply (H x). apply paidPlans_in. rewrite Hp. left. reflexivity.
Qed.

Lemma find_filter {A : Type} (P Q : A -> bool) (l : list A) :
  (forall x, P x = true -> Q x = true) ->
  find P (filter Q l) = find P l.
Proof.
  intros HPQ. induction l as [|x l IH]; [reflexivity|].
  cbn [filter find]. destruct (Q x) eqn:Qx; cbn [find]; rewrite IH.
  - reflexivity.
  - destruct (P x) eqn:Px; [|reflexivity].
    rewrite (HPQ x Px) in Qx. discriminate.
Qed.

(** An exact match is looked up in the order the tiers were given: the
    sort does not reorder tiers of one price. *)
Lemma exact_match_first (amount : Num.number) (plans : list SurveyPlan) :
  Num.gt amount Num.zero = true ->
  find (fun plan => Num.eq (priceOf plan) amount) (paidPlans plans)
  = find (fun plan => Num.eq (priceOf plan) amount) plans.
Proof.
  intros Hpos. unfold paidPlans.
  rewrite (SortFacts.find_sort priceOf).
  - apply find_filter. intros x Hx. eapply NumFacts.eq_gt_zero; eassumption.
  - intros x y Hx Hy. eapply NumFacts.eq_gt_false; eassumption.
Qed.

(** An amount above every paid price is answered by the last paid tier. *)
Lemma above_all_last (amount : Num.number) (plans : list SurveyPlan) :
  (forall u, paid_in plans u -> Num.lt (priceOf u) amount = true) ->
  getPlanByAmount amount plans = JSArray.last_elt (paidPlans plans).
Proof.
  intros Habove. rewrite getPlanByAmount_eq.
  destruct (find (fun plan => Num.eq _ _) _) as [e|] eqn:He.
  - apply find_some in He. destruct He as [Hin He].
    apply paidPlans_in, Habove, NumFacts.lt_eq_false in Hin. congruence.
  - destruct (find (fun plan => Num.ge _ _) _) as [h|] eqn:Hh; [|reflexivity].
    apply find_some in Hh. destruct Hh as [Hin Hh].
    apply paidPlans_in, Habove, NumFacts.lt_ge_false in Hin. congruence.
Qed.

(** C2. [getPlanByAmount] works on the tiers with a price above zero,
    sorted by ascending price.  It returns absent exactly when no tier
    has a positive price.  Otherwise it returns a paid tier: one priced
    exactly [amount] when there is one; failing that, when some paid tier
    costs at least [amount], the first such tier of the ascending order,
    that is one of least price among them; failing that, the paid tier of
    highest price. *)
Theorem getPlanByAmount_resolves (amount : Num.number) (plans : list SurveyPlan) :
  Permutation (filter is_paid plans) (paidPlans plans)
  /\ ascending (paidPlans plans)
  /\ getPlanByAmount amount plans =
     match find (fun plan => Num.eq (priceOf plan) amount) (paidPlans plans) with
     | Some t => Some t
     | None =>
         match find (fun plan => Num.ge (priceOf plan) amount) (paidPlans plans) with
         | Some t => Some t
         | None => JSArray.last_elt (paidPlans plans)
         end
     end
  /\ (getPlanByAmount amount plans = None <-> forall t, ~ paid_in plans t)
  /\ (forall t, getPlanByAmount amount plans = Some t ->
      paid_in plans t
      /\ ((exists u, paid_in plans u /\ Num.eq (priceOf u) amount = true) ->
          Num.eq (priceOf t) amount = true)
      /\ ((forall u, paid_in plans u -> Num.eq (priceOf u) amount = false) ->
          (exists u, paid_in plans u /\ Num.ge (priceOf u) amount = true) ->
          Num.ge (priceOf t) amount = true
          /\ forall u, paid_in plans u -> Num.ge (priceOf u) amount = true ->
                       Num.le (priceOf t) (priceOf u) = true)
      /\ ((forall u, paid_in plans u -> Num.ge (priceOf u) amount = false) ->
          forall u, paid_in plans u -> Num.le (priceOf u) (priceOf t) = true)).
Proof.
  split; [apply (SortFacts.sort_perm priceOf)|].
  split; [apply paidPlans_ascending|].
  split; [apply getPlanByAmount_eq|].
  split; [apply getPlanByAmount_none|].
  intros t Ht. destruct (getPlanByAmount_some _ _ _ Ht) as [Hpaid Hc].
  split; [exact Hpaid|]. split; [|split].
  - intros (u & Hu & Heq). destruct Hc as [He|Hne _ _|Hlow _]; [exact He| |].
    + rewrite (Hne u Hu) in Heq. discriminate.
    + apply NumFacts.eq_ge in Heq. rewrite (Hlow u Hu) in Heq. discriminate.
  - intros Hne (u & Hu & Hge). destruct Hc as [He|_ Hge' Hmin|Hlow _].
    + rewrite (Hne t Hpaid) in He. discriminate.
    + split; assumption.
    + rewrite (Hlow u Hu) in Hge. discriminate.
  - intros Hlow. destruct Hc as [He|_ Hge _|_ Hmax].
    + apply NumFacts.eq_ge in He. rewrite (Hlow t Hpaid) in He. discriminate.
    + rewrite (Hlow t Hpaid) in Hge. discriminate.
    + exact Hmax.
Qed.

(** C6. [getPlanByAmount] is monotone: for [a1 < a2], both amounts
    resolve to a tier as soon as one tier is paid, and the tier resolved
    for [a1] costs no more than the tier resolved for [a2].  When [a2] is
    above every paid price the tier resolved for it is the top tier, and
    when [a1] is above every paid price too both amounts resolve to that
    same tier. *)
Theorem getPlanByAmount_monotone (plans : list SurveyPlan) (a1 a2 : Num.number) :
  Num.lt a1 a2 = true ->
  match getPlanByAmount a1 plans, getPlanByAmount a2 plans with
  | Some t1, Some t2 =>
      Num.le (priceOf t1) (priceOf t2) = true
      /\ ((forall u, paid_in plans u -> Num.lt (priceOf u) a2 = true) ->
          (forall u, paid_in plans u -> Num.le (priceOf u) (priceOf t2) = true)
          /\ ((forall u, paid_in plans u -> Num.lt (priceOf u) a1 = true) ->
              t1 = t2))
  | None, None => forall t, ~ paid_in plans t
  | _, _ => False
  end.
Proof.
  intros Hlt.
  destruct (getPlanByAmount a1 plans) as [t1|] eqn:H1;
    destruct (getPlanByAmount a2 plans) as [t2|] eqn:H2.
  2:{ destruct (getPlanByAmount_some _ _ _ H1) as [P1 _].
      exact (proj1 (getPlanByAmount_none _ _) H2 t1 P1). }
  2:{ destruct (getPlanByAmount_some _ _ _ H2) as [P2 _].
      exact (proj1 (getPlanByAmount_none _ _) H1 t2 P2). }
  2:{ exact (proj1 (getPlanByAmount_none _ _) H1). }
  destruct (getPlanByAmount_some _ _ _ H1) as [P1 C1].
  destruct (getPlanByAmount_some _ _ _ H2) as [P2 C2].
  assert (Hle : Num.le (priceOf t1) (priceOf t2) = true).
  { assert (Hup : Num.ge (priceOf t2) a2 = true ->
                  Num.le (priceOf t1) (priceOf t2) = true).
    { intros Hge2.
      pose proof (NumFacts.lt_ge_trans _ _ _ Hlt Hge2) as Hge1.
      destruct C1 as [He|_ _ Hmin|Hlow _].
      - eapply NumFacts.eq_lt_ge_le; eassumption.
      - apply Hmin; assumption.
      - rewrite (Hlow t2 P2) in Hge1. discriminate. }
    destruct C2 as [He|_ Hge _|_ Hmax].
    - apply Hup, NumFacts.eq_ge, He.
    - apply Hup, Hge.
    - apply Hmax, P1. }
  split; [exact Hle|]. intros Habove2. split.
  - destruct C2 as [He|_ Hge _|_ Hmax]; [| |exact Hmax].
    + rewrite (NumFacts.lt_eq_false _ _ (Habove2 t2 P2)) in He. discriminate.
    + rewrite (NumFacts.lt_ge_false _ _ (Habove2 t2 P2)) in Hge. discriminate.
  - intros Habove1.
    rewrite (above_all_last _ _ Habove1) in H1.
    rewrite (above_all_last _ _ Habove2) in H2. congruence.
Qed.

(** C10. As soon as one tier has a price above zero, [getPlanByAmount]
    answers with a tier, whatever the amount (zero, negative or not a
    number), and that tier is a paid one, never a free one; for an amount
    at or below every paid price, it is a paid tier of lowest price. *)
Theorem getPlanByAmount_paid (plans : list SurveyPlan) (amount : Num.number) :
  (exists p, paid_in plans p) ->
  exists t,
    getPlanByAmount amount plans = Some t
    /\ paid_in plans t
    /\ Num.eq (priceOf t) Num.zero = false
    /\ ((forall u, paid_in plans u -> Num.le amount (priceOf u) = true) ->
        forall u, paid_in plans u -> Num.le (priceOf t) (priceOf u) = true).
Proof.
  intros [p Hp].
  destruct (getPlanByAmount amount plans) as [t|] eqn:Ht.
  2:{ exfalso. exact (proj1 (getPlanByAmount_none _ _) Ht p Hp). }
  destruct (getPlanByAmount_some _ _ _ Ht) as [Hpaid Hc].
  exists t. split; [reflexivity|]. split; [exact Hpaid|].
  split; [apply NumFacts.gt_zero_not_zero; exact (proj2 Hpaid)|].
  intros Hlow u Hu. destruct Hc as [He|_ _ Hmin|Hnone _].
  - eapply NumFacts.eq_le_trans; [exact He | apply Hlow, Hu].
  - apply Hmin; [exact Hu | apply Hlow, Hu].
  - pose proof (Hlow p Hp) as Hge. unfold Num.le in Hge.
    rewrite (Hnone p Hp) in Hge. discriminate.
Qed.

Lemma getPlanByAmount_resolves_witness :
  getPlanByAmount (Num.of_Z 300) sample_tiers = Some gold
  /\ paid_in sample_tiers gold
  /\ Num.ge (priceOf gold) (Num.of_Z 300) = true.
Proof.
  pose proof (getPlanByAmount_resolves (Num.of_Z 300) sample_tiers)
    as (_ & _ & _ & _ & H).
  assert (Hr : getPlanByAmount (Num.of_Z 300) sample_tiers = Some gold)
    by (vm_compute; reflexivity).
  destruct (H gold Hr) as (Hpaid & _ & Hhigher & _).
  split; [exact Hr|]. split; [exact Hpaid|].
  apply Hhigher.
  - intros u [Hin _]. simpl in Hin.
    destruct Hin as [<-|[<-|[<-|[<-|[]]]]]; vm_compute; reflexivity.
  - exists gold. split; [exact Hpaid | vm_compute; reflexivity].
Defined.

Lemma getPlanByAmount_monotone_witness :
  Num.le (priceOf gold) (priceOf platinum) = true
  /\ ((forall u, paid_in sample_tiers u ->
                 Num.lt (priceOf u) (Num.of_Z 5000) = true) ->
      (forall u, paid_in sample_tiers u ->
                 Num.le (priceOf u) (priceOf platinum) = true)
      /\ ((forall u, paid_in sample_tiers u ->
                     Num.lt (priceOf u) (Num.of_Z 300) = true) ->
          gold = platinum)).
Proof.
  assert (Hlt : Num.lt (Num.of_Z 300) (Num.of_Z 5000) = true) by reflexivity.
  exact (getPlanByAmount_monotone sample_tiers (Num.of_Z 300) (Num.of_Z 5000) Hlt).
Defined.

(** The two resolutions of the configuration: 300 goes to the 500 tier,
    5000 to the 1000 tier. *)
Example resolve_300_5000 :
  getPlanByAmount (Num.of_Z 300) sample_tiers = Some gold
  /\ getPlanByAmount (Num.of_Z 5000) sample_tiers = Some platinum.
Proof. split; vm_compute; reflexivity. Qed.

Lemma getPlanByAmount_paid_witness :
  exists t,
    getPlanByAmount (Num.of_Z (-5)) sample_tiers = Some t
    /\ paid_in sample_tiers t
    /\ Num.eq (priceOf t) Num.zero = false
    /\ ((forall u, paid_in sample_tiers u ->
                   Num.le (Num.of_Z (-5)) (priceOf u) = true) ->
        forall u, paid_in sample_tiers u ->
                  Num.le (priceOf t) (priceOf u) = true).
Proof.
  apply (getPlanByAmount_paid sample_tiers (Num.of_Z (-5))).
  exists silver. split; [simpl; tauto | vm_compute; reflexivity].
Defined.

(** *** Validation of a transition *)

Lemma plan_named_some (plans : list SurveyPlan) (X : string) :
  (exists t, In t plans /\ planName t = X) ->
  exists t, plan_named plans X = Some t.
Proof.
  intros (t & Hin & Hname). unfold plan_named.
  destruct (find _ plans) as [t'|] eqn:Hf; [eauto|].
  apply (find_none _ _ Hf) in Hin. cbv beta in Hin.
  rewrite Hname, String.eqb_refl in Hin. discriminate.
Qed.

Lemma plan_named_none (plans : list SurveyPlan) (X : string) :
  (forall t, In t plans -> planName t <> X) -> plan_named plans X = None.
Proof.
  intros Hno. unfold plan_named.
  destruct (find _ plans) as [t|] eqn:Hf; [|reflexivity].
  apply find_some in Hf. destruct Hf as [Hin Hname].
  apply String.eqb_eq in Hname. destruct (Hno t Hin Hname).
Qed.

(** The verdict, from the two lookups. *)
Lemma validateUpgrade_eq (cur tgt : string) (plans : list SurveyPlan) :
  validateUpgrade cur tgt plans =
  match plan_named plans cur, plan_named plans tgt with
  | Some c, Some t =>
      if Num.gt (priceOf c) (priceOf t) then downgrade_refused
      else upgrade_accepted
  | _, _ => unknown_plan
  end.
Proof. reflexivity. Qed.

(** The claim C4 as it is worded, for every name and every sequence of
    tiers, fails on a name that is not the name of a tier. *)
Lemma validateUpgrade_same_unknown :
  ~ (forall (X : string) (plans : list SurveyPlan),
        Validation.isValid (validateUpgrade X X plans) = true).
Proof. intros H. specialize (H "Gold" []). discriminate H. Qed.

(** C4, amended. For every sequence of tiers and every name [X] of one
    of its tiers, the transition from [X] to [X] is accepted; a name that
    is the name of no tier is refused as an invalid selection. *)
Theorem validateUpgrade_same (X : string) (plans : list SurveyPlan) :
  ((exists t, In t plans /\ planName t = X) ->
   validateUpgrade X X plans = upgrade_accepted)
  /\ ((forall t, In t plans -> planName t <> X) ->
      validateUpgrade X X plans = unknown_plan).
Proof.
  rewrite validateUpgrade_eq. split; intros H.
  - destruct (plan_named_some _ _ H) as [t ->].
    unfold Num.gt. rewrite NumFacts.lt_irrefl. reflexivity.
  - rewrite (plan_named_none _ _ H). reflexivity.
Qed.

Lemma validateUpgrade_same_witness :
  validateUpgrade "Gold" "Gold" sample_tiers = upgrade_accepted
  /\ validateUpgrade "Diamond" "Diamond" sample_tiers = unknown_plan.
Proof.
  split.
  - apply (proj1 (validateUpgrade_same "Gold" sample_tiers)).
    exists gold. split; [simpl; tauto | reflexivity].
  - apply (proj2 (validateUpgrade_same "Diamond" sample_tiers)).
    intros t Hin. simpl in Hin.
    destruct Hin as [<-|[<-|[<-|[<-|[]]]]]; discriminate.
Defined.

(** C7. When both names resolve to tiers, the transition is refused
    with "Cannot downgrade to a lower plan" exactly when the price of the
    target is strictly below the price of the current tier, and accepted
    otherwise; so from a cheaper tier to a dearer one it is accepted, and
    with the two names exchanged it is refused as a downgrade.  The
    verdict is all that [validateUpgrade] produces: it changes nothing. *)
Theorem validateUpgrade_downgrade (plans : list SurveyPlan)
        (cur tgt : string) (c t : SurveyPlan) :
  plan_named plans cur = Some c ->
  plan_named plans tgt = Some t ->
  (validateUpgrade cur tgt plans = downgrade_refused
   <-> Num.lt (priceOf t) (priceOf c) = true)
  /\ (Num.lt (priceOf t) (priceOf c) = false ->
      validateUpgrade cur tgt plans = upgrade_accepted)
  /\ (Num.lt (priceOf c) (priceOf t) = true ->
      validateUpgrade cur tgt plans = upgrade_accepted
      /\ validateUpgrade tgt cur plans = downgrade_refused).
Proof.
  intros Hc Ht. rewrite !validateUpgrade_eq, Hc, Ht. unfold Num.gt.
  split; [|split].
  - destruct (Num.lt (priceOf t) (priceOf c)); split; intros H;
      try reflexivity; discriminate.
  - intros ->. reflexivity.
  - intros H. rewrite H.
    pose proof (NumFacts.lt_gt_flip _ _ H) as Hflip. unfold Num.gt in Hflip.
    rewrite Hflip. split; reflexivity.
Qed.

Lemma validateUpgrade_downgrade_witness :
  (validateUpgrade "Silver" "Gold" sample_tiers = downgrade_refused
   <-> Num.lt (priceOf gold) (priceOf silver) = true)
  /\ (Num.lt (priceOf gold) (priceOf silver) = false ->
      validateUpgrade "Silver" "Gold" sample_tiers = upgrade_accepted)
  /\ (Num.lt (priceOf silver) (priceOf gold) = true ->
      validateUpgrade "Silver" "Gold" sample_tiers = upgrade_accepted
      /\ validateUpgrade "Gold" "Silver" sample_tiers = downgrade_refused).
Proof.
  apply (validateUpgrade_downgrade sample_tiers "Silver" "Gold" silver gold);
    reflexivity.
Defined.

(** *** The orchestration *)

(** C8. Whatever the input and whatever the console does, a failure
    raised inside [processPlanUpgrade] is caught and turned into the
    failure result "Failed to process plan upgrade"; the promise always
    resolves to a result and never rejects. *)
Theorem processPlanUpgrade_never_throws
        (console_log : list logarg -> sum error unit)
        (userId : string) (verifiedAmount : Num.number)
        (availablePlans : list SurveyPlan) :
  exists r,
    processPlanUpgrade console_log userId verifiedAmount availablePlans = inr r
    /\ (forall e,
         upgrade_body console_log userId verifiedAmount availablePlans = inl e ->
         r = failure "Failed to process plan upgrade")
    /\ (forall r',
         upgrade_body console_log userId verifiedAmount availablePlans = inr r' ->
         r = r').
Proof.
  unfold processPlanUpgrade.
  destruct (upgrade_body console_log userId verifiedAmount availablePlans)
    as [e|r'] eqn:Hbody; cbn [catch Exception_either ret Monad_either].
  - exists (failure "Failed to process plan upgrade").
    split; [reflexivity|]. split; [reflexivity | discriminate].
  - exists r'. split; [reflexivity|]. split; [discriminate|].
    intros r'' H. injection H as H. exact H.
Qed.

Lemma processPlanUpgrade_never_throws_witness :
  processPlanUpgrade (fun _ => inl "console closed") "u1" (Num.of_Z 300)
                     sample_tiers
  = inr (failure "Failed to process plan upgrade").
Proof.
  destruct (processPlanUpgrade_never_throws
              (fun _ => inl "console closed") "u1" (Num.of_Z 300) sample_tiers)
    as (r & Hr & Hcatch & _).
  rewrite Hr, (Hcatch "console closed"); reflexivity.
Defined.

End PlanFacts.

(** ** The message processor *)

Module ProcessorFacts.

Import Regex MessageProcessor.

Section Loop.

Variable env : Env.
Variable msg : string.

(** The loop returns absent exactly when no template of the list
    captures the expected till number. *)
Lemma try_patterns_none (ps : list regex) :
  try_patterns env msg ps = None
  <-> forall p, In p ps -> ~ captures_till p msg correctTillNumber.
Proof.
  induction ps as [|p ps IH]; cbn [try_patterns].
  - split; [intros _ p [] | reflexivity].
  - destruct (exec true p msg) as [m|] eqn:Hm.
    + destruct (cap 2 m) as [t|] eqn:Ht.
      * destruct (String.eqb t correctTillNumber) eqn:Hq.
        -- split; [discriminate|]. intros H. exfalso.
           apply (H p (or_introl eq_refl)). exists m.
           apply String.eqb_eq in Hq. subst t. auto.
        -- rewrite IH. split; intros H q.
           ++ intros [<-|Hq']; [|auto]. intros (m' & Hm' & Ht').
              rewrite Hm in Hm'. injection Hm' as <-.
              rewrite Ht in Ht'. injection Ht' as ->.
              rewrite String.eqb_refl in Hq. discriminate.
           ++ intros Hq'. apply H. right. exact Hq'.
      * rewrite IH. split; intros H q.
        -- intros [<-|Hq']; [|auto]. intros (m' & Hm' & Ht').
           rewrite Hm in Hm'. injection Hm' as <-. congruence.
        -- intros Hq'. apply H. right. exact Hq'.
    + rewrite IH. split; intros H q.
      * intros [<-|Hq']; [|auto]. intros (m' & Hm' & _). congruence.
      * intros Hq'. apply H. right. exact Hq'.
Qed.

(** The first template of the list to capture the expected till number
    gives the result; what comes after it in the list plays no part. *)
Lemma try_patterns_first (before after : list regex) (p : regex) (m : caps) :
  (forall q, In q before -> ~ captures_till q msg correctTillNumber) ->
  exec true p msg = Some m ->
  cap 2 m = Some correctTillNumber ->
  try_patterns env msg (before ++ p :: after)%list = Some (info_of env msg m).
Proof.
  intros Hbefore Hm Ht. induction before as [|q before IH]; cbn [app try_patterns].
  - rewrite Hm, Ht, String.eqb_refl. reflexivity.
  - assert (Hskip : forall q', In q' before ->
                               ~ captures_till q' msg correctTillNumber)
      by (intros q' Hq'; apply Hbefore; right; exact Hq').
    assert (Hq : ~ captures_till q msg correctTillNumber)
      by (apply Hbefore; left; reflexivity).
    destruct (exec true q msg) as [mq|] eqn:Hmq; [|auto].
    destruct (cap 2 mq) as [t|] eqn:Htq; [|auto].
    destruct (String.eqb t correctTillNumber) eqn:Heq; [|auto].
    apply String.eqb_eq in Heq. subst t.
    exfalso. apply Hq. exists mq. auto.
Qed.

End Loop.


Lemma extractPaymentInfo_eq (env : Env) (msg : string) :
  extractPaymentInfo env msg = try_patterns env msg patterns.
Proof.
  unfold extractPaymentInfo. destruct msg as [|c s]; [|reflexivity].
  vm_compute. reflexivity.
Qed.

(** The claim C1 as it is worded fails: in a message where the first
    template to match textually (template 2) captures another till
    number, a later template (template 4) that captures the expected
    till number is still tried, and the extraction succeeds. *)
Lemma extractPaymentInfo_tries_later_templates :
  ~ (forall (env : Env) (msg : string) (p : regex) (m : caps),
        first_match msg patterns = Some (p, m) ->
        cap 2 m <> Some correctTillNumber ->
        extractPaymentInfo env msg = None).
Proof.
  intros H.
  specialize (H sample_env two_confirmations pattern2
                [(0, "Ksh500 paid to 1234567"); (2, "1234567"); (1, "500")]).
  assert (Hfirst : first_match two_confirmations patterns
                   = Some (pattern2,
                           [(0, "Ksh500 paid to 1234567"); (2, "1234567");
                            (1, "500")]))
    by (vm_compute; reflexivity).
  specialize (H Hfirst). vm_compute in H.
  specialize (H ltac:(discriminate)). discriminate H.
Qed.

(** C1, amended. [extractPaymentInfo] tries the four templates in their
    fixed order.  A template that does not match, or whose match captures
    a till number other than "3566188", is passed over and the next one is
    tried; the first template whose match captures "3566188" gives the
    result (the amount it captured, rounded) and the templates after it
    are not tried.  The extraction returns absent exactly when no template
    captures "3566188": a textual match is needed but is not enough.  So
    "Ksh500 paid to 3566188" gives the amount 500, and the same text with
    another till number gives absent. *)
Theorem extractPaymentInfo_first_expected_till (env : Env) (msg : string) :
  (extractPaymentInfo env msg = None
   <-> forall p, In p patterns -> ~ captures_till p msg correctTillNumber)
  /\ (forall before p after m,
        patterns = (before ++ p :: after)%list ->
        (forall q, In q before -> ~ captures_till q msg correctTillNumber) ->
        exec true p msg = Some m ->
        cap 2 m = Some correctTillNumber ->
        extractPaymentInfo env msg = Some (info_of env msg m))
  /\ option_map amount (extractPaymentInfo env "Ksh500 paid to 3566188")
     = Some (Num.of_Z 500)
  /\ (captures_till pattern2 "Ksh500 paid to 1234567" "1234567"
      /\ extractPaymentInfo env "Ksh500 paid to 1234567" = None).
Proof.
  split; [|split; [|split; [|split]]].
  - rewrite extractPaymentInfo_eq. apply try_patterns_none.
  - intros before p after m Hsplit Hbefore Hm Ht.
    rewrite extractPaymentInfo_eq, Hsplit.
    apply try_patterns_first; assumption.
  - vm_compute. reflexivity.
  - exists [(0, "Ksh500 paid to 1234567"); (2, "1234567"); (1, "500")].
    split; vm_compute; reflexivity.
  - vm_compute. reflexivity.
Qed.

Lemma extractPaymentInfo_first_expected_till_witness :
  extractPaymentInfo sample_env two_confirmations
  = Some (info_of sample_env two_confirmations
                  [(0, "Ksh500 has been sent to 3566188"); (2, "3566188");
                   (1, "500")]).
Proof.
  apply (proj1 (proj2 (extractPaymentInfo_first_expected_till
                         sample_env two_confirmations))
               [pattern1; pattern2; pattern3] pattern4 []).
  - reflexivity.
  - intros q Hq (m & Hm & Ht). simpl in Hq.
    destruct Hq as [<-|[<-|[<-|[]]]]; vm_compute in Hm;
      try discriminate Hm.
    injection Hm as <-. vm_compute in Ht. discriminate Ht.
  - vm_compute. reflexivity.
  - vm_compute. reflexivity.
Defined.

End ProcessorFacts.

(** ** The scenario of a 250 shilling payment *)

Module ScenarioFacts.

Import MpesaVerifier.

Lemma contains_after_head (head rest m : string) :
  contains_ignore_case rest m -> contains_ignore_case (head ++ rest) m.
Proof.
  intros (pre & mid & suf & -> & H).
  exists (head ++ pre), mid, suf. split; [|exact H].
  symmetry. apply append_assoc.
Qed.

(** The amount pattern finds its match inside the confirmation, whatever
    text follows. *)
Lemma scenario_amount (rest : string) :
  amount (extractMessageDetails (scenario_head ++ rest)) = Some "250.00".
Proof. vm_compute. reflexivity. Qed.

(** The claim C5 as it is worded fails on the amount: the field holds the
    numeric token as it is written in the message, decimals included. *)
Lemma scenario_amount_keeps_decimals :
  ~ (isValid (verifyMessage scenario_message) = true
     /\ amount (details (verifyMessage scenario_message)) = Some "250").
Proof. vm_compute. intros [_ H]. discriminate H. Qed.

(** C5, amended. For the message "Confirmed. Ksh250.00 sent to Till
    Number 3566188 on 1/1/24 " followed by any text that holds the
    merchant marker, [verifyMessage] returns [isValid = true] and the
    extracted amount is the text "250.00", which reads as the number 250;
    and [getPlanByAmount] at 250 returns a tier priced exactly 250 when
    there is one, the first one listed. *)
Theorem scenario_250 (rest : string) (tiers : list PlanUpgradeService.SurveyPlan) :
  contains_ignore_case rest REQUIRED_MERCHANT_TEXT ->
  (isValid (verifyMessage (scenario_head ++ rest)) = true
   /\ amount (details (verifyMessage (scenario_head ++ rest))) = Some "250.00"
   /\ Num.parseFloat "250.00" = Num.of_Z 250)
  /\ ((exists u, In u tiers /\ Num.eq (priceOf u) (Num.of_Z 250) = true) ->
      exists t,
        PlanUpgradeService.getPlanByAmount (Num.of_Z 250) tiers = Some t
        /\ In t tiers
        /\ Num.eq (priceOf t) (Num.of_Z 250) = true
        /\ find (fun p => Num.eq (priceOf p) (Num.of_Z 250)) tiers = Some t).
Proof.
  intros Hmarker. split.
  - apply (contains_after_head scenario_head) in Hmarker.
    destruct (VerifierFacts.verifyMessage_cases (scenario_head ++ rest))
      as [[_ Hr]|[Hno _]]; [|contradiction].
    rewrite Hr. cbn [isValid details].
    split; [reflexivity|]. split; [|vm_compute; reflexivity].
    apply scenario_amount.
  - intros (u & Hu & Hprice).
    destruct (find (fun p => Num.eq (priceOf p) (Num.of_Z 250)) tiers)
      as [t|] eqn:Hfind.
    2:{ rewrite (find_none _ _ Hfind u Hu) in Hprice. discriminate. }
    exists t. pose proof (find_some _ _ Hfind) as [Hin Ht].
    split; [|auto].
    rewrite PlanFacts.getPlanByAmount_eq, PlanFacts.exact_match_first, Hfind
      by reflexivity.
    reflexivity.
Qed.

Lemma scenario_250_witness :
  (isValid (verifyMessage scenario_message) = true
   /\ amount (details (verifyMessage scenario_message)) = Some "250.00"
   /\ Num.parseFloat "250.00" = Num.of_Z 250)
  /\ ((exists u, In u sample_tiers /\ Num.eq (priceOf u) (Num.of_Z 250) = true) ->
      exists t,
        PlanUpgradeService.getPlanByAmount (Num.of_Z 250) sample_tiers = Some t
        /\ In t sample_tiers
        /\ Num.eq (priceOf t) (Num.of_Z 250) = true
        /\ find (fun p => Num.eq (priceOf p) (Num.of_Z 250)) sample_tiers = Some t).
Proof.
  apply (scenario_250 "... VEDACOM 4 SOLUTIONS" sample_tiers).
  exists "... ", "VEDACOM 4 SOLUTIONS", EmptyString.
  split; [reflexivity | vm_compute; tauto].
Defined.

End ScenarioFacts.

(** * Facts on the further code *)

Module RegexFacts.

Import Regex RegexSem.

Lemma app_nil_r (s : string) : s ++ EmptyString = s.
Proof. induction s as [|c s IH]; simpl; [|rewrite IH]; reflexivity. Qed.

Lemma length_app (a b : string) :
  String.length (a ++ b) = String.length a + String.length b.
Proof. induction a as [|c a IH]; simpl; [|rewrite IH]; reflexivity. Qed.

Lemma substring_here (w s : string) : substring 0 (String.length w) (w ++ s) = w.
Proof.
  induction w as [|c w IH]; simpl.
  - destruct s; reflexivity.
  - rewrite IH. reflexivity.
Qed.

Lemma substring_skip (pre s : string) (n : nat) :
  substring (String.length pre) n (pre ++ s) = substring 0 n s.
Proof. induction pre as [|c pre IH]; simpl; [reflexivity | exact IH]. Qed.

Lemma at_pos_substring (msg : string) (pos : nat) (w s : string) :
  at_pos msg pos (w ++ s) -> substring pos (String.length w) msg = w.
Proof.
  intros (pre & -> & <-). rewrite substring_skip. apply substring_here.
Qed.

Lemma at_pos_advance (msg : string) (pos : nat) (w s : string) :
  at_pos msg pos (w ++ s) -> at_pos msg (pos + String.length w) s.
Proof.
  intros (pre & -> & <-). exists (pre ++ w). split.
  - symmetry. apply append_assoc.
  - apply length_app.
Qed.

Section Sound.

Variable icase : bool.
Variable msg : string.

Lemma hi_open_within (hi : option nat) (n : nat) :
  hi_open hi = true -> within (dec_hi hi) n -> within hi (S n).
Proof.
  destruct hi as [h|]; simpl; [|trivial].
  destruct h; simpl; [discriminate|]. lia.
Qed.

Lemma within_zero (hi : option nat) : within hi 0.
Proof. destruct hi; simpl; [lia | trivial]. Qed.

Lemma rep_greedy_sound (p : cclass) (s : string) :
  forall lo hi pos c k res,
    rep_greedy icase p lo hi s pos c k = Some res ->
    exists w s',
      s = w ++ s' /\ all_in icase p w /\ lo <= String.length w
      /\ within hi (String.length w)
      /\ k s' (pos + String.length w) c = Some res.
Proof.
  induction s as [|ch s IH]; intros lo hi pos c k res H; cbn [rep_greedy] in H.
  - destruct (Nat.eqb_spec lo 0) as [->|]; [|discriminate].
    exists EmptyString, EmptyString. rewrite Nat.add_0_r.
    repeat split; auto using within_zero.
  - assert (Hstop :
      (if (lo =? 0)%nat then k (String ch s) pos c else None) = Some res ->
      exists w s',
        String ch s = w ++ s' /\ all_in icase p w /\ lo <= String.length w
        /\ within hi (String.length w)
        /\ k s' (pos + String.length w) c = Some res).
    { destruct (Nat.eqb_spec lo 0) as [->|]; [|discriminate]. intros Hk.
      exists EmptyString, (String ch s). rewrite Nat.add_0_r.
      repeat split; auto using within_zero. }
    destruct (hi_open hi && cmatch icase p ch) eqn:Hc; [|auto].
    apply andb_true_iff in Hc. destruct Hc as [Hopen Hch].
    destruct (rep_greedy icase p (pred lo) (dec_hi hi) s (S pos) c k)
      as [r|] eqn:Hin; [|auto].
    injection H as ->.
    destruct (IH _ _ _ _ _ _ Hin) as (w & s' & -> & Hall & Hlo & Hhi & Hk).
    exists (String ch w), s'. cbn [String.length all_in].
    repeat split; auto using hi_open_within; try lia.
    rewrite <- Hk. f_equal. lia.
Qed.

Lemma rep_lazy_sound (p : cclass) (s : string) :
  forall lo hi pos c k res,
    rep_lazy icase p lo hi s pos c k = Some res ->
    exists w s',
      s = w ++ s' /\ all_in icase p w /\ lo <= String.length w
      /\ within hi (String.length w)
      /\ k s' (pos + String.length w) c = Some res.
Proof.
  induction s as [|ch s IH]; intros lo hi pos c k res H; cbn [rep_lazy] in H.
  - destruct (Nat.eqb_spec lo 0) as [->|]; [|discriminate].
    destruct (k EmptyString pos c) eqn:Hk; [|discriminate].
    injection H as ->.
    exists EmptyString, EmptyString. rewrite Nat.add_0_r.
    repeat split; auto using within_zero.
  - assert (Hmore :
      (if hi_open hi && cmatch icase p ch
       then rep_lazy icase p (pred lo) (dec_hi hi) s (S pos) c k
       else None) = Some res ->
      exists w s',
        String ch s = w ++ s' /\ all_in icase p w /\ lo <= String.length w
        /\ within hi (String.length w)
        /\ k s' (pos + String.length w) c = Some res).
    { destruct (hi_open hi && cmatch icase p ch) eqn:Hc; [|discriminate].
      apply andb_true_iff in Hc. destruct Hc as [Hopen Hch]. intros Hin.
      destruct (IH _ _ _ _ _ _ Hin) as (w & s' & -> & Hall & Hlo & Hhi & Hk).
      exists (String ch w), s'. cbn [String.length all_in].
      repeat split; auto using hi_open_within; try lia.
      rewrite <- Hk. f_equal. lia. }
    destruct (Nat.eqb_spec lo 0) as [->|]; [|auto].
    destruct (k (String ch s) pos c) eqn:Hk; [|auto].
    injection H as ->.
    exists EmptyString, (String ch s). rewrite Nat.add_0_r.
    repeat split; auto using within_zero.
Qed.

Lemma run_sound (r : regex) :
  forall s pos c k res,
    at_pos msg pos s ->
    run icase msg r s pos c k = Some res ->
    exists w s' g,
      s = w ++ s' /\ sem icase r w s' g
      /\ k s' (pos + String.length w) (g ++ c)%list = Some res.
Proof.
  induction r as [|p|gr p lo hi|r1 IH1 r2 IH2|r1 IH1 r2 IH2|r1 IH1|n r1 IH1|];
    intros s pos c k res Hpos H; cbn [run] in H.
  - exists EmptyString, s, []. rewrite Nat.add_0_r. cbn. auto.
  - destruct s as [|ch s]; [discriminate|].
    destruct (cmatch icase p ch) eqn:Hch; [|discriminate].
    exists (String ch EmptyString), s, []. cbn.
    rewrite Nat.add_1_r. repeat split; eauto.
  - assert (Hrep : exists w s',
               s = w ++ s' /\ all_in icase p w /\ lo <= String.length w
               /\ within hi (String.length w)
               /\ k s' (pos + String.length w) c = Some res).
    { destruct gr; [eapply rep_greedy_sound | eapply rep_lazy_sound]; exact H. }
    destruct Hrep as (w & s' & -> & Hall & Hlo & Hhi & Hk).
    exists w, s', []. cbn. repeat split; auto.
  - destruct (IH1 _ _ _ _ _ Hpos H) as (w1 & s1 & g1 & -> & S1 & H2).
    apply at_pos_advance in Hpos.
    destruct (IH2 _ _ _ _ _ Hpos H2) as (w2 & s2 & g2 & -> & S2 & Hk).
    exists (w1 ++ w2), s2, (g2 ++ g1)%list. split; [|split].
    + symmetry. apply append_assoc.
    + cbn. exists w1, w2, g1, g2. auto.
    + rewrite length_app, Nat.add_assoc, <- List.app_assoc. exact Hk.
  - destruct (run icase msg r1 s pos c k) as [r|] eqn:H1.
    + injection H as ->.
      destruct (IH1 _ _ _ _ _ Hpos H1) as (w & s' & g & -> & S1 & Hk).
      exists w, s', g. cbn. auto.
    + destruct (IH2 _ _ _ _ _ Hpos H) as (w & s' & g & -> & S2 & Hk).
      exists w, s', g. cbn. auto.
  - destruct (run icase msg r1 s pos c k) as [r|] eqn:H1.
    + injection H as ->.
      destruct (IH1 _ _ _ _ _ Hpos H1) as (w & s' & g & -> & S1 & Hk).
      exists w, s', g. cbn. auto.
    + exists EmptyString, s, []. rewrite Nat.add_0_r. cbn. auto.
  - destruct (IH1 _ _ _ _ _ Hpos H) as (w & s' & g & -> & S1 & Hk).
    exists w, s', ((n, w) :: g). split; [reflexivity|]. split.
    + cbn. eauto.
    + replace (pos + String.length w - pos) with (String.length w) in Hk by lia.
      rewrite (at_pos_substring _ _ _ _ Hpos) in Hk. exact Hk.
  - destruct s; [|discriminate].
    exists EmptyString, EmptyString, []. rewrite Nat.add_0_r. cbn. auto.
Qed.

Lemma scan_sound (r : regex) (s : string) :
  forall pos m,
    at_pos msg pos s ->
    scan icase msg r s pos = Some m ->
    exists pre w suf g,
      msg = pre ++ w ++ suf /\ String.length pre >= pos
      /\ sem icase r w suf g /\ m = (0, w) :: g.
Proof.
  induction s as [|ch s IH]; intros pos m Hpos H; cbn [scan] in H.
  - destruct (attempt icase msg r EmptyString pos) as [res|] eqn:Ha; [|discriminate].
    injection H as ->. unfold attempt in Ha.
    destruct (run_sound _ _ _ _ _ _ Hpos Ha) as (w & s' & g & Hs & Hsem & Hk).
    injection Hk as <-. rewrite List.app_nil_r.
    replace (pos + String.length w - pos) with (String.length w) by lia.
    rewrite Hs in Hpos. rewrite (at_pos_substring _ _ _ _ Hpos).
    destruct Hpos as (pre & -> & Hlen).
    exists pre, w, s', g. repeat split; auto. lia.
  - destruct (attempt icase msg r (String ch s) pos) as [res|] eqn:Ha.
    + injection H as ->. unfold attempt in Ha.
      destruct (run_sound _ _ _ _ _ _ Hpos Ha) as (w & s' & g & Hs & Hsem & Hk).
      injection Hk as <-. rewrite List.app_nil_r.
      replace (pos + String.length w - pos) with (String.length w) by lia.
      rewrite Hs in Hpos. rewrite (at_pos_substring _ _ _ _ Hpos).
      destruct Hpos as (pre & -> & Hlen).
      exists pre, w, s', g. repeat split; auto. lia.
    + assert (Hnext : at_pos msg (S pos) s).
      { change (String ch s) with (String ch EmptyString ++ s) in Hpos.
        apply at_pos_advance in Hpos. cbn in Hpos.
        rewrite Nat.add_1_r in Hpos. exact Hpos. }
      destruct (IH _ _ Hnext H) as (pre & w & suf & g & Hm & Hlen & Hsem & Hres).
      exists pre, w, suf, g. repeat split; auto. lia.
Qed.

End Sound.

(** What [match] returns is a match: group 0 holds a word of the pattern
    found in the message, and the other groups are those closed on the
    way. *)
Lemma exec_sound (icase : bool) (r : regex) (msg : string) (m : caps) :
  exec icase r msg = Some m ->
  exists pre w suf g,
    msg = pre ++ w ++ suf /\ sem icase r w suf g /\ m = (0, w) :: g.
Proof.
  intros H. unfold exec in H.
  assert (Hpos : at_pos msg 0 msg) by (exists EmptyString; auto).
  destruct (scan_sound _ _ _ _ _ _ Hpos H) as (pre & w & suf & g & ? & _ & ? & ?).
  eauto 8.
Qed.

End RegexFacts.

Module RegexComplete.

Import Regex RegexSem RegexFacts.

Section Complete.

Variable icase : bool.
Variable msg : string.

Lemma within_open (hi : option nat) (n : nat) :
  within hi (S n) -> hi_open hi = true /\ within (dec_hi hi) n.
Proof.
  destruct hi as [h|]; simpl; [|auto].
  destruct h; simpl; [lia|]. split; [reflexivity | lia].
Qed.

Lemma rep_greedy_complete (p : cclass) (w : string) :
  forall rest lo hi pos c k,
    all_in icase p w -> lo <= String.length w -> within hi (String.length w) ->
    accepts k rest ->
    rep_greedy icase p lo hi (w ++ rest) pos c k <> None.
Proof.
  induction w as [|ch w IH]; intros rest lo hi pos c k Hall Hlo Hhi Hk.
  - cbn in Hlo. assert (lo = 0) as -> by lia. cbn [append].
    destruct rest as [|ch rest]; cbn [rep_greedy Nat.eqb]; [apply Hk|].
    destruct (hi_open hi && cmatch icase p ch); [|apply Hk].
    destruct (rep_greedy icase p _ _ rest (S pos) c k); [discriminate | apply Hk].
  - cbn [append rep_greedy]. destruct Hall as [Hch Hall]. cbn in Hlo, Hhi.
    destruct (within_open _ _ Hhi) as [Hopen Hhi'].
    rewrite Hopen, Hch. cbn [andb].
    assert (Hin : rep_greedy icase p (pred lo) (dec_hi hi) (w ++ rest) (S pos) c k
                  <> None) by (apply IH; auto; lia).
    destruct (rep_greedy icase p (pred lo) (dec_hi hi) (w ++ rest) (S pos) c k);
      [discriminate | congruence].
Qed.

Lemma rep_lazy_complete (p : cclass) (w : string) :
  forall rest lo hi pos c k,
    all_in icase p w -> lo <= String.length w -> within hi (String.length w) ->
    accepts k rest ->
    rep_lazy icase p lo hi (w ++ rest) pos c k <> None.
Proof.
  induction w as [|ch w IH]; intros rest lo hi pos c k Hall Hlo Hhi Hk.
  - cbn in Hlo. assert (lo = 0) as -> by lia. cbn [append].
    specialize (Hk pos c).
    destruct rest as [|ch rest]; cbn [rep_lazy Nat.eqb];
      destruct (k _ pos c); congruence.
  - cbn [append rep_lazy]. destruct Hall as [Hch Hall]. cbn in Hlo, Hhi.
    destruct (within_open _ _ Hhi) as [Hopen Hhi'].
    rewrite Hopen, Hch. cbn [andb].
    assert (Hin : rep_lazy icase p (pred lo) (dec_hi hi) (w ++ rest) (S pos) c k
                  <> None) by (apply IH; auto; lia).
    destruct (lo =? 0)%nat; [|exact Hin].
    destruct (k (String ch (w ++ rest)) pos c); [discriminate | exact Hin].
Qed.

Lemma run_complete (r : regex) :
  forall w rest g pos c k,
    sem icase r w rest g -> accepts k rest ->
    run icase msg r (w ++ rest) pos c k <> None.
Proof.
  induction r as [|p|gr p lo hi|r1 IH1 r2 IH2|r1 IH1 r2 IH2|r1 IH1|n r1 IH1|];
    intros w rest g pos c k Hsem Hk; cbn [sem] in Hsem; cbn [run].
  - destruct Hsem as [-> _]. apply Hk.
  - destruct Hsem as [(ch & -> & Hch) _]. cbn [append]. rewrite Hch. apply Hk.
  - destruct Hsem as [(Hall & Hlo & Hhi) _].
    destruct gr; [apply rep_greedy_complete | apply rep_lazy_complete]; auto.
  - destruct Hsem as (w1 & w2 & g1 & g2 & -> & S1 & S2 & _).
    rewrite append_assoc. eapply IH1; [exact S1|].
    intros pos' c'. eapply IH2; eauto.
  - destruct (run icase msg r1 (w ++ rest) pos c k) eqn:H1; [discriminate|].
    destruct Hsem as [S1|S2].
    + exfalso. eapply IH1; eauto.
    + eapply IH2; eauto.
  - destruct (run icase msg r1 (w ++ rest) pos c k) eqn:H1; [discriminate|].
    destruct Hsem as [S1|[-> _]].
    + exfalso. eapply IH1; eauto.
    + apply Hk.
  - destruct Hsem as (g1 & S1 & _). eapply IH1; [exact S1|].
    intros pos' c'. apply Hk.
  - destruct Hsem as [[-> ->] _]. apply Hk.
Qed.

Lemma scan_complete (r : regex) (pre : string) :
  forall w suf pos,
    matches icase r w suf ->
    scan icase msg r (pre ++ w ++ suf) pos <> None.
Proof.
  induction pre as [|ch pre IH]; intros w suf pos [g Hsem].
  - cbn [append].
    assert (Ha : attempt icase msg r (w ++ suf) pos <> None).
    { unfold attempt. eapply run_complete; [exact Hsem|].
      intros pos' c'. discriminate. }
    destruct (w ++ suf); cbn [scan];
      destruct (attempt icase msg r _ pos); congruence.
  - cbn [append scan].
    destruct (attempt icase msg r _ pos); [discriminate|].
    apply IH. exists g. exact Hsem.
Qed.

End Complete.

(** [match] finds a match whenever the pattern matches somewhere. *)
Lemma exec_complete (icase : bool) (r : regex) (msg : string) :
  found icase r msg -> exec icase r msg <> None.
Proof.
  intros (pre & w & suf & -> & Hm). unfold exec. apply scan_complete. exact Hm.
Qed.

Lemma exec_found (icase : bool) (r : regex) (msg : string) :
  exec icase r msg <> None <-> found icase r msg.
Proof.
  split; [|apply exec_complete].
  destruct (exec icase r msg) as [m|] eqn:H; [|congruence]. intros _.
  destruct (exec_sound _ _ _ _ H) as (pre & w & suf & g & ? & ? & _).
  exists pre, w, suf. split; [assumption|]. exists g. assumption.
Qed.

(** *** Groups *)

Lemma cap_in (n : nat) (g : caps) (t : string) :
  cap n g = Some t -> In (n, t) g.
Proof.
  induction g as [|[m s] g IH]; cbn [cap]; [discriminate|].
  destruct (Nat.eqb_spec m n) as [->|_].
  - intros [= ->]. left. reflexivity.
  - intros H. right. auto.
Qed.

(** A group holds a word of its body, and that word is a stretch of the
    whole match. *)
Lemma sem_group (icase : bool) (r : regex) :
  forall w rest g n t,
    sem icase r w rest g -> In (n, t) g ->
    (exists body rest', In body (group_bodies n r) /\ matches icase body t rest')
    /\ exists a b, w = a ++ t ++ b.
Proof.
  induction r as [|p|gr p lo hi|r1 IH1 r2 IH2|r1 IH1 r2 IH2|r1 IH1|m r1 IH1|];
    intros w rest g n t Hsem Hin; cbn [sem] in Hsem; cbn [group_bodies].
  - destruct Hsem as [_ ->]. destruct Hin.
  - destruct Hsem as [_ ->]. destruct Hin.
  - destruct Hsem as [_ ->]. destruct Hin.
  - destruct Hsem as (w1 & w2 & g1 & g2 & -> & S1 & S2 & ->).
    apply in_app_or in Hin. destruct Hin as [Hin|Hin].
    + destruct (IH2 _ _ _ _ _ S2 Hin) as [(body & rest' & Hb & Hm) (a & b & ->)].
      split.
      * exists body, rest'. split; [apply in_or_app; right; exact Hb | exact Hm].
      * exists (w1 ++ a), b. rewrite !append_assoc. reflexivity.
    + destruct (IH1 _ _ _ _ _ S1 Hin) as [(body & rest' & Hb & Hm) (a & b & ->)].
      split.
      * exists body, rest'. split; [apply in_or_app; left; exact Hb | exact Hm].
      * exists a, (b ++ w2). rewrite !append_assoc. reflexivity.
  - destruct Hsem as [S1|S2].
    + destruct (IH1 _ _ _ _ _ S1 Hin) as [(body & rest' & Hb & Hm) Hf].
      split; [|exact Hf].
      exists body, rest'. split; [apply in_or_app; left; exact Hb | exact Hm].
    + destruct (IH2 _ _ _ _ _ S2 Hin) as [(body & rest' & Hb & Hm) Hf].
      split; [|exact Hf].
      exists body, rest'. split; [apply in_or_app; right; exact Hb | exact Hm].
  - destruct Hsem as [S1|[_ ->]]; [|destruct Hin]. eauto.
  - destruct Hsem as (g1 & S1 & ->). destruct Hin as [[= -> ->]|Hin].
    + rewrite Nat.eqb_refl. split.
      * exists r1, rest. split; [left; reflexivity | exists g1; exact S1].
      * exists EmptyString, EmptyString. cbn. rewrite app_nil_r. reflexivity.
    + destruct (IH1 _ _ _ _ _ S1 Hin) as [(body & rest' & Hb & Hm) Hf].
      split; [|exact Hf].
      exists body, rest'. split; [|exact Hm].
      destruct (m =? n)%nat; [right|]; exact Hb.
  - destruct Hsem as [_ ->]. destruct Hin.
Qed.

(** What a group of a match result holds. *)
Lemma exec_group (icase : bool) (r : regex) (msg : string) (m : caps)
      (n : nat) (t : string) :
  exec icase r msg = Some m -> cap (S n) m = Some t ->
  (exists body rest', In body (group_bodies (S n) r) /\ matches icase body t rest')
  /\ exists a b, msg = a ++ t ++ b.
Proof.
  intros He Hc.
  destruct (exec_sound _ _ _ _ He) as (pre & w & suf & g & -> & Hsem & ->).
  cbn [cap Nat.eqb] in Hc. apply cap_in in Hc.
  destruct (sem_group _ _ _ _ _ _ _ Hsem Hc) as [Hb (a & b & ->)].
  split; [exact Hb|].
  exists (pre ++ a), (b ++ suf). rewrite !append_assoc. reflexivity.
Qed.

End RegexComplete.

Module FormatFacts.

Import MpesaVerifier MpesaVerifierReport RegexFacts.

Lemma includes_upper_plain (s m : string) :
  JS.includes (JS.toUpperCase s) (JS.toUpperCase m) = true
  <-> contains_ignore_case s m.
Proof.
  rewrite includes_spec. unfold contains_ignore_case. split.
  - intros (pre & suf & H).
    destruct (toUpperCase_split _ _ _ H) as (x & y & -> & _ & Hy).
    destruct (toUpperCase_split _ _ _ Hy) as (mid & z & -> & Hmid & _).
    exists x, mid, z. split; [reflexivity|].
    apply eq_ignore_case_upper. exact Hmid.
  - intros (pre & mid & suf & -> & H).
    apply eq_ignore_case_upper in H.
    exists (JS.toUpperCase pre), (JS.toUpperCase suf).
    rewrite !toUpperCase_app, H. reflexivity.
Qed.

Lemma space_lower_char (c : ascii) : JS.is_space (JS.lower_char c) = JS.is_space c.
Proof. destruct c as [[] [] [] [] [] [] [] []]; reflexivity. Qed.

(** A text equal up to case to one without white space at its ends has
    none either. *)
Lemma eq_ignore_case_solid (a b : string) :
  eq_ignore_case a b ->
  JS.starts_solid a = JS.starts_solid b /\ JS.ends_solid a = JS.ends_solid b.
Proof.
  revert b. induction a as [|x a IH]; intros [|y b] H; cbn in H; try contradiction.
  - auto.
  - destruct H as [Hxy H]. destruct (IH _ H) as [_ He].
    assert (Hs : JS.is_space x = JS.is_space y)
      by (rewrite <- (space_lower_char x), <- (space_lower_char y), Hxy; reflexivity).
    split; cbn; [rewrite Hs; reflexivity|].
    destruct a as [|x' a], b as [|y' b]; cbn in H; try contradiction.
    + rewrite Hs. reflexivity.
    + exact He.
Qed.

Lemma eq_ignore_case_length (a b : string) :
  eq_ignore_case a b -> String.length a = String.length b.
Proof.
  revert b. induction a as [|x a IH]; intros [|y b] H; cbn in H; try contradiction.
  - reflexivity.
  - cbn. f_equal. apply IH. tauto.
Qed.

(** A message that holds a solid text is not blank. *)
Lemma contains_not_blank (s m : string) :
  JS.starts_solid m = true -> JS.ends_solid m = true ->
  contains_ignore_case s m -> JS.trim s <> EmptyString.
Proof.
  intros Hs He (pre & mid & suf & -> & Hci) Hblank.
  destruct (eq_ignore_case_solid _ _ Hci) as [Hs' He'].
  rewrite Hs in Hs'. rewrite He in He'.
  assert (Hinc : JS.includes (JS.trim (pre ++ mid ++ suf)) mid = true).
  { rewrite includes_trim by assumption. apply includes_spec. eauto. }
  rewrite Hblank in Hinc. destruct mid; discriminate.
Qed.

(** The three tests of the format check, read together. *)
Lemma format_check (message : string) :
  Format.isValid (validateMessageFormat message) = true
  <-> 10 <= String.length message /\ contains_ignore_case message "KSH".
Proof.
  unfold validateMessageFormat.
  change "KSH" with (JS.toUpperCase "KSH") at 1.
  destruct (JS.includes (JS.toUpperCase message) (JS.toUpperCase "KSH")) eqn:Hk.
  - apply includes_upper_plain in Hk.
    assert (Hnb : JS.trim message <> EmptyString)
      by (eapply contains_not_blank; [| |exact Hk]; reflexivity).
    assert (Ht : JS.truthy message = true).
    { destruct message; [|reflexivity]. exfalso. apply Hnb. reflexivity. }
    rewrite Ht. cbn [negb orb andb].
    destruct (JS.trim message) as [|c t] eqn:Htrim; [congruence|].
    cbn [String.length Nat.eqb].
    destruct (Nat.ltb_spec (String.length message) 10); cbn; split;
      try discriminate; try tauto; intros; lia.
  - assert (Hno : ~ contains_ignore_case message "KSH").
    { intros H. apply includes_upper_plain in H. congruence. }
    destruct message as [|c s].
    + cbn. split; [discriminate | tauto].
    + cbn [JS.truthy negb orb andb].
      destruct (String.length (JS.trim (String c s)) =? 0)%nat;
        destruct (String.length (String c s) <? 10)%nat; cbn;
        split; try discriminate; tauto.
Qed.





End FormatFacts.

Module LimitFacts.

Import Num NumLib SurveyLimitModal.

(** X3. For counts that are finite numbers, nothing is left of the day
    exactly when the limit is reached; what is left is never negative; and
    the dialog shows a count left only when that count is above zero. *)
Theorem remaining_zero_iff_limit_reached (dailyLimit done : number) :
  is_finite dailyLimit = true -> is_finite done = true ->
  (Num.eq (remainingSurveys dailyLimit done) zero = isLimitReached dailyLimit done)
  /\ Num.ge (remainingSurveys dailyLimit done) zero = true
  /\ (forall n, subtitle dailyLimit done = LeftToday n -> Num.gt n zero = true).
Proof.
  unfold subtitle, remainingSurveys, isLimitReached.
  destruct dailyLimit as [| |d|], done as [| |c|]; try discriminate. intros _ _.
  cbn [sub max zero lt ge Num.eq].
  destruct (Qle_bool (d - c) 0) eqn:Hle; cbn [negb].
  - apply Qle_bool_iff in Hle.
    assert (Hge : Qle_bool d c = true) by (apply Qle_bool_iff; lra).
    rewrite Hge. repeat split; try reflexivity. discriminate.
  - assert (Hnle : ~ (d - c <= 0)%Q)
      by (intros H; apply Qle_bool_iff in H; congruence).
    assert (Hge : Qle_bool d c = false).
    { apply not_true_iff_false. rewrite Qle_bool_iff. lra. }
    rewrite Hge. split; [|split].
    + cbn. apply not_true_iff_false. rewrite Qeq_bool_iff. lra.
    + cbn. apply Qle_bool_iff. lra.
    + intros n [= <-]. cbn. rewrite Hle. reflexivity.
Qed.

Lemma remaining_zero_iff_limit_reached_witness :
  (Num.eq (remainingSurveys (of_Z 5) (of_Z 7)) zero = isLimitReached (of_Z 5) (of_Z 7))
  /\ Num.ge (remainingSurveys (of_Z 5) (of_Z 7)) zero = true
  /\ (forall n, subtitle (of_Z 5) (of_Z 7) = LeftToday n -> Num.gt n zero = true).
Proof.
  apply (remaining_zero_iff_limit_reached (of_Z 5) (of_Z 7)); reflexivity.
Defined.

End LimitFacts.

Module ShapeFacts.

Import Regex RegexSem RegexFacts RegexComplete Shape.

Lemma all_chars_app (P : ascii -> bool) (a b : string) :
  all_chars P (a ++ b) = all_chars P a && all_chars P b.
Proof.
  induction a as [|c a IH]; cbn; [reflexivity|].
  rewrite IH, andb_assoc. reflexivity.
Qed.

Lemma all_chars_impl (P Q : ascii -> bool) (s : string) :
  (forall c, P c = true -> Q c = true) ->
  all_chars P s = true -> all_chars Q s = true.
Proof.
  intros HPQ. induction s as [|c s IH]; cbn; [reflexivity|].
  rewrite !andb_true_iff. intros [Hc Hs]. auto.
Qed.

Lemma all_in_chars (icase : bool) (p : cclass) (P : ascii -> bool) (w : string) :
  (forall ch, cmatch icase p ch = true -> P ch = true) ->
  all_in icase p w -> all_chars P w = true.
Proof.
  intros Hp. induction w as [|ch w IH]; cbn; [reflexivity|].
  intros [Hch Hw]. rewrite (Hp _ Hch), IH by assumption. reflexivity.
Qed.

Lemma chars_all_in (icase : bool) (p : cclass) (P : ascii -> bool) (w : string) :
  (forall ch, P ch = true -> cmatch icase p ch = true) ->
  all_chars P w = true -> all_in icase p w.
Proof.
  intros Hp. induction w as [|ch w IH]; cbn; [trivial|].
  rewrite andb_true_iff. intros [Hch Hw]. auto.
Qed.

(** The classes of the patterns, read as tests on a character.  The [i]
    flag adds nothing to a class of digits, commas, dots or white space,
    and both cases of the letters to a class of capitals. *)
Lemma cmatch_digit (icase : bool) (ch : ascii) :
  cmatch icase CDigit ch = JS.is_digit ch.
Proof. destruct icase, ch as [[] [] [] [] [] [] [] []]; reflexivity. Qed.

Lemma cmatch_space (icase : bool) (ch : ascii) :
  cmatch icase CSpace ch = JS.is_space ch.
Proof. destruct icase, ch as [[] [] [] [] [] [] [] []]; reflexivity. Qed.

Lemma cmatch_digit_comma (ch : ascii) :
  cmatch true (CUnion CDigit (CChar ",")) ch = digit_or_comma ch.
Proof. destruct ch as [[] [] [] [] [] [] [] []]; reflexivity. Qed.

Lemma cmatch_dot (ch : ascii) :
  cmatch true (CChar ".") ch = Ascii.eqb ch ".".
Proof. destruct ch as [[] [] [] [] [] [] [] []]; reflexivity. Qed.

Lemma cmatch_alnum (ch : ascii) :
  cmatch true (CUnion (CRange "A" "Z") (CRange "0" "9")) ch = is_alnum ch.
Proof. destruct ch as [[] [] [] [] [] [] [] []]; reflexivity. Qed.

Lemma cmatch_letter_space (ch : ascii) :
  cmatch true (CUnion (CRange "A" "Z") CSpace) ch = letter_or_space ch.
Proof. destruct ch as [[] [] [] [] [] [] [] []]; reflexivity. Qed.

Lemma lower_lower_char (c : ascii) :
  JS.lower_char (JS.lower_char c) = JS.lower_char c.
Proof. destruct c as [[] [] [] [] [] [] [] []]; reflexivity. Qed.

(** Under the [i] flag a literal character matches its case variants
    only. *)
Lemma cmatch_char_lower (c ch : ascii) :
  cmatch true (CChar c) ch = true -> JS.lower_char ch = JS.lower_char c.
Proof.
  unfold cmatch. cbn [cmem]. rewrite !orb_true_iff.
  intros [[H|H]|H]; apply Ascii.eqb_eq in H; subst c.
  - reflexivity.
  - symmetry. apply lower_upper_char.
  - symmetry. apply lower_lower_char.
Qed.

Lemma cmatch_char_exact (c ch : ascii) :
  cmatch false (CChar c) ch = true -> ch = c.
Proof. cbn. intros H. apply Ascii.eqb_eq in H. auto. Qed.

(** *** Literals *)

Lemma sem_lit (icase : bool) (t : string) :
  forall w rest g,
    sem icase (lit t) w rest g <-> lit_word icase t w /\ g = [].
Proof.
  induction t as [|c t IH]; intros w rest g.
  - cbn. destruct w; split; intros [H1 H2]; try discriminate; tauto.
  - destruct t as [|c' t].
    + cbn [lit sem]. split.
      * intros [(ch & -> & Hch) ->]. cbn. tauto.
      * intros [Hw ->]. destruct w as [|ch [|? ?]]; cbn in Hw; try tauto.
        split; [|reflexivity]. exists ch. tauto.
    + change (lit (String c (String c' t)))
        with (Seq (Cls (CChar c)) (lit (String c' t))).
      cbn [sem]. split.
      * intros (w1 & w2 & g1 & g2 & -> & [(ch & -> & Hch) ->] & S2 & ->).
        apply IH in S2. destruct S2 as [Hw ->].
        split; [|reflexivity]. cbn [append lit_word]. tauto.
      * intros [Hw ->]. destruct w as [|ch w]; [contradiction|].
        cbn [lit_word] in Hw. destruct Hw as [Hch Hw].
        exists (String ch EmptyString), w, [], []. repeat split; eauto.
        apply IH. tauto.
Qed.

Lemma lit_word_exact (t w : string) : lit_word false t w -> w = t.
Proof.
  revert w. induction t as [|c t IH]; intros [|ch w] H; cbn [lit_word] in H;
    try contradiction; [reflexivity|].
  destruct H as [Hc Hw]. apply cmatch_char_exact in Hc. subst.
  f_equal. auto.
Qed.

Lemma lit_word_refl (icase : bool) (t : string) : lit_word icase t t.
Proof.
  induction t as [|c t IH]; cbn [lit_word]; [trivial|]. split; [|exact IH].
  unfold cmatch. cbn [cmem]. rewrite Ascii.eqb_refl. destruct icase; reflexivity.
Qed.

Lemma lit_word_ignore_case (t w : string) :
  lit_word true t w -> eq_ignore_case w t.
Proof.
  revert w. induction t as [|c t IH]; intros [|ch w] H; cbn in H |- *;
    try contradiction; [trivial|].
  destruct H as [Hc Hw]. split; [apply cmatch_char_lower; exact Hc | auto].
Qed.

Lemma lit_word_length (icase : bool) (t w : string) :
  lit_word icase t w -> String.length w = String.length t.
Proof.
  revert w. induction t as [|c t IH]; intros [|ch w] H; cbn [lit_word] in H;
    try contradiction; [reflexivity|].
  cbn. f_equal. apply IH. tauto.
Qed.

(** *** Lengths and groups *)

Lemma sem_min_len (icase : bool) (r : regex) :
  forall w rest g, sem icase r w rest g -> min_len r <= String.length w.
Proof.
  induction r as [|p|gr p lo hi|r1 IH1 r2 IH2|r1 IH1 r2 IH2|r1 IH1|n r1 IH1|];
    intros w rest g H; cbn [sem] in H; cbn [min_len]; try lia.
  - destruct H as [(ch & -> & _) _]. cbn. lia.
  - destruct H as (w1 & w2 & g1 & g2 & -> & S1 & S2 & _).
    rewrite length_app. apply IH1 in S1. apply IH2 in S2. lia.
  - destruct H as [S1|S2]; [apply IH1 in S1 | apply IH2 in S2]; lia.
  - destruct H as (g1 & S1 & _). eauto.
Qed.

Lemma min_len_lit (t : string) : min_len (lit t) = String.length t.
Proof.
  induction t as [|c t IH]; [reflexivity|].
  destruct t as [|c' t]; [reflexivity|].
  change (lit (String c (String c' t)))
    with (Seq (Cls (CChar c)) (lit (String c' t))).
  cbn [min_len]. rewrite IH. reflexivity.
Qed.




(** *** Repetitions of a class *)

Lemma sem_rep (icase gr : bool) (p : cclass) (lo : nat) (hi : option nat)
      (w rest : string) (g : caps) :
  sem icase (Rep gr p lo hi) w rest g
  <-> (all_in icase p w /\ lo <= String.length w /\ within hi (String.length w))
      /\ g = [].
Proof. reflexivity. Qed.

Lemma nonempty_length (w : string) : 1 <= String.length w -> w <> EmptyString.
Proof. destruct w; cbn; [lia | discriminate]. Qed.

End ShapeFacts.

Module TrimFacts.

Import Shape ShapeFacts.

Lemma trimStart_solid (s : string) :
  JS.trimStart s = EmptyString \/ JS.starts_solid (JS.trimStart s) = true.
Proof.
  induction s as [|c s IH]; [left; reflexivity|].
  cbn [JS.trimStart]. destruct (JS.is_space c) eqn:Hc; [exact IH|].
  right. cbn. rewrite Hc. reflexivity.
Qed.

Lemma trimEnd_solid (s : string) :
  JS.trimEnd s = EmptyString \/ JS.ends_solid (JS.trimEnd s) = true.
Proof.
  induction s as [|c s IH]; [left; reflexivity|].
  cbn [JS.trimEnd]. destruct (JS.trimEnd s) as [|d t] eqn:Ht.
  - destruct (JS.is_space c) eqn:Hc; [left; reflexivity|].
    right. cbn. rewrite Hc. reflexivity.
  - right. destruct IH as [IH|IH]; [discriminate|]. exact IH.
Qed.

Lemma trimEnd_starts_solid (s : string) :
  JS.starts_solid s = true -> JS.starts_solid (JS.trimEnd s) = true.
Proof.
  destruct s as [|c s]; [discriminate|]. cbn [JS.starts_solid JS.trimEnd].
  intros Hc. destruct (JS.trimEnd s).
  - destruct (JS.is_space c) eqn:E; [discriminate|]. cbn. rewrite E. reflexivity.
  - exact Hc.
Qed.

Lemma trimEnd_nonempty (s : string) :
  JS.starts_solid s = true -> JS.trimEnd s <> EmptyString.
Proof.
  intros H. apply trimEnd_starts_solid in H.
  destruct (JS.trimEnd s); [discriminate H | discriminate].
Qed.

(** A trimmed text is empty or has no white space at either end. *)
Lemma trim_solid (s : string) :
  JS.trim s = EmptyString
  \/ (JS.starts_solid (JS.trim s) = true /\ JS.ends_solid (JS.trim s) = true).
Proof.
  unfold JS.trim. destruct (trimStart_solid s) as [->|Hs]; [left; reflexivity|].
  right. split; [apply trimEnd_starts_solid; exact Hs|].
  destruct (trimEnd_solid (JS.trimStart s)) as [He|He]; [|exact He].
  exfalso. exact (trimEnd_nonempty _ Hs He).
Qed.

Lemma trimStart_factor (s : string) : exists a, s = a ++ JS.trimStart s.
Proof.
  induction s as [|c s [a IH]]; [exists EmptyString; reflexivity|].
  cbn [JS.trimStart]. destruct (JS.is_space c).
  - exists (String c a). cbn. rewrite <- IH. reflexivity.
  - exists EmptyString. reflexivity.
Qed.

Lemma trimEnd_factor (s : string) : exists b, s = JS.trimEnd s ++ b.
Proof.
  induction s as [|c s [b IH]]; [exists EmptyString; reflexivity|].
  cbn [JS.trimEnd]. destruct (JS.trimEnd s) as [|d t] eqn:Ht.
  - destruct (JS.is_space c).
    + exists (String c s). reflexivity.
    + exists b. cbn. rewrite IH at 1. reflexivity.
  - exists b. cbn. rewrite IH at 1. reflexivity.
Qed.

Lemma trim_factor (s : string) : factor (JS.trim s) s.
Proof.
  unfold JS.trim, factor.
  destruct (trimStart_factor s) as [a Ha].
  destruct (trimEnd_factor (JS.trimStart s)) as [b Hb].
  exists a, b. rewrite <- Hb. exact Ha.
Qed.

Lemma all_chars_factor (P : ascii -> bool) (t s : string) :
  factor t s -> all_chars P s = true -> all_chars P t = true.
Proof.
  intros (a & b & ->). rewrite !all_chars_app, !andb_true_iff. tauto.
Qed.

Lemma factor_trans (a b c : string) : factor a b -> factor b c -> factor a c.
Proof.
  intros (x & y & ->) (u & v & ->). exists (u ++ x), (y ++ v).
  rewrite !append_assoc. reflexivity.
Qed.

End TrimFacts.

Module DetailFacts.

Import Regex RegexSem RegexFacts RegexComplete Shape ShapeFacts TrimFacts.
Import MpesaVerifier.

(** A field of the result comes from [extractMessageDetails]. *)
Lemma details_of_valid (message : string) :
  details (verifyMessage message) = no_details
  \/ details (verifyMessage message) = extractMessageDetails message.
Proof.
  destruct (VerifierFacts.verifyMessage_cases message) as [[_ ->]|[_ [_ ->]]];
    [right | left]; reflexivity.
Qed.

Lemma group1_some (icase : bool) (r : regex) (msg t : string) :
  group1 (exec icase r msg) = Some t ->
  (exists body rest', In body (group_bodies 1 r) /\ matches icase body t rest')
  /\ factor t msg.
Proof.
  unfold group1. destruct (exec icase r msg) as [m|] eqn:He; [|discriminate].
  intros Hc. exact (exec_group _ _ _ _ _ _ He Hc).
Qed.

Lemma amount_token_shape (w rest : string) :
  matches true MpesaVerification.amount_token w rest -> amount_shaped w.
Proof.
  intros [g H]. unfold MpesaVerification.amount_token, plus, star in H.
  cbn [seqs sem] in H.
  destruct H as (w1 & w23 & g1 & g23 & -> & [(A1 & L1 & _) _] & H & _).
  destruct H as (w2 & w3 & g2 & g3 & -> & [(A2 & _ & L2) _] & [(A3 & _) _] & _).
  exists w1, w2, w3. split; [reflexivity|]. split; [|split; [|split]].
  - apply nonempty_length. exact L1.
  - eapply all_in_chars; [|exact A1]. intros ch. rewrite cmatch_digit_comma. auto.
  - destruct w2 as [|c [|c' w2]]; cbn in L2; [left; reflexivity| |lia].
    right. destruct A2 as [Hc _]. rewrite cmatch_dot in Hc.
    apply Ascii.eqb_eq in Hc. subst. reflexivity.
  - eapply all_in_chars; [|exact A3]. intros ch. rewrite cmatch_digit. auto.
Qed.

(** X4. The amount a verified message reports is a piece of the message:
    digits and commas, at least one, then possibly a dot and digits. *)
Theorem verifyMessage_amount_shape (message t : string) :
  amount (details (verifyMessage message)) = Some t ->
  amount_shaped t /\ factor t message.
Proof.
  destruct (details_of_valid message) as [->| ->]; [discriminate|].
  cbn [extractMessageDetails amount]. intros H.
  destruct (group1_some _ _ _ _ H) as [(body & rest' & Hb & Hm) Hf].
  split; [|exact Hf].
  cbn in Hb. destruct Hb as [<-|[]].
  eapply amount_token_shape. exact Hm.
Qed.

Lemma verifyMessage_amount_shape_witness :
  amount_shaped "250.00" /\ factor "250.00" scenario_message.
Proof.
  apply (verifyMessage_amount_shape scenario_message "250.00").
  vm_compute. reflexivity.
Defined.

(** X5. The transaction id a verified message reports is a piece of the
    message made of letters and digits, at least one. *)
Theorem verifyMessage_transactionId_shape (message t : string) :
  transactionId (details (verifyMessage message)) = Some t ->
  t <> EmptyString /\ all_chars is_alnum t = true /\ factor t message.
Proof.
  destruct (details_of_valid message) as [->| ->]; [discriminate|].
  cbn [extractMessageDetails transactionId]. intros H.
  destruct (group1_some _ _ _ _ H) as [(body & rest' & Hb & [g Hm]) Hf].
  cbn in Hb. destruct Hb as [<-|[]].
  destruct Hm as [(A & L & _) _]. split; [|split; [|exact Hf]].
  - apply nonempty_length. exact L.
  - eapply all_in_chars; [|exact A]. intros ch. rewrite cmatch_alnum. auto.
Qed.

Lemma verifyMessage_transactionId_shape_witness :
  "ABC123XYZ" <> EmptyString /\ all_chars is_alnum "ABC123XYZ" = true
  /\ factor "ABC123XYZ" "Txn ID: ABC123XYZ to VEDACOM 4 SOLUTIONS".
Proof.
  apply (verifyMessage_transactionId_shape
           "Txn ID: ABC123XYZ to VEDACOM 4 SOLUTIONS" "ABC123XYZ").
  vm_compute. reflexivity.
Defined.

(** X6. The merchant name a verified message reports is a piece of the
    message made of letters and white space, with no white space left at
    either end (it can be empty). *)
Theorem verifyMessage_merchantName_trimmed (message t : string) :
  merchantName (details (verifyMessage message)) = Some t ->
  (t = EmptyString \/ (JS.starts_solid t = true /\ JS.ends_solid t = true))
  /\ all_chars letter_or_space t = true
  /\ factor t message.
Proof.
  destruct (details_of_valid message) as [->| ->]; [discriminate|].
  cbn [extractMessageDetails merchantName].
  destruct (group1 (exec true merchant_re message)) as [raw|] eqn:H;
    [|discriminate].
  cbn [option_map]. intros [= <-].
  destruct (group1_some _ _ _ _ H) as [(body & rest' & Hb & [g Hm]) Hf].
  cbn in Hb. destruct Hb as [<-|[]].
  destruct Hm as [(A & _ & _) _].
  split; [apply trim_solid|]. split.
  - apply (all_chars_factor _ _ raw (trim_factor raw)).
    eapply all_in_chars; [|exact A].
    intros ch. rewrite cmatch_letter_space. auto.
  - exact (factor_trans _ _ _ (trim_factor raw) Hf).
Qed.

Lemma verifyMessage_merchantName_trimmed_witness :
  ("Vedacom" = EmptyString
   \/ (JS.starts_solid "Vedacom" = true /\ JS.ends_solid "Vedacom" = true))
  /\ all_chars letter_or_space "Vedacom" = true
  /\ factor "Vedacom" "paid to  Vedacom 4 Solutions".
Proof.
  apply (verifyMessage_merchantName_trimmed "paid to  Vedacom 4 Solutions").
  vm_compute. reflexivity.
Defined.

End DetailFacts.

Module ParseFacts.

Import Num Shape.







End ParseFacts.

Module PaymentInfoFacts.

Import Regex RegexSem RegexFacts RegexComplete Shape ShapeFacts TrimFacts.
Import MessageProcessor MessageProcessorCheck ParseFacts.

(** A result comes from a template that captured the expected till
    number. *)
Lemma try_patterns_some (env : Env) (msg : string) (ps : list regex)
      (info : MpesMessageInfo) :
  try_patterns env msg ps = Some info ->
  exists p m,
    In p ps /\ exec true p msg = Some m
    /\ cap 2 m = Some correctTillNumber /\ info = info_of env msg m.
Proof.
  induction ps as [|p ps IH]; cbn [try_patterns]; [discriminate|].
  assert (Hrest : try_patterns env msg ps = Some info ->
                  exists p' m, In p' (p :: ps) /\ exec true p' msg = Some m
                    /\ cap 2 m = Some correctTillNumber
                    /\ info = info_of env msg m).
  { intros H. destruct (IH H) as (p' & m & Hin & Hrest).
    exists p', m. split; [right; exact Hin | exact Hrest]. }
  destruct (exec true p msg) as [m|] eqn:Hm; [|exact Hrest].
  destruct (cap 2 m) as [t|] eqn:Ht; [|exact Hrest].
  destruct (String.eqb t correctTillNumber) eqn:Hq; [|exact Hrest].
  apply String.eqb_eq in Hq. subst t. intros [= <-].
  exists p, m. split; [left; reflexivity|]. auto.
Qed.

Lemma extract_some (env : Env) (msg : string) (info : MpesMessageInfo) :
  extractPaymentInfo env msg = Some info ->
  exists p m,
    In p patterns /\ exec true p msg = Some m
    /\ cap 2 m = Some correctTillNumber /\ info = info_of env msg m.
Proof.
  rewrite ProcessorFacts.extractPaymentInfo_eq. apply try_patterns_some.
Qed.



Lemma group1_of_template (p : regex) :
  In p patterns ->
  group_bodies 1 p = [Seq (plus CDigit) (Opt (Seq (lit ".") (times CDigit 2 2)))]
  /\ In 1 (sure_groups p) /\ 10 <= min_len p.
Proof.
  intros Hp. cbn in Hp.
  destruct Hp as [<-|[<-|[<-|[<-|[]]]]]; (split; [reflexivity|]);
    (split; [cbn; tauto | cbn; lia]).
Qed.



(** *** A valid message passes the format check *)

Lemma ksh_amount_word (w rest : string) (g : caps) :
  sem true ksh_amount w rest g -> contains_ignore_case w "KSH".
Proof.
  unfold ksh_amount. cbn [sem].
  intros (wk & wa & g1 & g2 & -> & Hk & _).
  apply sem_lit in Hk. destruct Hk as [Hk _].
  exists EmptyString, wk, wa. split; [reflexivity|].
  apply lit_word_ignore_case in Hk.
  apply eq_ignore_case_upper in Hk. apply eq_ignore_case_upper.
  rewrite Hk. reflexivity.
Qed.

Lemma contains_app_l (a b m : string) :
  contains_ignore_case a m -> contains_ignore_case (a ++ b) m.
Proof.
  intros (pre & mid & suf & -> & H). exists pre, mid, (suf ++ b).
  split; [|exact H]. rewrite !append_assoc. reflexivity.
Qed.

Lemma contains_app_r (a b m : string) :
  contains_ignore_case b m -> contains_ignore_case (a ++ b) m.
Proof.
  intros (pre & mid & suf & -> & H). exists (a ++ pre), mid, suf.
  split; [|exact H]. rewrite !append_assoc. reflexivity.
Qed.

Lemma template_has_ksh (p : regex) (w rest : string) (g : caps) :
  In p patterns -> sem true p w rest g -> contains_ignore_case w "KSH".
Proof.
  intros Hp. cbn in Hp. destruct Hp as [<-|[<-|[<-|[<-|[]]]]].
  - unfold pattern1. cbn [seqs sem].
    intros (w1 & w2 & g1 & g2 & -> & H & _).
    apply contains_app_l. eapply ksh_amount_word. exact H.
  - unfold pattern2. cbn [seqs sem].
    intros (w1 & w2 & g1 & g2 & -> & H & _).
    apply contains_app_l. eapply ksh_amount_word. exact H.
  - unfold pattern3. cbn [seqs sem].
    intros (w1 & w2 & g1 & g2 & -> & _ & H & _).
    destruct H as (w3 & w4 & g3 & g4 & -> & _ & H & _).
    destruct H as (w5 & w6 & g5 & g6 & -> & H & _).
    apply contains_app_r, contains_app_r, contains_app_l.
    eapply ksh_amount_word. exact H.
  - unfold pattern4. cbn [seqs sem].
    intros (w1 & w2 & g1 & g2 & -> & H & _).
    apply contains_app_l. eapply ksh_amount_word. exact H.
Qed.

Lemma contains_in_factor (w msg m : string) :
  factor w msg -> contains_ignore_case w m -> contains_ignore_case msg m.
Proof.
  intros (a & b & ->) H. apply contains_app_r, contains_app_l. exact H.
Qed.

Lemma factor_length (t s : string) : factor t s -> String.length t <= String.length s.
Proof. intros (a & b & ->). rewrite !length_app. lia. Qed.

(** A message with a result is ten characters long or more, holds KSH
    in some case and holds the expected till number. *)
Lemma extract_well_formed (env : Env) (msg : string) (info : MpesMessageInfo) :
  extractPaymentInfo env msg = Some info ->
  10 <= String.length msg /\ contains_ignore_case msg "KSH"
  /\ factor correctTillNumber msg.
Proof.
  intros H. destruct (extract_some _ _ _ H) as (p & m & Hp & He & Ht & _).
  destruct (exec_sound _ _ _ _ He) as (pre & w & suf & g & Hmsg & Hsem & _).
  assert (Hf : factor w msg) by (exists pre, suf; exact Hmsg).
  split; [|split].
  - destruct (group1_of_template p Hp) as (_ & _ & Hmin).
    pose proof (sem_min_len _ _ _ _ _ Hsem).
    pose proof (factor_length _ _ Hf). lia.
  - eapply contains_in_factor; [exact Hf|].
    eapply template_has_ksh; eassumption.
  - exact (proj2 (exec_group _ _ _ _ _ _ He Ht)).
Qed.

(** X8. A message [isValidMpesMessage] accepts passes the format check of
    the verifier, and holds the expected till number as it is written. *)
Theorem valid_message_well_formed (env : Env) (msg : string) :
  isValidMpesMessage env msg = true ->
  MpesaVerifierReport.Format.isValid
    (MpesaVerifierReport.validateMessageFormat msg) = true
  /\ factor correctTillNumber msg.
Proof.
  unfold isValidMpesMessage.
  destruct (extractPaymentInfo env msg) as [info|] eqn:H; [|discriminate].
  intros _. destruct (extract_well_formed _ _ _ H) as (Hlen & Hksh & Htill).
  split; [|exact Htill]. apply FormatFacts.format_check. auto.
Qed.

Lemma valid_message_well_formed_witness :
  MpesaVerifierReport.Format.isValid
    (MpesaVerifierReport.validateMessageFormat "Ksh500 paid to 3566188") = true
  /\ factor correctTillNumber "Ksh500 paid to 3566188".
Proof.
  apply (valid_message_well_formed sample_env "Ksh500 paid to 3566188").
  vm_compute. reflexivity.
Defined.

End PaymentInfoFacts.

Module PhoneFacts.

Import Regex RegexSem RegexFacts RegexComplete Shape ShapeFacts TrimFacts.
Import MessageProcessor.

Lemma phone_word_shape (w rest : string) (g : caps) :
  sem false phonePattern w rest g -> phone_shaped w.
Proof.
  unfold phonePattern, times. cbn [seqs sem].
  intros (px & w2 & g1 & g2 & -> & Hpx & H & _).
  destruct H as (w7 & d & g3 & g4 & -> & H7 & [(A & L & U) _] & _).
  apply sem_lit in H7. destruct H7 as [H7 _]. apply lit_word_exact in H7. subst w7.
  exists px, d. split; [reflexivity|]. split; [|split].
  - destruct Hpx as [[H|H]|[-> _]]; [| |left; reflexivity];
      apply sem_lit in H; destruct H as [H _]; apply lit_word_exact in H; auto.
  - cbn in U. lia.
  - eapply all_in_chars; [|exact A]. intros ch. rewrite cmatch_digit. auto.
Qed.

Lemma phone_word_found (d suf : string) :
  String.length d = 8 -> all_chars JS.is_digit d = true ->
  matches false phonePattern ("7" ++ d) suf.
Proof.
  intros L A. exists []. unfold phonePattern, times. cbn [seqs sem].
  exists EmptyString, ("7" ++ d), [], [].
  split; [reflexivity|]. split; [right; auto|]. split; [|reflexivity].
  exists "7", d, [], [].
  split; [reflexivity|]. split; [|split; [|reflexivity]].
  - apply sem_lit. split; [apply lit_word_refl | reflexivity].
  - split; [|reflexivity]. split; [|split; cbn; lia].
    eapply chars_all_in; [|exact A]. intros ch. rewrite cmatch_digit. auto.
Qed.

Lemma phone_shaped_long (t : string) : phone_shaped t -> 9 <= String.length t.
Proof.
  intros (px & d & -> & _ & L & _). rewrite !length_app, L. cbn. lia.
Qed.

Lemma extractPhoneNumber_cases (message : string) :
  (exec false phonePattern message = None
   /\ extractPhoneNumber message = "Unknown")
  \/ (exists pre suf g,
        message = pre ++ extractPhoneNumber message ++ suf
        /\ sem false phonePattern (extractPhoneNumber message) suf g).
Proof.
  unfold extractPhoneNumber.
  destruct (exec false phonePattern message) as [m|] eqn:He; [|left; auto].
  right. destruct (exec_sound _ _ _ _ He) as (pre & w & suf & g & Hm & Hs & ->).
  cbn [cap Nat.eqb]. eauto.
Qed.

(** X9. The phone number found in a message is "Unknown" or a piece of the
    message: nothing, 0 or +254, then 7 and eight digits. *)
Theorem extractPhoneNumber_shape (message : string) :
  extractPhoneNumber message = "Unknown"
  \/ (phone_shaped (extractPhoneNumber message)
      /\ factor (extractPhoneNumber message) message).
Proof.
  destruct (extractPhoneNumber_cases message) as [[_ H]|(pre & suf & g & Hm & Hs)];
    [left; exact H | right].
  split; [eapply phone_word_shape; exact Hs | exists pre, suf; exact Hm].
Qed.

(** X10. The phone number is "Unknown" exactly when the message holds no 7
    followed by eight digits. *)
Theorem extractPhoneNumber_unknown_iff (message : string) :
  extractPhoneNumber message = "Unknown"
  <-> ~ exists d, String.length d = 8 /\ all_chars JS.is_digit d = true
                  /\ factor ("7" ++ d) message.
Proof.
  destruct (extractPhoneNumber_cases message)
    as [[Hnone Hu]|(pre & suf & g & Hm & Hs)].
  - split; [|intros _; exact Hu]. intros _ (d & L & A & a & b & Hf).
    apply (exec_complete false phonePattern message); [|exact Hnone].
    exists a, ("7" ++ d), b. split; [exact Hf|]. apply phone_word_found; assumption.
  - pose proof (phone_word_shape _ _ _ Hs) as Hshape. split.
    + intros Hu. apply phone_shaped_long in Hshape. rewrite Hu in Hshape.
      cbn in Hshape. lia.
    + intros Hno. exfalso. apply Hno.
      destruct Hshape as (px & d & Hw & _ & L & A).
      exists d. split; [exact L|]. split; [exact A|].
      exists (pre ++ px), suf. rewrite Hm, Hw, !append_assoc. reflexivity.
Qed.

Lemma extractPhoneNumber_unknown_iff_witness :
  ~ exists d, String.length d = 8 /\ all_chars JS.is_digit d = true
              /\ factor ("7" ++ d) "Ksh500 paid to 3566188".
Proof.
  apply (proj1 (extractPhoneNumber_unknown_iff "Ksh500 paid to 3566188")).
  vm_compute. reflexivity.
Defined.

End PhoneFacts.

Module TransactionIdFacts.

Import Shape ShapeFacts RegexFacts MessageProcessor.

Lemma generateTransactionId_eq (env : Env) :
  generateTransactionId env = "MP" ++ clock_digits env ++ random_suffix env.
Proof. reflexivity. Qed.

Lemma append_inj (a b c d : string) :
  String.length a = String.length c -> a ++ b = c ++ d -> a = c /\ b = d.
Proof.
  revert c. induction a as [|x a IH]; intros [|y c] L H; cbn in L; try discriminate.
  - auto.
  - cbn in H. injection H as -> H. destruct (IH c) as [-> ->]; auto.
Qed.

Lemma to_uint_nonnil (n : N) : N.to_uint n <> Decimal.Nil.
Proof.
  destruct n as [|p]; cbn; [discriminate|]. apply Unsigned.to_uint_nonnil.
Qed.

Lemma clock_digits_inj (n1 n2 : N) :
  NilZero.string_of_uint (N.to_uint n1) = NilZero.string_of_uint (N.to_uint n2) ->
  n1 = n2.
Proof.
  intros H.
  pose proof (NilZero.usu _ (to_uint_nonnil n1)) as H1.
  pose proof (NilZero.usu _ (to_uint_nonnil n2)) as H2.
  rewrite H, H2 in H1. injection H1 as H1.
  rewrite <- (DecimalN.Unsigned.of_to n1), <- (DecimalN.Unsigned.of_to n2), H1.
  reflexivity.
Qed.

Lemma upper_char_not_lower (c : ascii) : not_lower (JS.upper_char c) = true.
Proof. destruct c as [[] [] [] [] [] [] [] []]; reflexivity. Qed.

Lemma toUpperCase_not_lower (s : string) :
  all_chars not_lower (JS.toUpperCase s) = true.
Proof.
  induction s as [|c s IH]; cbn; [reflexivity|].
  rewrite upper_char_not_lower, IH. reflexivity.
Qed.

Lemma substring_length (n m : nat) (s : string) :
  String.length (substring n m s) <= m.
Proof.
  revert n m. induction s as [|c s IH]; intros [|n] [|m]; cbn; try lia.
  - specialize (IH 0 m). lia.
  - apply IH.
  - apply IH.
Qed.

Lemma string_of_uint_digits (d : Decimal.uint) :
  all_chars JS.is_digit (NilEmpty.string_of_uint d) = true.
Proof. induction d; cbn; auto. Qed.

Lemma clock_digits_are_digits (env : Env) :
  clock_digits env <> EmptyString
  /\ all_chars JS.is_digit (clock_digits env) = true.
Proof.
  unfold clock_digits, NilZero.string_of_uint.
  pose proof (to_uint_nonnil (date_now env)) as Hn.
  destruct (N.to_uint (date_now env)) eqn:E; try congruence;
    (split; [discriminate | apply (string_of_uint_digits (_ u))]).
Qed.

(** X11. A transaction id is MP, the digits of the clock, then at most five
    characters none of which is a lower-case letter.  Two ids made at
    clocks of as many digits are the same only when the clocks are the
    same and the characters drawn are the same. *)
Theorem generateTransactionId_distinct (e1 e2 : Env) :
  (prefix "MP" (generateTransactionId e1) = true
   /\ all_chars not_lower (generateTransactionId e1) = true
   /\ String.length (generateTransactionId e1)
      <= 2 + String.length (clock_digits e1) + 5)
  /\ (String.length (clock_digits e1) = String.length (clock_digits e2) ->
      generateTransactionId e1 = generateTransactionId e2 ->
      date_now e1 = date_now e2 /\ random_suffix e1 = random_suffix e2).
Proof.
  rewrite !generateTransactionId_eq. split; [split; [|split]|].
  - apply prefix_spec. eexists. reflexivity.
  - destruct (clock_digits_are_digits e1) as [_ Hd].
    assert (Hs : all_chars not_lower (random_suffix e1) = true)
      by apply toUpperCase_not_lower.
    rewrite !all_chars_app, Hs, andb_true_r. cbn [all_chars].
    change (not_lower "M" && (not_lower "P" && true)) with true. cbn [andb].
    eapply all_chars_impl; [|exact Hd].
    intros c. destruct c as [[] [] [] [] [] [] [] []]; try discriminate; reflexivity.
  - rewrite !length_app. cbn [String.length].
    assert (String.length (random_suffix e1) <= 5); [|lia].
    unfold random_suffix.
    assert (Hup : forall s, String.length (JS.toUpperCase s) = String.length s)
      by (induction s; cbn; auto).
    rewrite Hup. apply substring_length.
  - intros L H. cbn [append] in H. injection H as H.
    destruct (append_inj _ _ _ _ L H) as [Hd Hs].
    split; [apply clock_digits_inj; exact Hd | exact Hs].
Qed.

Lemma generateTransactionId_distinct_witness :
  date_now sample_env = date_now Samples.second_env
  /\ random_suffix sample_env = random_suffix Samples.second_env.
Proof.
  apply (proj2 (generateTransactionId_distinct sample_env Samples.second_env));
    vm_compute; reflexivity.
Defined.

End TransactionIdFacts.

Module RegexStarFacts.

Import Regex RegexSem RegexFacts RegexComplete RegexStar RegexStarSem.

Section Sound.

Variable icase : bool.
Variable msg : string.

Lemma star_loop_sound (a : xregex)
      (step : string -> nat -> caps -> cont -> option caps) :
  step_sound icase msg a step ->
  forall fuel, step_sound icase msg (XStar a) (star_loop step fuel).
Proof.
  intros Hstep fuel. induction fuel as [|fuel IH];
    intros s pos c k res Hpos H; cbn [star_loop] in H.
  - exists EmptyString, s, c. rewrite Nat.add_0_r.
    split; [reflexivity|]. split; [constructor | exact H].
  - destruct (step s pos c _) as [r|] eqn:Hs.
    + injection H as ->.
      destruct (Hstep _ _ _ _ _ Hpos Hs) as (w1 & s1 & c1 & -> & X1 & Hk).
      destruct (String.length s1 <? String.length (w1 ++ s1))%nat eqn:Hlt;
        [|discriminate].
      apply Nat.ltb_lt in Hlt. rewrite length_app in Hlt.
      pose proof (at_pos_advance _ _ _ _ Hpos) as Hpos1.
      destruct (IH _ _ _ _ _ Hpos1 Hk) as (w2 & s2 & c2 & -> & X2 & Hk2).
      exists (w1 ++ w2), s2, c2. split; [|split].
      * symmetry. apply append_assoc.
      * constructor; [destruct w1; [cbn in Hlt; lia | discriminate] | exact X1 | exact X2].
      * rewrite length_app, Nat.add_assoc. exact Hk2.
    + exists EmptyString, s, c. rewrite Nat.add_0_r.
      split; [reflexivity|]. split; [constructor | exact H].
Qed.

Lemma xrun_sound (x : xregex) : step_sound icase msg x (xrun icase msg x).
Proof.
  induction x as [r|a IHa b IHb|a IHa|n a IHa];
    intros s pos c k res Hpos H; cbn [xrun] in H.
  - destruct (run_sound _ _ _ _ _ _ _ _ Hpos H) as (w & s' & g & -> & Hs & Hk).
    exists w, s', (g ++ c)%list. split; [reflexivity|].
    split; [constructor; exists g; exact Hs | exact Hk].
  - destruct (IHa _ _ _ _ _ Hpos H) as (w1 & s1 & c1 & -> & X1 & H2).
    pose proof (at_pos_advance _ _ _ _ Hpos) as Hpos1.
    destruct (IHb _ _ _ _ _ Hpos1 H2) as (w2 & s2 & c2 & -> & X2 & Hk).
    exists (w1 ++ w2), s2, c2. split; [|split].
    + symmetry. apply append_assoc.
    + constructor; assumption.
    + rewrite length_app, Nat.add_assoc. exact Hk.
  - exact (star_loop_sound _ _ IHa _ _ _ _ _ _ Hpos H).
  - destruct (IHa _ _ _ _ _ Hpos H) as (w & s' & c' & -> & X1 & Hk).
    exists w, s', ((n, substring pos (pos + String.length w - pos) msg) :: c').
    split; [reflexivity|]. split; [constructor; exact X1 | exact Hk].
Qed.

Lemma xscan_sound (x : xregex) (s : string) :
  forall pos m,
    at_pos msg pos s ->
    xscan icase msg x s pos = Some m ->
    exists pre w suf, msg = pre ++ w ++ suf /\ xsem icase x w suf.
Proof.
  assert (Hatt : forall s pos m,
             at_pos msg pos s -> xattempt icase msg x s pos = Some m ->
             exists pre w suf, msg = pre ++ w ++ suf /\ xsem icase x w suf).
  { intros s0 pos m Hpos Ha. unfold xattempt in Ha.
    destruct (xrun_sound _ _ _ _ _ _ Hpos Ha) as (w & s' & c' & -> & Hx & _).
    destruct Hpos as (pre & -> & _). eauto. }
  induction s as [|ch s IH]; intros pos m Hpos H; cbn [xscan] in H.
  - destruct (xattempt icase msg x EmptyString pos) eqn:Ha; [|discriminate]. eauto.
  - destruct (xattempt icase msg x (String ch s) pos) eqn:Ha; [eauto|].
    apply (IH (S pos) m); [|exact H].
    change (String ch s) with (String ch EmptyString ++ s) in Hpos.
    apply at_pos_advance in Hpos. cbn in Hpos.
    rewrite Nat.add_1_r in Hpos. exact Hpos.
Qed.

End Sound.

Lemma xexec_sound (icase : bool) (x : xregex) (msg : string) (m : caps) :
  xexec icase x msg = Some m ->
  exists pre w suf, msg = pre ++ w ++ suf /\ xsem icase x w suf.
Proof.
  intros H. unfold xexec in H. eapply xscan_sound; [|exact H].
  exists EmptyString. auto.
Qed.

End RegexStarFacts.

Module RegexStarComplete.

Import Regex RegexSem RegexFacts RegexComplete RegexStar RegexStarSem RegexStarFacts.

Section Complete.

Variable icase : bool.
Variable msg : string.

(** The fuel given to a star, the length of the input left, is enough:
    every match of the pattern is found. *)
Lemma xrun_complete (x : xregex) (w rest : string) :
  xsem icase x w rest ->
  forall pos c k,
    accepts k rest ->
    xrun icase msg x (w ++ rest) pos c k <> None
    /\ forall a, x = XStar a ->
         forall fuel, String.length w <= fuel ->
           star_loop (xrun icase msg a) fuel (w ++ rest) pos c k <> None.
Proof.
  intros H. induction H as [r w rest [g Hs]|a b w1 w2 rest _ IH1 _ IH2
                            |a rest|a w1 w2 rest Hne _ IH1 _ IH2|n a w rest _ IH];
    intros pos c k Hk.
  - split; [|discriminate]. cbn [xrun]. eapply run_complete; eauto.
  - split; [|discriminate]. cbn [xrun]. rewrite append_assoc.
    apply IH1. intros pos' c'. apply IH2. exact Hk.
  - assert (Hloop : forall fuel,
               star_loop (xrun icase msg a) fuel rest pos c k <> None).
    { intros [|fuel]; cbn [star_loop]; [apply Hk|].
      destruct (xrun icase msg a rest pos c _); [discriminate | apply Hk]. }
    split; [apply Hloop|]. intros a' [= <-] fuel _. apply Hloop.
  - assert (Hloop : forall fuel, String.length (w1 ++ w2) <= fuel ->
               star_loop (xrun icase msg a) fuel ((w1 ++ w2) ++ rest) pos c k
               <> None).
    { intros fuel Hfuel. rewrite length_app in Hfuel.
      assert (1 <= String.length w1) by (destruct w1; [congruence | cbn; lia]).
      destruct fuel as [|fuel]; [lia|]. cbn [star_loop].
      match goal with
      | |- match xrun icase msg a ?s pos c ?K with _ => _ end <> None =>
          assert (HK : xrun icase msg a s pos c K <> None)
      end.
      { rewrite append_assoc. apply IH1. intros pos' c'.
        assert (Hlt : (String.length (w2 ++ rest)
                       <? String.length (w1 ++ w2 ++ rest))%nat = true)
          by (apply Nat.ltb_lt; rewrite !length_app; lia).
        rewrite Hlt. apply (proj2 (IH2 pos' c' k Hk) a eq_refl). lia. }
      destruct (xrun icase msg a _ pos c _); [discriminate | congruence]. }
    split.
    + cbn [xrun]. apply Hloop. rewrite !length_app. lia.
    + intros a' [= <-] fuel Hfuel. apply Hloop. exact Hfuel.
  - split; [|discriminate]. cbn [xrun]. apply IH. intros pos' c'. apply Hk.
Qed.

Lemma xscan_complete (x : xregex) (pre : string) :
  forall w suf pos,
    xsem icase x w suf ->
    xscan icase msg x (pre ++ w ++ suf) pos <> None.
Proof.
  induction pre as [|ch pre IH]; intros w suf pos Hx.
  - cbn [append].
    assert (Ha : xattempt icase msg x (w ++ suf) pos <> None).
    { unfold xattempt. apply (xrun_complete _ _ _ Hx).
      intros pos' c'. discriminate. }
    destruct (w ++ suf); cbn [xscan];
      destruct (xattempt icase msg x _ pos); congruence.
  - cbn [append xscan].
    destruct (xattempt icase msg x _ pos); [discriminate|].
    apply IH. exact Hx.
Qed.

End Complete.

Lemma xexec_found (icase : bool) (x : xregex) (msg : string) :
  xexec icase x msg <> None
  <-> exists pre w suf, msg = pre ++ w ++ suf /\ xsem icase x w suf.
Proof.
  split.
  - destruct (xexec icase x msg) as [m|] eqn:H; [|congruence]. intros _.
    eapply xexec_sound. exact H.
  - intros (pre & w & suf & -> & Hx). unfold xexec.
    apply xscan_complete. exact Hx.
Qed.

End RegexStarComplete.

Module FormFacts.

Import Regex RegexSem RegexFacts RegexComplete RegexStar RegexStarSem.
Import RegexStarFacts RegexStarComplete Shape ShapeFacts TrimFacts ParseFacts.
Import MpesaVerification.

(** Where the third pattern matches, the first one does: a currency word
    and the digits that follow it are a word of the first pattern. *)
Lemma pattern3_within_pattern1 (w suf : string) :
  xsem true pattern3 w suf ->
  exists w1 rest, w ++ suf = w1 ++ rest /\ matches true pattern1 w1 rest.
Proof.
  unfold pattern3. intros H.
  inversion H as [|a b wc w' rest Hc Hg| | |]; subst; clear H.
  inversion Hc as [r w0 rest0 [gc Hcur]| | | |]; subst; clear Hc.
  inversion Hg as [| | | |n a w0 rest0 Hbody]; subst; clear Hg.
  inversion Hbody as [|a b wd w'' rest0 Hd _| | |]; subst; clear Hbody.
  inversion Hd as [r w0 rest0 [gd Hdig]| | | |]; subst; clear Hd.
  destruct Hdig as [(A & L & _) _].
  exists (wc ++ wd), (w'' ++ suf). split.
  - rewrite !append_assoc. reflexivity.
  - eexists. unfold pattern1. cbn [seqs sem].
    exists wc, wd, gc. eexists. split; [reflexivity|].
    split; [rewrite <- append_assoc; exact Hcur|]. split; [|reflexivity].
    exists EmptyString, wd, []. eexists. split; [reflexivity|].
    split; [unfold star; cbn; repeat split; auto; lia|]. split; [|reflexivity].
    exists []. split; [|reflexivity].
    unfold amount_token, plus, star. cbn [seqs sem].
    exists wd, EmptyString, [], []. split; [symmetry; apply app_nil_r|].
    split; [|split; [|reflexivity]].
    + split; [|reflexivity]. split; [|split; [exact L | exact I]].
      eapply (chars_all_in _ _ JS.is_digit); [|eapply all_in_chars; [|exact A]].
      * intros ch Hch. rewrite cmatch_digit_comma. unfold digit_or_comma.
        rewrite Hch. reflexivity.
      * intros ch. rewrite cmatch_digit. auto.
    + exists EmptyString, EmptyString, [], []. cbn. repeat split; auto; lia.
Qed.

Lemma pattern3_needs_pattern1 (message : string) :
  xexec true pattern3 message <> None -> exec true pattern1 message <> None.
Proof.
  intros H. apply xexec_found in H. destruct H as (pre & w & suf & -> & Hx).
  destruct (pattern3_within_pattern1 _ _ Hx) as (w1 & rest & Heq & Hm).
  apply exec_complete. exists pre, w1, rest. rewrite <- Heq. auto.
Qed.

Lemma verifiedAmount_eq (message : string) :
  verifiedAmount message =
  match exec true pattern1 message, exec true pattern2 message with
  | Some m, _ => amount_of m
  | None, Some m => amount_of m
  | None, None => Num.zero
  end.
Proof.
  unfold verifiedAmount.
  destruct (exec true pattern1 message) as [m1|] eqn:H1.
  - destruct (exec true pattern2 message); reflexivity.
  - destruct (xexec true pattern3 message) as [m3|] eqn:H3.
    + exfalso. apply (pattern3_needs_pattern1 message); [|exact H1].
      rewrite H3. discriminate.
    + destruct (exec true pattern2 message); reflexivity.
Qed.

(** X12. The third pattern of the form never supplies the amount: a message
    in which it matches is one in which the first pattern matches.  The
    amount is read by the first pattern, else by the second, else it is
    0. *)
Theorem verifiedAmount_two_patterns (message : string) :
  (xexec true pattern3 message <> None -> exec true pattern1 message <> None)
  /\ verifiedAmount message =
     match exec true pattern1 message, exec true pattern2 message with
     | Some m, _ => amount_of m
     | None, Some m => amount_of m
     | None, None => Num.zero
     end.
Proof.
  split; [apply pattern3_needs_pattern1 | apply verifiedAmount_eq].
Qed.

Lemma verifiedAmount_two_patterns_witness :
  exec true pattern1 "paid KES250 today" <> None.
Proof.
  apply (proj1 (verifiedAmount_two_patterns "paid KES250 today")).
  vm_compute. discriminate.
Defined.

End FormFacts.

Module HandlerFacts.

Import Regex RegexSem RegexFacts RegexComplete Shape ShapeFacts TrimFacts ParseFacts.
Import MpesaVerification FormFacts.







(** *** The decisions of [handleVerify] *)

Section Handler.

Variable upgradePlan : string -> promise bool.
Variable planData : option PlanData.



End Handler.


(** X15. What the form shows does not depend on what [upgradePlan] does:
    the call is not awaited, so once a plan is resolved the form reports
    the upgrade as done and never as failed. *)
Theorem handleVerify_ignores_upgrade_result
        (up1 up2 : string -> promise bool) (planData : option PlanData)
        (message : string) :
  handleVerify up1 planData message = handleVerify up2 planData message
  /\ ~ In (Toast UpgradeFailed) (handleVerify up1 planData message)
  /\ (forall name,
        In (CallUpgradePlan name) (handleVerify up1 planData message) ->
        exists t, t.(PlanUpgradeService.planName) = name
                  /\ In (Toast (PlanUpgradedSuccessfully t))
                        (handleVerify up1 planData message)).
Proof.
  split; [reflexivity|]. unfold handleVerify.
  destruct (negb (JS.truthy (JS.trim message))).
  { split; [intros [H|[]]; discriminate|]. intros name [H|[]]. discriminate. }
  destruct (MpesaVerifier.isValid (MpesaVerifier.verifyMessage message)).
  2:{ split.
      - intros H. cbn in H.
        repeat (destruct H as [H|H]; try discriminate). destruct H.
      - intros name H. cbn in H.
        repeat (destruct H as [H|H]; try discriminate). destruct H. }
  destruct (Num.gt (verifiedAmount message) Num.zero), planData as [pd|];
    try (split;
         [intros H; cbn in H;
          repeat (destruct H as [H|H]; try discriminate); destruct H
         |intros name H; cbn in H;
          repeat (destruct H as [H|H]; try discriminate); destruct H]).
  destruct (PlanUpgradeService.getPlanByAmount _ _) as [t|].
  - split.
    + intros H. cbn in H.
      repeat (destruct H as [H|H]; try discriminate). destruct H.
    + intros name H. exists t. cbn in H |- *.
      repeat (destruct H as [H|H]; try discriminate); [|destruct H].
      injection H as <-. split; [reflexivity | tauto].
  - split.
    + intros H. cbn in H.
      repeat (destruct H as [H|H]; try discriminate). destruct H.
    + intros name H. cbn in H.
      repeat (destruct H as [H|H]; try discriminate). destruct H.
Qed.

Lemma handleVerify_ignores_upgrade_result_witness :
  exists t, t.(PlanUpgradeService.planName) = "Silver"
            /\ In (Toast (PlanUpgradedSuccessfully t))
                  (handleVerify (fun _ => Resolves false)
                                (Some (mkPlanData sample_tiers)) scenario_message).
Proof.
  apply (proj2 (proj2 (handleVerify_ignores_upgrade_result
                         (fun _ => Resolves false) (fun _ => Resolves true)
                         (Some (mkPlanData sample_tiers)) scenario_message))).
  vm_compute. tauto.
Defined.

End HandlerFacts.

(** ** The paste listener *)

Module PasteFacts.

Import Num NumLib Shape ShapeFacts MpesaVerification AutoUpgradeHandler.
Import PlanUpgradeService Samples.

Lemma radix_val_digit (c : ascii) :
  JS.is_digit c = true -> radix_val 10 c = Some (digit_val c).
Proof. destruct c as [[] [] [] [] [] [] [] []]; try discriminate; reflexivity. Qed.

(** On digits, [parseInt] and [parseFloat] read the same value. *)
Lemma digits_plain (s : string) :
  all_chars JS.is_digit s = true ->
  forall acc n, exists v,
    digits s acc n = (v, n + String.length s, EmptyString)
    /\ int_digits 10 s acc n = (v, n + String.length s).
Proof.
  induction s as [|c s IH]; cbn [all_chars]; intros H acc n.
  - exists acc. cbn. rewrite Nat.add_0_r. auto.
  - apply andb_true_iff in H. destruct H as [Hc Hs].
    cbn [digits int_digits String.length]. rewrite Hc, (radix_val_digit c Hc).
    destruct (IH Hs (10 * acc + digit_val c)%Z (S n)) as (v & Hd & Hi).
    exists v. rewrite Hd, Hi, <- plus_n_Sm. auto.
Qed.

Lemma digit_head (c : ascii) (s : string) :
  JS.is_digit c = true ->
  JS.trimStart (String c s) = String c s
  /\ sign (String c s) = (false, String c s)
  /\ prefix "Infinity" (String c s) = false.
Proof.
  destruct c as [[] [] [] [] [] [] [] []]; try discriminate; intros _;
    repeat split; reflexivity.
Qed.

Lemma no_hex_prefix (s : string) :
  all_chars JS.is_digit s = true ->
  match s with
  | String "0" (String "x" t) => (16%Z, t)
  | String "0" (String "X" t) => (16%Z, t)
  | _ => (10%Z, s)
  end = (10%Z, s).
Proof.
  destruct s as [|c [|c' t]]; cbn [all_chars]; intros H.
  - reflexivity.
  - destruct c as [[] [] [] [] [] [] [] []]; reflexivity.
  - apply andb_true_iff in H. destruct H as [_ H].
    apply andb_true_iff in H. destruct H as [H _].
    destruct c' as [[] [] [] [] [] [] [] []]; try discriminate;
      destruct c as [[] [] [] [] [] [] [] []]; reflexivity.
Qed.

Lemma parse_plain (s : string) :
  s <> EmptyString -> all_chars JS.is_digit s = true ->
  exists v, parseInt s = Fin (inject_Z v)
            /\ parseFloat s = Fin (Qred (inject_Z v * Qpower 10 0)).
Proof.
  intros Hne Hd. destruct s as [|c s]; [congruence|].
  pose proof Hd as Hc. cbn [all_chars] in Hc. apply andb_true_iff in Hc.
  destruct Hc as [Hc _].
  destruct (digit_head c s Hc) as (Ht & Hs & Hi).
  destruct (digits_plain _ Hd 0%Z 0) as (v & Hdig & Hint).
  exists v. unfold parseInt, parseFloat.
  rewrite Ht, Hs, Hi, (no_hex_prefix _ Hd), Hint, Hdig.
  cbn [String.length Nat.add Nat.eqb andb exponent Nat2Z.inj_0 Z.of_nat Z.sub].
  auto.
Qed.

Lemma eq_plain (s : string) (a : number) :
  s <> EmptyString -> all_chars JS.is_digit s = true ->
  Num.eq (parseInt s) a = Num.eq (parseFloat s) a.
Proof.
  intros Hne Hd. destruct (parse_plain s Hne Hd) as (v & -> & ->).
  destruct a as [| |q|]; try reflexivity. cbn [Num.eq].
  apply eq_true_iff_eq. rewrite !Qeq_bool_iff, Qred_correct.
  change (Qpower 10 0) with 1%Q. rewrite Qmult_1_r. reflexivity.
Qed.

Lemma find_ext_in {A : Type} (P Q : A -> bool) (l : list A) :
  (forall x, In x l -> P x = Q x) -> find P l = find Q l.
Proof.
  induction l as [|x l IH]; intros H; [reflexivity|].
  cbn [find]. rewrite (H x (or_introl eq_refl)), IH; [reflexivity|].
  intros y Hy. apply H. right. exact Hy.
Qed.

(** X16. Where every price is written with digits only, the two ways to
    pick a tier agree on an amount above zero: the tier the paste
    listener finds for the amount is the tier [getPlanByAmount] resolves
    it to. *)
Theorem plan_for_agrees_with_getPlanByAmount
        (pd : PlanData) (amount : number) (t : SurveyPlan) :
  plain_prices pd.(surveyPlans) ->
  Num.gt amount zero = true ->
  plan_for (Some pd) amount = Some t ->
  getPlanByAmount amount pd.(surveyPlans) = Some t.
Proof.
  intros Hplain Hpos Hf. cbn [plan_for] in Hf.
  rewrite (find_ext_in _ (fun plan => Num.eq (priceOf plan) amount)) in Hf.
  - rewrite PlanFacts.getPlanByAmount_eq, PlanFacts.exact_match_first by exact Hpos.
    rewrite Hf. reflexivity.
  - intros x Hx. destruct (Hplain x Hx) as [Hne Hd].
    apply eq_plain; assumption.
Qed.

Lemma plan_for_agrees_with_getPlanByAmount_witness :
  getPlanByAmount (of_Z 500) sample_tiers = Some gold.
Proof.
  apply (plan_for_agrees_with_getPlanByAmount (mkPlanData sample_tiers)).
  - intros p Hp. cbn in Hp.
    destruct Hp as [<-|[<-|[<-|[<-|[]]]]]; split; (discriminate || reflexivity).
  - reflexivity.
  - vm_compute. reflexivity.
Defined.

(** X17. The paste listener stays silent, with no toast and no call,
    unless the text holds M-Pesa, Ksh or Till as written here and is a
    message [isValidMpesMessage] accepts; such a text holds the expected
    till number. *)
Theorem handlePaste_silent_unless_valid
        (env : MessageProcessor.Env) (upgradePlan : string -> bool)
        (planData : option PlanData) (text : string) :
  handlePaste env upgradePlan planData text <> [] ->
  looks_like_mpesa text = true
  /\ MessageProcessorCheck.isValidMpesMessage env text = true
  /\ factor MessageProcessor.correctTillNumber text.
Proof.
  unfold handlePaste, MessageProcessorCheck.isValidMpesMessage.
  destruct (negb (JS.truthy text)); [congruence|].
  destruct (looks_like_mpesa text); [|congruence].
  destruct (MessageProcessor.extractPaymentInfo env text) as [info|] eqn:H;
    [|congruence].
  intros _. split; [reflexivity|]. split; [reflexivity|].
  exact (proj2 (proj2 (PaymentInfoFacts.extract_well_formed _ _ _ H))).
Qed.

Lemma handlePaste_silent_unless_valid_witness :
  looks_like_mpesa "Ksh500 paid to 3566188" = true
  /\ MessageProcessorCheck.isValidMpesMessage
       sample_env "Ksh500 paid to 3566188" = true
  /\ factor MessageProcessor.correctTillNumber "Ksh500 paid to 3566188".
Proof.
  apply (handlePaste_silent_unless_valid
           sample_env (fun _ => true) (Some (mkPlanData sample_tiers))).
  vm_compute. discriminate.
Defined.

End PasteFacts.

(** ** The state the form is left in *)

Module FormStateFacts.

Import MpesaVerification FormState.



End FormStateFacts.

(** ** The orchestration, once more *)

Module UpgradeFacts.

Import PlanUpgradeService.

(** The console that accepts every line. *)
Lemma quiet_console (amount : Num.number) (plans : list SurveyPlan) :
  getPlanByAmountM (m := sum error) (fun _ => inr tt) amount plans
  = inr (getPlanByAmount amount plans).
Proof.
  unfold getPlanByAmount, getPlanByAmountM.
  cbn [bind ret Monad_ident Monad_either unIdent].
  destruct (find _ _); [reflexivity|].
  destruct (find _ _); [reflexivity|].
  destruct (0 <? _)%nat; [|reflexivity].
  destruct (JSArray.last_elt _); reflexivity.
Qed.

Lemma plan_named_unique (plans : list SurveyPlan) (t : SurveyPlan) :
  NoDup (map planName plans) -> In t plans ->
  plan_named plans (planName t) = Some t.
Proof.
  unfold plan_named. induction plans as [|x l IH]; intros Hnd Hin; [contradiction|].
  cbn [map] in Hnd. inversion Hnd as [|? ? Hx Hl]; subst.
  cbn [find]. destruct Hin as [->|Hin].
  - rewrite String.eqb_refl. reflexivity.
  - destruct (String.eqb_spec (planName x) (planName t)) as [He|_]; [|auto].
    exfalso. apply Hx. rewrite He. apply in_map. exact Hin.
Qed.

Lemma free_below_paid (a b : Num.number) :
  Num.gt a Num.zero = false -> Num.gt b Num.zero = true -> Num.gt a b = false.
Proof.
  destruct a as [| |x|], b as [| |y|]; cbn; try congruence.
  intros Ha Hb. apply negb_false_iff in Ha. apply negb_true_iff in Hb.
  apply negb_false_iff. apply Qle_bool_iff. apply Qle_bool_iff in Ha.
  assert (~ (y <= 0)%Q) by (intros H; apply Qle_bool_iff in H; congruence).
  lra.
Qed.

(** X19. The current plan is always taken to be Starter: when no tier of
    the list bears that name, no amount upgrades anything, whatever the
    console does. *)
Theorem processPlanUpgrade_needs_starter
        (console_log : list logarg -> sum error unit)
        (userId : string) (verifiedAmount : Num.number)
        (availablePlans : list SurveyPlan) (r : PlanUpgradeResult) :
  plan_named availablePlans "Starter" = None ->
  processPlanUpgrade console_log userId verifiedAmount availablePlans = inr r ->
  success r = false /\ newPlan r = None /\ oldPlan r = None.
Proof.
  intros Hno. unfold processPlanUpgrade, upgrade_body.
  cbn [bind Monad_either].
  destruct (getPlanByAmountM console_log verifiedAmount availablePlans)
    as [e|[t|]]; cbn [catch Exception_either ret Monad_either].
  - intros [= <-]. auto.
  - rewrite PlanFacts.validateUpgrade_eq, Hno.
    cbn [unknown_plan Validation.isValid negb ret Monad_either].
    intros [= <-]. auto.
  - intros [= <-]. auto.
Qed.

Lemma processPlanUpgrade_needs_starter_witness :
  success (failure "Invalid plan selection") = false
  /\ newPlan (failure "Invalid plan selection") = None
  /\ oldPlan (failure "Invalid plan selection") = None.
Proof.
  apply (processPlanUpgrade_needs_starter
           (fun _ => inr tt) "u1" (Num.of_Z 250) [silver; gold]);
    vm_compute; reflexivity.
Defined.

(** X20. With tiers of distinct names, a tier named Starter that is free
    and a console that accepts every line, [processPlanUpgrade] succeeds
    as soon as [getPlanByAmount] resolves the amount, and reports the
    tier resolved as the new plan and Starter as the old one. *)
Theorem processPlanUpgrade_from_free_starter
        (userId : string) (verifiedAmount : Num.number)
        (availablePlans : list SurveyPlan) (s t : SurveyPlan) :
  NoDup (map planName availablePlans) ->
  plan_named availablePlans "Starter" = Some s ->
  is_paid s = false ->
  getPlanByAmount verifiedAmount availablePlans = Some t ->
  processPlanUpgrade (fun _ => inr tt) userId verifiedAmount availablePlans
  = inr {| success := true;
           message := "Plan successfully upgraded to " ++ planName t;
           newPlan := Some t;
           oldPlan := Some "Starter" |}.
Proof.
  intros Hnd Hs Hfree Ht. unfold processPlanUpgrade, upgrade_body.
  cbn [bind Monad_either]. rewrite quiet_console, Ht.
  destruct (PlanFacts.getPlanByAmount_some _ _ _ Ht) as [[Hin Hpaid] _].
  rewrite PlanFacts.validateUpgrade_eq, Hs, (plan_named_unique _ _ Hnd Hin).
  change (is_paid s) with (Num.gt (priceOf s) Num.zero) in Hfree.
  rewrite (free_below_paid (priceOf s) (priceOf t) Hfree Hpaid).
  reflexivity.
Qed.

Lemma processPlanUpgrade_from_free_starter_witness :
  processPlanUpgrade (fun _ => inr tt) "u1" (Num.of_Z 300) sample_tiers
  = inr {| success := true;
           message := "Plan successfully upgraded to " ++ planName gold;
           newPlan := Some gold;
           oldPlan := Some "Starter" |}.
Proof.
  apply (processPlanUpgrade_from_free_starter "u1" (Num.of_Z 300)
                                              sample_tiers starter gold).
  - cbn. repeat constructor; cbn; intuition discriminate.
  - reflexivity.
  - reflexivity.
  - vm_compute. reflexivity.
Defined.

End UpgradeFacts.

(** ** The dashboard *)

Module DashboardFacts.

Import Num NumLib Dashboard.

Lemma ge_or_zero (done d : number) :
  Num.ge done (or_zero (Some d)) = false -> Num.ge done d = false.
Proof.
  unfold or_zero. destruct (truthy d) eqn:Ht; [auto|].
  destruct d as [| |q|]; try discriminate.
  - destruct done; reflexivity.
  - cbn in Ht. apply negb_false_iff, Qeq_bool_iff in Ht.
    destruct done as [| |x|]; cbn; try congruence.
    intros H. apply not_true_iff_false. apply not_true_iff_false in H.
    rewrite Qle_bool_iff in *. intros Hq. apply H. lra.
Qed.

(** X21. A click on a survey opens the limit dialog exactly when the
    dialog, fed the limit the dashboard hands it, reports the limit
    reached.  The limit test inside [handleStartSurvey] never fires after
    the test of the click, and without a current plan a count of zero or
    more opens the dialog. *)
Theorem onClick_limit_dialog
        (currentPlan : option PlanUpgradeService.SurveyPlan)
        (surveysCompletedToday : number) (surveys : list Survey)
        (surveyId : string) :
  (onClick currentPlan surveysCompletedToday surveys surveyId = ShowLimitModal
   <-> SurveyLimitModal.isLimitReached
         (dailyLimit currentPlan) surveysCompletedToday = true)
  /\ (currentPlan = None -> Num.ge surveysCompletedToday zero = true ->
      onClick currentPlan surveysCompletedToday surveys surveyId
      = ShowLimitModal).
Proof.
  unfold onClick, SurveyLimitModal.isLimitReached. split.
  - destruct (Num.ge surveysCompletedToday (dailyLimit currentPlan)) eqn:Hge;
      [tauto|].
    split; [|discriminate]. unfold handleStartSurvey.
    destruct currentPlan as [cp|]; [|discriminate].
    unfold dailyLimit in Hge. cbn [option_map] in Hge.
    rewrite (ge_or_zero _ _ Hge).
    destruct (find _ surveys) as [sv|]; [|discriminate].
    destruct (questions sv) as [[|]|]; discriminate.
  - intros -> H. cbn [dailyLimit option_map or_zero]. rewrite H. reflexivity.
Qed.

Lemma onClick_limit_dialog_witness :
  onClick None (of_Z 0) [] "s1" = ShowLimitModal.
Proof.
  apply (proj2 (onClick_limit_dialog None (of_Z 0) [] "s1")); reflexivity.
Defined.

(** X22. When a withdrawal is refused, the balance is a number and the
    amount shown as missing is above zero. *)
Theorem handleWithdrawal_missing_positive
        (currentPlan : option PlanUpgradeService.SurveyPlan)
        (pendingEarnings missing : number) :
  handleWithdrawal currentPlan pendingEarnings = InsufficientBalance missing ->
  Num.gt missing zero = true /\ is_num pendingEarnings = true.
Proof.
  unfold handleWithdrawal.
  destruct (Num.lt pendingEarnings _) eqn:Hlt; [|discriminate].
  intros [= <-].
  destruct pendingEarnings as [| |x|],
           (or_zero (option_map PlanUpgradeService.minimumWithdrawal currentPlan))
    as [| |y|]; try discriminate; split; try reflexivity.
  cbn in Hlt |- *. apply negb_true_iff in Hlt. apply negb_true_iff.
  apply not_true_iff_false. apply not_true_iff_false in Hlt.
  rewrite Qle_bool_iff in *. intros H. apply Hlt. lra.
Qed.

Lemma handleWithdrawal_missing_positive_witness :
  Num.gt (of_Z 300) zero = true /\ is_num (of_Z 200) = true.
Proof.
  apply (handleWithdrawal_missing_positive
           (Some (PlanUpgradeService.mkPlan
                    "Silver" (of_Z 10) (of_Z 0) (of_Z 0) "50" (of_Z 500) "250"
                    None None))
           (of_Z 200) (of_Z 300)).
  vm_compute. reflexivity.
Defined.

End DashboardFacts.

(** ** Amounts at the edge, and the order of the tiers *)

Module EdgeFacts.

Import PlanUpgradeService.

Lemma paid_above_nonpositive (p a : Num.number) :
  Num.gt p Num.zero = true -> Num.le a Num.zero = true ->
  Num.ge p a = true /\ Num.eq p a = false.
Proof.
  destruct p as [| |x|], a as [| |y|]; cbn; try discriminate; auto.
  intros Hp Ha. apply negb_true_iff in Hp.
  assert (Hx : ~ (x <= 0)%Q) by (intros H; apply Qle_bool_iff in H; congruence).
  apply Qle_bool_iff in Ha. split.
  - apply Qle_bool_iff. lra.
  - apply not_true_iff_false. rewrite Qeq_bool_iff. lra.
Qed.

(** X23. An amount that is no number resolves to a dearest paid tier, and
    an amount of zero or less resolves to a cheapest paid tier. *)
Theorem getPlanByAmount_edge_amounts (plans : list SurveyPlan) (t : SurveyPlan) :
  (getPlanByAmount Num.NaN plans = Some t ->
   forall u, paid_in plans u -> Num.le (priceOf u) (priceOf t) = true)
  /\ (forall amount,
        Num.le amount Num.zero = true ->
        getPlanByAmount amount plans = Some t ->
        forall u, paid_in plans u -> Num.le (priceOf t) (priceOf u) = true).
Proof.
  split.
  - intros Ht. destruct (PlanFacts.getPlanByAmount_some _ _ _ Ht) as [_ Hc].
    destruct Hc as [He|_ Hge _|_ Hmax]; [| |exact Hmax].
    + destruct (priceOf t); discriminate.
    + destruct (priceOf t); discriminate.
  - intros amount Ha Ht.
    destruct (PlanFacts.getPlanByAmount_some _ _ _ Ht) as [[Hin Hpaid] Hc].
    destruct (paid_above_nonpositive _ _ Hpaid Ha) as [Hge Hne].
    destruct Hc as [He|_ _ Hmin|Hlow _].
    + congruence.
    + intros u Hu. apply Hmin; [exact Hu|].
      exact (proj1 (paid_above_nonpositive _ _ (proj2 Hu) Ha)).
    + rewrite (Hlow t (conj Hin Hpaid)) in Hge. discriminate.
Qed.

Lemma getPlanByAmount_edge_amounts_witness :
  Num.le (priceOf silver) (priceOf platinum) = true.
Proof.
  apply (proj2 (getPlanByAmount_edge_amounts sample_tiers silver) (Num.of_Z (-5))).
  - reflexivity.
  - vm_compute. reflexivity.
  - split; [cbn; tauto | reflexivity].
Defined.

(** X24. Of two tiers known by name, at least one direction of change is
    accepted; a change is refused only as a downgrade, and then the
    opposite change is accepted. *)
Theorem validateUpgrade_one_direction
        (plans : list SurveyPlan) (a b : string) (x y : SurveyPlan) :
  plan_named plans a = Some x -> plan_named plans b = Some y ->
  (Validation.isValid (validateUpgrade a b plans) = true
   \/ Validation.isValid (validateUpgrade b a plans) = true)
  /\ (Validation.isValid (validateUpgrade a b plans) = false ->
      validateUpgrade a b plans = downgrade_refused
      /\ validateUpgrade b a plans = upgrade_accepted).
Proof.
  intros Ha Hb. rewrite !PlanFacts.validateUpgrade_eq, Ha, Hb.
  destruct (Num.gt (priceOf x) (priceOf y)) eqn:Hxy.
  - assert (Hyx : Num.gt (priceOf y) (priceOf x) = false)
      by (apply NumFacts.lt_gt_flip; exact Hxy).
    rewrite Hyx. split; [right; reflexivity | auto].
  - split; [left; reflexivity | discriminate].
Qed.

Lemma validateUpgrade_one_direction_witness :
  (Validation.isValid (validateUpgrade "Gold" "Silver" sample_tiers) = true
   \/ Validation.isValid (validateUpgrade "Silver" "Gold" sample_tiers) = true)
  /\ (Validation.isValid (validateUpgrade "Gold" "Silver" sample_tiers) = false ->
      validateUpgrade "Gold" "Silver" sample_tiers = downgrade_refused
      /\ validateUpgrade "Silver" "Gold" sample_tiers = upgrade_accepted).
Proof.
  apply (validateUpgrade_one_direction sample_tiers "Gold" "Silver" gold silver);
    reflexivity.
Defined.

End EdgeFacts.

(** ** What a run of the form shows *)

Module FormTraceFacts.

Import MpesaVerification FormTrace.

(** X25. Every run of [handleVerify] shows exactly one toast. *)
Theorem handleVerify_one_toast
        (upgradePlan : string -> promise bool) (planData : option PlanData)
        (message : string) :
  length (toasts (handleVerify upgradePlan planData message)) = 1.
Proof.
  unfold handleVerify.
  destruct (negb (JS.truthy (JS.trim message))); [reflexivity|].
  destruct (MpesaVerifier.isValid (MpesaVerifier.verifyMessage message));
    [|reflexivity].
  destruct (Num.gt (verifiedAmount message) Num.zero), planData as [pd|];
    try reflexivity.
  destruct (PlanUpgradeService.getPlanByAmount _ _); reflexivity.
Qed.





End FormTraceFacts.
